(** * Turn-taking orchestrator of the voice companion

    A shallow embedding of the [useChatService] hook and of the parts of
    its three adapters ([DeepgramService], [OpenAIService],
    [ElevenLabsService]) that the hook drives.

    The hook is asynchronous.  Every [await] on something external (the
    transcription handshake, the microphone permission, the completion
    round trip, the voices of the speech synthesizer, a timer) is a
    suspension point: the suspended call is kept as a [task] in the hook
    state and resumed when the environment settles it.  The code between
    two suspension points runs atomically, as on the JavaScript event
    loop; an [await] on a promise that is already settled does not let
    other events in and is not a suspension point here.

    - React state updaters are applied when they are enqueued (React
      runs them in that order): [conversationHistory] is the committed
      history with the updaters enqueued so far applied to it, which is
      what the next updater gets as [prev].  The two awaits of
      [processUserMessage] on an updater (part_001:120-126 and 131-141)
      are not suspension points here: the model goes on at once with
      the value the updater returns, where the app goes on at the next
      render, so that other events can come between the acceptance and
      the request to the Completion Client, and between the arrival of
      the reply and [onResponse].  What the request and the history
      hold is the same, and so is the order of the events of one call;
      the theorems that give a trace give it for a turn with nothing in
      between, or for one step.
    - The adapter state of the hook is the recorder and the stream; the
      callbacks and the text of the adapter are in [Transcription].  An
      exception of [new MediaRecorder] or [start] is not modelled: a
      granted request for the microphone is followed by a recorder that
      starts.
    - A function returned by the hook closes over the [isMuted] of the
      render that made it; calls carry that value as [muted].  The
      callback that the adapter holds for the end of an utterance is
      the one of the render in which [startListening] was called
      ([onUtteranceEnd]).
    - [window.speechSynthesis] is the queue of the Web Speech API:
      [speak] appends an utterance, [cancel] removes all of them and
      each removed utterance gets an error event, an utterance that ends
      gets an end event; both events run the same handler.
    - Left out of the hook state: the transcript text of
      [DeepgramService], the unmount cleanup (it ends the session),
      exceptions thrown by the caller's callbacks.

    Around the hook: the transcript of [DeepgramService] on its own
    ([Transcription]), the choice of the voice in
    [ElevenLabsService.speak], the callbacks of [VoiceChat] as a
    function of the hook's notifications, and the screens of [App]. *)

From Stdlib Require Import List Bool Arith NArith Lia String Ascii.
Import ListNotations.

Set Implicit Arguments.

(** ** JavaScript strings *)

(** A string is its sequence of UTF-16 code units. *)
Definition jsstring := list N.

Definition lit (s : string) : jsstring :=
  map N_of_ascii (list_ascii_of_string s).

Definition jseq (a b : jsstring) : bool :=
  if list_eq_dec N.eq_dec a b then true else false.

(** Truthiness of a string: the empty string is the only falsy one. *)
Definition truthy (s : jsstring) : bool :=
  match s with [] => false | _ :: _ => true end.

(** WhiteSpace and LineTerminator code units of ECMAScript, the ones
    [String.prototype.trim] strips. *)
Definition isWhiteSpace (c : N) : bool :=
  ((9 <=? c) && (c <=? 13) || (c =? 32) || (c =? 160) || (c =? 5760)
   || (8192 <=? c) && (c <=? 8202) || (c =? 8232) || (c =? 8233)
   || (c =? 8239) || (c =? 8287) || (c =? 12288) || (c =? 65279))%N.

Fixpoint trimStart (s : jsstring) : jsstring :=
  match s with
  | c :: r => if isWhiteSpace c then trimStart r else s
  | [] => []
  end.

Definition trimEnd (s : jsstring) : jsstring := rev (trimStart (rev s)).

Definition trim (s : jsstring) : jsstring := trimEnd (trimStart s).

(** What the hook takes from its host: [String.prototype.toLowerCase]
    (the Unicode case mapping, kept abstract) and whether the browser has
    [speechSynthesis] in [window]. *)
Class Runtime := {
  toLowerCase : jsstring -> jsstring;
  speechSynthesis_in_window : bool
}.

(** The key of the duplicate check: the message trimmed and case-folded. *)
Definition messageKey {runtime : Runtime} (message : jsstring) : jsstring :=
  toLowerCase (trim message).

(** ** Data model *)

Inductive Role := system | user | assistant.

Definition Role_eqb (a b : Role) : bool :=
  match a, b with
  | system, system | user, user | assistant, assistant => true
  | _, _ => false
  end.

Record message := { role : Role; content : jsstring }.

(** [ChatServiceCallbacks]: the two identity strings, and whether the
    optional [onUserMessage] is given.  The calls of the callbacks are
    recorded in the trace. *)
Record ChatServiceCallbacks := {
  userName : jsstring;
  userGender : jsstring;
  onUserMessage : bool
}.

(** What the hook does to the outside, in order: the notifications to
    its caller and the calls of adapter methods that the properties
    below speak about. *)
Inductive event :=
| OnUserMessage (text : jsstring)
| OnResponse (text : jsstring)
| OnSpeakingComplete
| OpenaiGetResponse (messages : list message)
| ElevenlabsSpeak (text : jsstring)
| DeepgramResumeListening.

(** Settlement of an external promise.  [v] is the value it resolves
    with where the code reads one: for the chat completion it is
    [completion.choices[0]?.message?.content]. *)
Inductive outcome :=
| fulfilled (v : option jsstring)
| rejected.

(** Who is speaking: a turn of [processUserMessage] or the greeting.
    It fixes the [onComplete] closure handed to [speak] and the code that
    follows [await elevenlabs.speak(...)]. *)
Inductive speaker := Turn | Greeting.

(** Who awaits [initializeIfNeeded]: the mount effect (which swallows a
    failure) or [startListening]. *)
Inductive caller := MountEffect | StartListening.

(** Suspended calls.  [p] names the promise cached in
    [initializationPromiseRef]; [muted] is the value of [isMuted] in the
    render whose closure is running. *)
Inductive task :=
| deepgram_initialize (p : nat)
| await_initialization (p : nat) (k : caller)
| openai_getResponse (muted : bool)
| getVoices (text : jsstring) (who : speaker)
| getUserMedia
| stop_delay
| greeting_delay (muted : bool)
| autoStart_delay.

(** [MediaRecorder.state] *)
Inductive RecordingState := inactive | recording | paused.

Module DeepgramService.

Record t := {
  mediaRecorder : option RecordingState;
  stream : bool
}.

Definition new : t := {| mediaRecorder := None; stream := false |}.

Definition withRecorder (r : option RecordingState) (d : t) : t :=
  {| mediaRecorder := r; stream := stream d |}.

Definition withStream (b : bool) (d : t) : t :=
  {| mediaRecorder := mediaRecorder d; stream := b |}.

(** [startListening] after the stream is there: an already recording
    recorder is kept, otherwise a new one is made and started. *)
Definition startRecorder (d : t) : t :=
  match mediaRecorder d with
  | Some recording => d
  | _ => withRecorder (Some recording) d
  end.

(** The synchronous head of [stopListening]. *)
Definition stopRecorder (d : t) : t :=
  match mediaRecorder d with
  | Some inactive | None => d
  | Some _ => withRecorder (Some inactive) d
  end.

Definition pauseListening (d : t) : t :=
  match mediaRecorder d with
  | Some recording => withRecorder (Some paused) d
  | _ => d
  end.

Definition resumeListening (d : t) : t :=
  match mediaRecorder d with
  | Some paused => withRecorder (Some recording) d
  | _ => d
  end.

End DeepgramService.

Module OpenAIService.

(** [getResponse]: the content of the first choice, or [''] when there
    is none; a failure of the request is thrown again. *)
Definition getResponse (o : outcome) : option jsstring :=
  match o with
  | fulfilled (Some c) => Some (if truthy c then c else [])
  | fulfilled None => Some []
  | rejected => None
  end.

End OpenAIService.

(** ** The hook state *)

(** React state ([isConnected], [error], [conversationHistory],
    [isMuted]), the refs, the adapters, the browser's speech queue and
    the suspended calls.  [queue] holds the utterances given to
    [speechSynthesis.speak] (the head is being spoken), [cancelled] the
    ones removed by [speechSynthesis.cancel()] whose error event is still
    to be delivered; each is kept as the [onComplete] it will run.
    [initAttempts] counts the calls of [deepgram.initialize()]. *)
Record hook := {
  isConnected : bool;
  error : option jsstring;
  conversationHistory : list message;
  isMuted : bool;
  processingRef : bool;
  lastProcessedMessageRef : jsstring;
  isInitializedRef : bool;
  initializationPromiseRef : option nat;
  isListeningRef : bool;
  deepgram : DeepgramService.t;
  utterance : option jsstring;
  queue : list speaker;
  cancelled : list speaker;
  initAttempts : nat;
  pending : list task;
  trace : list event
}.

Definition setIsConnected v s :=
  Build_hook
    v (error s) (conversationHistory s) (isMuted s) (processingRef s)
    (lastProcessedMessageRef s) (isInitializedRef s)
    (initializationPromiseRef s) (isListeningRef s) (deepgram s)
    (utterance s) (queue s) (cancelled s) (initAttempts s) (pending s)
    (trace s).

Definition setError v s :=
  Build_hook
    (isConnected s) v (conversationHistory s) (isMuted s)
    (processingRef s) (lastProcessedMessageRef s) (isInitializedRef s)
    (initializationPromiseRef s) (isListeningRef s) (deepgram s)
    (utterance s) (queue s) (cancelled s) (initAttempts s) (pending s)
    (trace s).

(** [setConversationHistory] with an updater function. *)
Definition setConversationHistory (f : list message -> list message) s :=
  Build_hook
    (isConnected s) (error s) (f (conversationHistory s)) (isMuted s)
    (processingRef s) (lastProcessedMessageRef s) (isInitializedRef s)
    (initializationPromiseRef s) (isListeningRef s) (deepgram s)
    (utterance s) (queue s) (cancelled s) (initAttempts s) (pending s)
    (trace s).

Definition setIsMuted v s :=
  Build_hook
    (isConnected s) (error s) (conversationHistory s) v (processingRef s)
    (lastProcessedMessageRef s) (isInitializedRef s)
    (initializationPromiseRef s) (isListeningRef s) (deepgram s)
    (utterance s) (queue s) (cancelled s) (initAttempts s) (pending s)
    (trace s).

Definition setProcessingRef v s :=
  Build_hook
    (isConnected s) (error s) (conversationHistory s) (isMuted s) v
    (lastProcessedMessageRef s) (isInitializedRef s)
    (initializationPromiseRef s) (isListeningRef s) (deepgram s)
    (utterance s) (queue s) (cancelled s) (initAttempts s) (pending s)
    (trace s).

Definition setLastProcessedMessageRef v s :=
  Build_hook
    (isConnected s) (error s) (conversationHistory s) (isMuted s)
    (processingRef s) v (isInitializedRef s) (initializationPromiseRef s)
    (isListeningRef s) (deepgram s) (utterance s) (queue s) (cancelled s)
    (initAttempts s) (pending s) (trace s).

Definition setIsInitializedRef v s :=
  Build_hook
    (isConnected s) (error s) (conversationHistory s) (isMuted s)
    (processingRef s) (lastProcessedMessageRef s) v
    (initializationPromiseRef s) (isListeningRef s) (deepgram s)
    (utterance s) (queue s) (cancelled s) (initAttempts s) (pending s)
    (trace s).

Definition setInitializationPromiseRef v s :=
  Build_hook
    (isConnected s) (error s) (conversationHistory s) (isMuted s)
    (processingRef s) (lastProcessedMessageRef s) (isInitializedRef s) v
    (isListeningRef s) (deepgram s) (utterance s) (queue s) (cancelled s)
    (initAttempts s) (pending s) (trace s).

Definition setIsListeningRef v s :=
  Build_hook
    (isConnected s) (error s) (conversationHistory s) (isMuted s)
    (processingRef s) (lastProcessedMessageRef s) (isInitializedRef s)
    (initializationPromiseRef s) v (deepgram s) (utterance s) (queue s)
    (cancelled s) (initAttempts s) (pending s) (trace s).

Definition setDeepgram v s :=
  Build_hook
    (isConnected s) (error s) (conversationHistory s) (isMuted s)
    (processingRef s) (lastProcessedMessageRef s) (isInitializedRef s)
    (initializationPromiseRef s) (isListeningRef s) v (utterance s)
    (queue s) (cancelled s) (initAttempts s) (pending s) (trace s).

Definition setUtterance v s :=
  Build_hook
    (isConnected s) (error s) (conversationHistory s) (isMuted s)
    (processingRef s) (lastProcessedMessageRef s) (isInitializedRef s)
    (initializationPromiseRef s) (isListeningRef s) (deepgram s) v
    (queue s) (cancelled s) (initAttempts s) (pending s) (trace s).

Definition setQueue v s :=
  Build_hook
    (isConnected s) (error s) (conversationHistory s) (isMuted s)
    (processingRef s) (lastProcessedMessageRef s) (isInitializedRef s)
    (initializationPromiseRef s) (isListeningRef s) (deepgram s)
    (utterance s) v (cancelled s) (initAttempts s) (pending s) (trace s).

Definition setCancelled v s :=
  Build_hook
    (isConnected s) (error s) (conversationHistory s) (isMuted s)
    (processingRef s) (lastProcessedMessageRef s) (isInitializedRef s)
    (initializationPromiseRef s) (isListeningRef s) (deepgram s)
    (utterance s) (queue s) v (initAttempts s) (pending s) (trace s).

Definition setInitAttempts v s :=
  Build_hook
    (isConnected s) (error s) (conversationHistory s) (isMuted s)
    (processingRef s) (lastProcessedMessageRef s) (isInitializedRef s)
    (initializationPromiseRef s) (isListeningRef s) (deepgram s)
    (utterance s) (queue s) (cancelled s) v (pending s) (trace s).

Definition setPending v s :=
  Build_hook
    (isConnected s) (error s) (conversationHistory s) (isMuted s)
    (processingRef s) (lastProcessedMessageRef s) (isInitializedRef s)
    (initializationPromiseRef s) (isListeningRef s) (deepgram s)
    (utterance s) (queue s) (cancelled s) (initAttempts s) v (trace s).

Definition setTrace v s :=
  Build_hook
    (isConnected s) (error s) (conversationHistory s) (isMuted s)
    (processingRef s) (lastProcessedMessageRef s) (isInitializedRef s)
    (initializationPromiseRef s) (isListeningRef s) (deepgram s)
    (utterance s) (queue s) (cancelled s) (initAttempts s) (pending s) v.

(** Record an outside effect. *)
Definition emit (e : event) (s : hook) : hook := setTrace (trace s ++ [e]) s.

(** Suspend the running call. *)
Definition await (t : task) (s : hook) : hook := setPending (pending s ++ [t]) s.

(** ** The hook *)

Section useChatService.

Context {runtime : Runtime}.
Variable callbacks : ChatServiceCallbacks.

Definition nl : jsstring := [10%N].
Definition dq : jsstring := [34%N].

Definition systemPrompt : jsstring :=
  lit "You are a friendly AI companion who speaks naturally and casually, just like a real friend. The user's name is "
  ++ userName callbacks ++ lit " and they are " ++ userGender callbacks ++ lit "." ++ nl
  ++ nl
  ++ lit "Your personality traits:" ++ nl
  ++ lit "- Warm, enthusiastic, and genuinely interested in conversations" ++ nl
  ++ lit "- Use casual language and contractions (like " ++ dq ++ lit "I'm" ++ dq ++ lit ", "
     ++ dq ++ lit "you're" ++ dq ++ lit ", " ++ dq ++ lit "that's" ++ dq ++ lit ")" ++ nl
  ++ lit "- Show empathy and emotional intelligence" ++ nl
  ++ lit "- Occasionally use friendly expressions like " ++ dq ++ lit "Oh!" ++ dq ++ lit ", "
     ++ dq ++ lit "Wow!" ++ dq ++ lit ", " ++ dq ++ lit "That's awesome!" ++ dq ++ lit ", "
     ++ dq ++ lit "I see!" ++ dq ++ nl
  ++ lit "- Keep responses concise and conversational (2-3 sentences usually)" ++ nl
  ++ lit "- Ask follow-up questions to keep the conversation flowing" ++ nl
  ++ lit "- Be supportive and encouraging" ++ nl
  ++ lit "- Use natural speech patterns with occasional filler words when appropriate" ++ nl
  ++ lit "- React naturally to what the user says" ++ nl
  ++ lit "- Remember context from earlier in the conversation" ++ nl
  ++ lit "- Always address the user by their name: " ++ userName callbacks ++ nl
  ++ nl
  ++ lit "Speak as if you're chatting with a close friend over coffee. Be genuine, relatable, and fun to talk to!".

(** The hook's [useState] and [useRef] initial values. *)
Definition firstRender : hook :=
  {| isConnected := false; error := None; conversationHistory := [];
     isMuted := false; processingRef := false; lastProcessedMessageRef := [];
     isInitializedRef := false; initializationPromiseRef := None;
     isListeningRef := false; deepgram := DeepgramService.new;
     utterance := None; queue := []; cancelled := [];
     initAttempts := 0; pending := []; trace := [] |}.

(** *** ElevenLabsService over the browser's speech queue *)

(** [window.speechSynthesis.cancel()]: every queued utterance leaves
    the queue and gets an error event. *)
Definition speechSynthesis_cancel (s : hook) : hook :=
  setQueue [] (setCancelled (cancelled s ++ queue s) s).

Definition cleanup (s : hook) : hook :=
  setUtterance None
    (if speechSynthesis_in_window then speechSynthesis_cancel s else s).

(** [autoStart] of [sendInitialGreeting]: [startListening] after 500 ms. *)
Definition autoStart (s : hook) : hook := await autoStart_delay s.

(** The [onComplete] closure given to [speak]. *)
Definition onComplete (who : speaker) (s : hook) : hook :=
  match who with
  | Turn => setProcessingRef false (emit OnSpeakingComplete s)
  | Greeting => autoStart (emit OnSpeakingComplete s)
  end.

(** The [finally] block of [processUserMessage]. *)
Definition processUserMessage_finally (s : hook) : hook :=
  if isListeningRef s
  then setDeepgram (DeepgramService.resumeListening (deepgram s))
         (emit DeepgramResumeListening s)
  else s.

(** What follows [await elevenlabs.speak(...)] in the caller. *)
Definition afterSpeak (who : speaker) (s : hook) : hook :=
  match who with
  | Turn => processUserMessage_finally s
  | Greeting => s
  end.

Definition speak (text : jsstring) (who : speaker) (s : hook) : hook :=
  let s := emit (ElevenlabsSpeak text) s in
  if negb speechSynthesis_in_window
  then afterSpeak who (onComplete who s)
  else await (getVoices text who) (speechSynthesis_cancel s).

(** [speak] once the voices are there.  [rejected] stands for an
    exception in the rest of the [try] block, which the [catch] turns
    into [onComplete()]. *)
Definition speak_resume (text : jsstring) (who : speaker) (o : outcome)
    (s : hook) : hook :=
  match o with
  | fulfilled _ =>
      afterSpeak who (setQueue (queue s ++ [who]) (setUtterance (Some text) s))
  | rejected => afterSpeak who (onComplete who s)
  end.

(** [utterance.onend] and [utterance.onerror]. *)
Definition utterance_handler (who : speaker) (s : hook) : hook :=
  onComplete who (setUtterance None s).

(** *** initializeIfNeeded *)

(** Up to its [await]: the promise to wait for, if any. *)
Definition initializeIfNeeded (s : hook) : option nat * hook :=
  if isInitializedRef s then (None, s)
  else match initializationPromiseRef s with
       | Some p => (Some p, s)
       | None =>
           let p := initAttempts s in
           (Some p,
            await (deepgram_initialize p)
              (setInitializationPromiseRef (Some p)
                 (setInitAttempts (S p) s)))
       end.

(** [deepgram.startListening] and the assignment after it, once the
    stream is there. *)
Definition startListening_capture (s : hook) : hook :=
  setIsListeningRef true
    (setDeepgram (DeepgramService.startRecorder (deepgram s)) s).

Definition startListening_catch (s : hook) : hook :=
  setError (Some (lit "Failed to start listening")) s.

(** [startListening] after [await initializeIfNeeded()]. *)
Definition startListening_connected (s : hook) : hook :=
  if isListeningRef s then s
  else if DeepgramService.stream (deepgram s)
       then startListening_capture s
       else await getUserMedia s.

(** The caller of [initializeIfNeeded] goes on. *)
Definition resumeCaller (ok : bool) (s : hook) (k : caller) : hook :=
  match k with
  | MountEffect => s
  | StartListening =>
      if ok then startListening_connected s else startListening_catch s
  end.

Definition awaitInitialization (k : caller) (s : hook) : hook :=
  match initializeIfNeeded s with
  | (None, s') => resumeCaller true s' k
  | (Some p, s') => await (await_initialization p k) s'
  end.

Definition awaits (p : nat) (t : task) : bool :=
  match t with
  | await_initialization q _ => Nat.eqb p q
  | _ => false
  end.

Definition waiter (t : task) : option caller :=
  match t with
  | await_initialization _ k => Some k
  | _ => None
  end.

Fixpoint callers (l : list task) : list caller :=
  match l with
  | [] => []
  | t :: r => match waiter t with
              | Some k => k :: callers r
              | None => callers r
              end
  end.

(** The promise [p] is settled: the calls awaiting it go on, in the
    order in which they began to wait. *)
Definition resumeWaiters (p : nat) (ok : bool) (s : hook) : hook :=
  let ks := callers (filter (awaits p) (pending s)) in
  let s := setPending (filter (fun t => negb (awaits p t)) (pending s)) s in
  fold_left (resumeCaller ok) ks s.

(** The [then] and [catch] reactions on [deepgram.initialize()]. *)
Definition initialize_settled (p : nat) (o : outcome) (s : hook) : hook :=
  match o with
  | fulfilled _ =>
      resumeWaiters p true (setIsConnected true (setIsInitializedRef true s))
  | rejected =>
      resumeWaiters p false
        (setInitializationPromiseRef None
           (setError (Some (lit "Failed to connect to speech services")) s))
  end.

(** *** processUserMessage *)

(** Up to [await openai.getResponse(updatedHistory)].  The await on the
    updater that appends the user entry is passed at once, with the
    history the updater returns. *)
Definition processUserMessage (muted : bool) (message : jsstring)
    (s : hook) : hook :=
  if negb (truthy message) || negb (truthy (trim message)) then s
  else
    let messageKey := messageKey message in
    if processingRef s then s
    else if jseq (lastProcessedMessageRef s) messageKey then s
    else
      let s := setProcessingRef true s in
      let s := setLastProcessedMessageRef messageKey s in
      let s := if onUserMessage callbacks
               then emit (OnUserMessage (trim message)) s else s in
      let userMsg := {| role := user; content := trim message |} in
      let s := setConversationHistory (fun prev => prev ++ [userMsg]) s in
      let updatedHistory := conversationHistory s in
      await (openai_getResponse muted)
        (emit (OpenaiGetResponse updatedHistory) s).

(** The updater that appends the reply. *)
Definition appendResponse (aiResponse : jsstring) (prev : list message)
    : list message :=
  match nth_error prev (List.length prev - 1) with
  | Some lastMessage =>
      if Role_eqb (role lastMessage) assistant
         && jseq (content lastMessage) aiResponse
      then prev
      else prev ++ [{| role := assistant; content := aiResponse |}]
  | None => prev ++ [{| role := assistant; content := aiResponse |}]
  end.

(** [processUserMessage] after [await openai.getResponse(...)]; the
    await on the updater that appends the reply is passed at once. *)
Definition processUserMessage_resume (muted : bool) (o : outcome)
    (s : hook) : hook :=
  match OpenAIService.getResponse o with
  | Some aiResponse =>
      if truthy aiResponse then
        let s := setConversationHistory (appendResponse aiResponse) s in
        let s := emit (OnResponse aiResponse) s in
        if negb muted then speak aiResponse Turn s
        else processUserMessage_finally (onComplete Turn s)
      else processUserMessage_finally (setProcessingRef false s)
  | None =>
      processUserMessage_finally
        (setProcessingRef false
           (setError (Some (lit "Failed to get AI response")) s))
  end.

(** *** Listening, mute, greeting *)

Definition startListening (s : hook) : hook :=
  awaitInitialization StartListening (setError None s).

Definition startListening_resume (o : outcome) (s : hook) : hook :=
  match o with
  | fulfilled _ =>
      startListening_capture
        (setDeepgram (DeepgramService.withStream true (deepgram s)) s)
  | rejected => startListening_catch s
  end.

Definition stopListening (s : hook) : hook :=
  if negb (isListeningRef s) then s
  else await stop_delay
         (setDeepgram (DeepgramService.stopRecorder (deepgram s)) s).

Definition stopListening_resume (s : hook) : hook :=
  setIsListeningRef false s.

Definition muteAudio (s : hook) : hook := cleanup (setIsMuted true s).

Definition unmuteAudio (s : hook) : hook := setIsMuted false s.

Definition greetingMessage : jsstring :=
  lit "Hi " ++ userName callbacks ++ lit ", how are you?".

Definition fallbackPrompt : jsstring :=
  lit "You are a friendly AI companion. The user's name is "
  ++ userName callbacks ++ lit ".".

Definition appendGreeting (prevHistory : list message) : list message :=
  let currentHistory :=
    if 0 <? List.length prevHistory then prevHistory
    else [{| role := system; content := fallbackPrompt |}] in
  currentHistory ++ [{| role := assistant; content := greetingMessage |}].

Definition sendInitialGreeting (muted : bool) (s : hook) : hook :=
  await (greeting_delay muted) s.

Definition sendInitialGreeting_resume (muted : bool) (s : hook) : hook :=
  let s := setConversationHistory appendGreeting s in
  let s := emit (OnResponse greetingMessage) s in
  if negb muted then speak greetingMessage Greeting s
  else onComplete Greeting s.

(** *** Mount *)

(** The state after the first render and its effects: the history
    holds the system prompt and the connection is being made. *)
Definition mount : hook :=
  awaitInitialization MountEffect
    (setConversationHistory
       (fun _ => [{| role := system; content := systemPrompt |}])
       firstRender).

(** ** The event loop *)

(** Calls of the hook's functions by the presentation layer or by the
    transcription callback, with the [isMuted] of the closure that
    runs, and what the environment does: it settles the [i]-th
    suspended call, ends the utterance being spoken, or delivers the
    error event of a cancelled one. *)
Inductive action :=
| call_processUserMessage (muted : bool) (message : jsstring)
| call_startListening
| call_stopListening
| call_muteAudio
| call_unmuteAudio
| call_sendInitialGreeting (muted : bool)
| settle (i : nat) (o : outcome)
| speech_end
| speech_error.

Definition remove_nth {A} (i : nat) (l : list A) : list A :=
  firstn i l ++ skipn (S i) l.

(** A suspended call goes on.  Timers do not fail; a call awaiting the
    cached initialization promise goes on when that promise settles. *)
Definition resume (t : task) (o : outcome) (s : hook) : option hook :=
  match t, o with
  | deepgram_initialize p, _ => Some (initialize_settled p o s)
  | await_initialization _ _, _ => None
  | openai_getResponse muted, _ => Some (processUserMessage_resume muted o s)
  | getVoices text who, _ => Some (speak_resume text who o s)
  | getUserMedia, _ => Some (startListening_resume o s)
  | stop_delay, fulfilled _ => Some (stopListening_resume s)
  | greeting_delay muted, fulfilled _ => Some (sendInitialGreeting_resume muted s)
  | autoStart_delay, fulfilled _ => Some (startListening s)
  | _, rejected => None
  end.

Definition step (a : action) (s : hook) : option hook :=
  match a with
  | call_processUserMessage muted message =>
      Some (processUserMessage muted message s)
  | call_startListening => Some (startListening s)
  | call_stopListening => Some (stopListening s)
  | call_muteAudio => Some (muteAudio s)
  | call_unmuteAudio => Some (unmuteAudio s)
  | call_sendInitialGreeting muted => Some (sendInitialGreeting muted s)
  | settle i o =>
      match nth_error (pending s) i with
      | Some t => resume t o (setPending (remove_nth i (pending s)) s)
      | None => None
      end
  | speech_end =>
      match queue s with
      | who :: q => Some (utterance_handler who (setQueue q s))
      | [] => None
      end
  | speech_error =>
      match cancelled s with
      | who :: c => Some (utterance_handler who (setCancelled c s))
      | [] => None
      end
  end.

Fixpoint run (acts : list action) (s : hook) : option hook :=
  match acts with
  | [] => Some s
  | a :: r => match step a s with
              | Some s' => run r s'
              | None => None
              end
  end.

Definition reachable (s : hook) : Prop :=
  exists acts, run acts mount = Some s.

End useChatService.

(** ** Concrete host for examples: ASCII case folding, a browser with
    speech synthesis. *)

Definition asciiLower (c : N) : N :=
  if ((65 <=? c) && (c <=? 90))%N then (c + 32)%N else c.

Definition asciiRuntime : Runtime :=
  {| toLowerCase := map asciiLower; speechSynthesis_in_window := true |}.

Definition alex : ChatServiceCallbacks :=
  {| userName := lit "Alex"; userGender := lit "male"; onUserMessage := true |}.

Arguments appendResponse : simpl never.
Arguments initialize_settled : simpl never.
Arguments lit : simpl never.
Arguments trim : simpl never.
Arguments jseq : simpl never.

(** ** Measures used by the properties *)

Definition count {A} (f : A -> bool) (l : list A) : nat :=
  List.length (filter f l).

Arguments count {A} f l : simpl never.

(** A suspended call that belongs to a turn of [processUserMessage]. *)
Definition turnTask (t : task) : bool :=
  match t with
  | openai_getResponse _ | getVoices _ Turn => true
  | _ => false
  end.

Definition isTurn (who : speaker) : bool :=
  match who with Turn => true | Greeting => false end.

(** The turns in flight: awaiting the completion (PROCESSING), or with
    their reply on its way to the speech queue, being spoken, or
    cancelled with the completion callback still to run (SPEAKING). *)
Definition inFlight (s : hook) : nat :=
  count turnTask (pending s) + count isTurn (queue s)
  + count isTurn (cancelled s).

(** The suspended calls of the conversation (turns and greeting), as
    opposed to those of the connection and of the capture. *)
Definition conversationTask (t : task) : bool :=
  match t with
  | openai_getResponse _ | getVoices _ _ | greeting_delay _ => true
  | _ => false
  end.

(** The suspended calls around [initializeIfNeeded]. *)
Definition connectionTask (t : task) : bool :=
  match t with
  | deepgram_initialize _ | await_initialization _ _ => true
  | _ => false
  end.

(** [s'] differs from [s] in nothing a turn or the greeting reads or
    writes. *)
Record same_conversation (s s' : hook) : Prop := {
  sc_history : conversationHistory s' = conversationHistory s;
  sc_processing : processingRef s' = processingRef s;
  sc_last : lastProcessedMessageRef s' = lastProcessedMessageRef s;
  sc_queue : queue s' = queue s;
  sc_cancelled : cancelled s' = cancelled s;
  sc_trace : trace s' = trace s;
  sc_pending :
    filter conversationTask (pending s') = filter conversationTask (pending s)
}.

(** [s'] differs from [s] in nothing [initializeIfNeeded] reads or
    writes. *)
Record same_connection (s s' : hook) : Prop := {
  sn_initialized : isInitializedRef s' = isInitializedRef s;
  sn_promise : initializationPromiseRef s' = initializationPromiseRef s;
  sn_attempts : initAttempts s' = initAttempts s;
  sn_connected : isConnected s' = isConnected s;
  sn_pending :
    filter connectionTask (pending s') = filter connectionTask (pending s)
}.

(** The in-flight guard [processingRef] is set exactly while a turn is
    in flight. *)
Definition guard_inv (s : hook) : Prop :=
  inFlight s = if processingRef s then 1 else 0.

Definition isGetResponse (e : event) : bool :=
  match e with OpenaiGetResponse _ => true | _ => false end.

(** How many utterances were processed: the calls of the Completion
    Client. *)
Definition processed (s : hook) : nat := count isGetResponse (trace s).

Definition isSubmission (a : action) : bool :=
  match a with call_processUserMessage _ _ => true | _ => false end.

(** Every submission in [acts] has the key [k]. *)
Definition same_key_only {runtime : Runtime} (k : jsstring)
    (acts : list action) : Prop :=
  Forall (fun a => match a with
                   | call_processUserMessage _ m => messageKey m = k
                   | _ => True
                   end) acts.

(** No submission in [acts]. *)
Definition no_submission (acts : list action) : Prop :=
  Forall (fun a => isSubmission a = false) acts.

(** The history of [s'] is that of [s] with entries appended. *)
Definition extends (s s' : hook) : Prop :=
  exists suffix, conversationHistory s' = conversationHistory s ++ suffix.

(** Nothing was accepted between [s] and [s']. *)
Definition quiet (s s' : hook) : Prop :=
  lastProcessedMessageRef s' = lastProcessedMessageRef s
  /\ processed s' = processed s.

(** The three guards of [processUserMessage]. *)
Definition accepts {runtime : Runtime} (m : jsstring) (s : hook) : bool :=
  truthy (trim m) && negb (processingRef s)
  && negb (jseq (lastProcessedMessageRef s) (messageKey m)).

Definition isNotification (e : event) : bool :=
  match e with
  | OnUserMessage _ | OnResponse _ | OnSpeakingComplete => true
  | _ => false
  end.

(** The notifications to the presentation layer, in order. *)
Definition notifications (s : hook) : list event :=
  filter isNotification (trace s).

(** [prev[prev.length - 1]] *)
Definition lastMessage (prev : list message) : option message :=
  nth_error prev (List.length prev - 1).

(** One turn with nothing in between: the submission, the reply of the
    Completion Client and, when the reply is spoken, the voices and the
    end of the utterance. *)
Definition turn {runtime : Runtime} (s : hook) (muted : bool)
    (message : jsstring) (o : outcome) : list action :=
  let i := List.length (pending s) in
  [call_processUserMessage muted message; settle i o]
  ++ match OpenAIService.getResponse o with
     | Some aiResponse =>
         if truthy aiResponse && negb muted && speechSynthesis_in_window
         then [settle i (fulfilled None); speech_end]
         else []
     | None => []
     end.

Definition isVoices (t : task) : bool :=
  match t with getVoices _ _ => true | _ => false end.

Definition isResponse (e : event) : bool :=
  match e with OnResponse _ => true | _ => false end.

Definition isComplete (e : event) : bool :=
  match e with OnSpeakingComplete => true | _ => false end.

(** The [onComplete] closures still to run: of a [speak] waiting for
    the voices, of a queued utterance, of a cancelled one. *)
Definition outstanding (s : hook) : nat :=
  count isVoices (pending s) + List.length (queue s)
  + List.length (cancelled s).

(** Every response notified has its completion, notified already or
    outstanding, and only one; without speech synthesis in the browser
    none is ever outstanding. *)
Definition completions_inv {runtime : Runtime} (s : hook) : Prop :=
  count isComplete (trace s) + outstanding s = count isResponse (trace s)
  /\ (speechSynthesis_in_window = false -> outstanding s = 0).

(** The pending attempts of [deepgram.initialize()], by promise. *)
Fixpoint attempts (l : list task) : list nat :=
  match l with
  | [] => []
  | deepgram_initialize p :: r => p :: attempts r
  | _ :: r => attempts r
  end.

(** The promises awaited by the suspended callers of
    [initializeIfNeeded]. *)
Fixpoint awaited (l : list task) : list nat :=
  match l with
  | [] => []
  | await_initialization p _ :: r => p :: awaited r
  | _ :: r => awaited r
  end.

(** The connection is made once: at most one attempt is pending, it is
    the one cached in [initializationPromiseRef] and the latest made,
    and every suspended caller awaits it; after a success nothing is
    pending and the cache is kept. *)
Definition connection_inv (s : hook) : Prop :=
  isConnected s = isInitializedRef s
  /\ if isInitializedRef s
     then attempts (pending s) = [] /\ awaited (pending s) = []
          /\ initializationPromiseRef s <> None
     else match initializationPromiseRef s with
          | Some p => attempts (pending s) = [p]
                      /\ Forall (eq p) (awaited (pending s))
                      /\ initAttempts s = S p
          | None => attempts (pending s) = [] /\ awaited (pending s) = []
          end.

(** The recorder is not paused. *)
Definition capturing (s : hook) : Prop :=
  DeepgramService.mediaRecorder (deepgram s) <> Some paused.

(** The state reached from the mount of the example session, for
    concrete runs. *)
Definition after (acts : list (action)) : hook :=
  match run (runtime := asciiRuntime) alex acts (mount alex) with
  | Some s => s
  | None => firstRender
  end.

(** The example session, connected and listening. *)
Definition listening : list action :=
  [settle 0 (fulfilled None); call_startListening; settle 0 (fulfilled None)].

(** ** Further definitions *)

(** Only WhiteSpace and LineTerminator code units, or none. *)
Definition blank (s : jsstring) : bool := forallb isWhiteSpace s.

(** No white space at the start. *)
Definition noLead (s : jsstring) : Prop :=
  match s with
  | [] => True
  | c :: _ => isWhiteSpace c = false
  end.

(** An entry of the history as the hook makes them: the content is not
    empty, and that of a user entry is trimmed. *)
Definition well_formed (e : message) : Prop :=
  truthy (content e) = true
  /\ (role e = user -> trim (content e) = content e).

Definition isMedia (t : task) : bool :=
  match t with getUserMedia => true | _ => false end.

(** [s'] differs from [s] in nothing the capture reads or writes, but
    for a paused recorder that was resumed. *)
Record same_capture (s s' : hook) : Prop := {
  sp_initialized : isInitializedRef s' = isInitializedRef s;
  sp_listening : isListeningRef s' = isListeningRef s;
  sp_stream :
    DeepgramService.stream (deepgram s') = DeepgramService.stream (deepgram s);
  sp_recorder :
    DeepgramService.mediaRecorder (deepgram s')
    = DeepgramService.mediaRecorder (deepgram s)
    \/ (DeepgramService.mediaRecorder (deepgram s) = Some paused
        /\ DeepgramService.mediaRecorder (deepgram s') = Some recording);
  sp_pending : filter isMedia (pending s') = filter isMedia (pending s)
}.

(** Nothing of the capture exists before the connection: no request for
    the microphone, no stream, no recorder, no listening; listening has
    a stream and a recorder; a recorder has a stream. *)
Definition capture_inv (s : hook) : Prop :=
  (isInitializedRef s = true
   \/ (count isMedia (pending s) = 0 /\ isListeningRef s = false
       /\ deepgram s = DeepgramService.new))
  /\ (isListeningRef s = true ->
      DeepgramService.mediaRecorder (deepgram s) <> None)
  /\ (DeepgramService.mediaRecorder (deepgram s) <> None ->
      DeepgramService.stream (deepgram s) = true).

(** The greeting with nothing in between: the call, the 100 ms, and,
    when the greeting is spoken, the voices and the end of the
    utterance. *)
Definition greeting {runtime : Runtime} (s : hook) (muted : bool)
    : list action :=
  let i := List.length (pending s) in
  [call_sendInitialGreeting muted; settle i (fulfilled None)]
  ++ (if negb muted && speechSynthesis_in_window
      then [settle i (fulfilled None); speech_end]
      else []).

(** The steps that begin with [setError(null)]: a call of
    [startListening], by the caller or by the timer of [autoStart]. *)
Definition startsListening {runtime : Runtime} (a : action) (s : hook) : bool :=
  match a with
  | call_startListening => true
  | settle i (fulfilled _) =>
      match nth_error (pending s) i with
      | Some autoStart_delay => true
      | _ => false
      end
  | _ => false
  end.

(** ** The view: VoiceChat *)

(** The state of [VoiceChat] that the callbacks given to the hook write:
    the messages shown and the speaking indicator.  ([transcript] is
    written by [onTranscript] too, which the hook passes on from the
    transcription adapter; it is left out.) *)
Module VoiceChat.

Inductive author := user | ai.

Definition author_eqb (a b : author) : bool :=
  match a, b with
  | user, user | ai, ai => true
  | _, _ => false
  end.

Record entry := { role : author; content : jsstring }.

Record t := { messages : list entry; isSpeaking : bool }.

Definition initial : t := {| messages := []; isSpeaking := false |}.

(** The updater of [setMessages] in [onResponse] (with ['ai']) and in
    [onUserMessage] (with ['user']). *)
Definition addMessage (r : author) (text : jsstring) (prev : list entry)
    : list entry :=
  match nth_error prev (List.length prev - 1) with
  | Some lastMessage =>
      if author_eqb (role lastMessage) r && jseq (content lastMessage) text
      then prev
      else prev ++ [{| role := r; content := text |}]
  | None => prev ++ [{| role := r; content := text |}]
  end.

Definition onResponse (text : jsstring) (v : t) : t :=
  {| messages := addMessage ai text (messages v); isSpeaking := true |}.

Definition onUserMessage (text : jsstring) (v : t) : t :=
  {| messages := addMessage user text (messages v);
     isSpeaking := isSpeaking v |}.

Definition onSpeakingComplete (v : t) : t :=
  {| messages := messages v; isSpeaking := false |}.

(** A notification of the hook runs the callback of the view. *)
Definition notify (v : t) (e : event) : t :=
  match e with
  | OnUserMessage text => onUserMessage text v
  | OnResponse text => onResponse text v
  | OnSpeakingComplete => onSpeakingComplete v
  | _ => v
  end.

(** The view after the notifications of a trace. *)
Definition render (tr : list event) : t := fold_left notify tr initial.

Definition entry_eqb (a b : entry) : bool :=
  author_eqb (role a) (role b) && jseq (content a) (content b).

(** No entry is followed by an equal one. *)
Fixpoint noRepeat (l : list entry) : bool :=
  match l with
  | a :: (b :: _) as r => negb (entry_eqb a b) && noRepeat r
  | _ => true
  end.

End VoiceChat.

Arguments VoiceChat.render : simpl never.

(** While the view shows the speaking indicator, a completion is still
    to come. *)
Definition speaking_inv (s : hook) : Prop :=
  VoiceChat.isSpeaking (VoiceChat.render (trace s)) = true ->
  1 <= outstanding s.

(** ** The application shell: App *)

Module App.

Record UserInfo := { name : jsstring; gender : jsstring }.

Record t := {
  showChat : bool;
  showForm : bool;
  userInfo : option UserInfo
}.

Definition initial : t :=
  {| showChat := false; showForm := false; userInfo := None |}.

Definition handleStartChat (st : t) : t :=
  {| showChat := showChat st; showForm := true; userInfo := userInfo st |}.

(** [name] and [gender] are the values of the form's fields. *)
Definition handleFormSubmit (name gender : jsstring) (st : t) : t :=
  if truthy name && truthy gender
  then {| showChat := true; showForm := false;
          userInfo := Some {| name := trim name; gender := gender |} |}
  else st.

(** The Back button of the form. *)
Definition back (st : t) : t :=
  {| showChat := showChat st; showForm := false; userInfo := userInfo st |}.

(** The [onClose] given to [VoiceChat]. *)
Definition onClose (st : t) : t :=
  {| showChat := false; showForm := showForm st; userInfo := userInfo st |}.

(** What is rendered: the landing page, the form, [VoiceChat] with its
    properties, or nothing ([userInfo && ...] with no [userInfo]). *)
Inductive screen :=
| Landing
| Form
| Chat (userName userGender : jsstring)
| Nothing.

Definition render (st : t) : screen :=
  if negb (showChat st)
  then if negb (showForm st) then Landing else Form
  else match userInfo st with
       | Some u => Chat (name u) (gender u)
       | None => Nothing
       end.

(** The handlers that the rendered screen offers. *)
Inductive action :=
| click_start
| click_back
| submit (name gender : jsstring)
| close.

Definition step (a : action) (st : t) : option t :=
  match a, render st with
  | click_start, Landing => Some (handleStartChat st)
  | click_back, Form => Some (back st)
  | submit name gender, Form => Some (handleFormSubmit name gender st)
  | close, Chat _ _ => Some (onClose st)
  | _, _ => None
  end.

Fixpoint run (acts : list action) (st : t) : option t :=
  match acts with
  | [] => Some st
  | a :: rest =>
      match step a st with
      | Some st' => run rest st'
      | None => None
      end
  end.

(** The options given to [useChatService] by [VoiceChat], which
    registers every callback. *)
Definition callbacksOf (userName userGender : jsstring)
    : ChatServiceCallbacks :=
  {| userName := userName; userGender := userGender; onUserMessage := true |}.

(** The identity, once given, is trimmed and has a gender; the chat
    is shown with an identity and without the form. *)
Definition inv (st : t) : Prop :=
  (showChat st = true -> showForm st = false /\ userInfo st <> None)
  /\ forall u, userInfo st = Some u ->
       trim (name u) = name u /\ truthy (gender u) = true.

End App.

(** ** The transcripts of DeepgramService *)

(** [DeepgramService] with its transcript: the recorder and the stream
    as in [DeepgramService.t], the text accumulated, the two callbacks
    (set or null), the handlers registered on the connection for the
    Transcript event ([connection.on] adds one at each call), and the
    calls made to the callbacks, in order.  The connection is the one
    opened by [initialize], which registers the handler of UtteranceEnd
    once. *)
Module Transcription.

Inductive call :=
| OnTranscript (text : jsstring)
| OnUtteranceEnd (finalTranscript : jsstring).

Record t := {
  device : DeepgramService.t;
  currentTranscript : jsstring;
  onTranscriptCallback : bool;
  onUtteranceEndCallback : bool;
  transcriptHandlers : nat;
  calls : list call
}.

Definition new : t :=
  {| device := DeepgramService.new; currentTranscript := [];
     onTranscriptCallback := false; onUtteranceEndCallback := false;
     transcriptHandlers := 0; calls := [] |}.

Definition setDevice (x : DeepgramService.t) (d : t) : t :=
  {| device := x; currentTranscript := currentTranscript d;
     onTranscriptCallback := onTranscriptCallback d;
     onUtteranceEndCallback := onUtteranceEndCallback d;
     transcriptHandlers := transcriptHandlers d; calls := calls d |}.

Definition setCurrentTranscript (x : jsstring) (d : t) : t :=
  {| device := device d; currentTranscript := x;
     onTranscriptCallback := onTranscriptCallback d;
     onUtteranceEndCallback := onUtteranceEndCallback d;
     transcriptHandlers := transcriptHandlers d; calls := calls d |}.

Definition setCallbacks (onTranscript onUtteranceEnd : bool) (d : t) : t :=
  {| device := device d; currentTranscript := currentTranscript d;
     onTranscriptCallback := onTranscript;
     onUtteranceEndCallback := onUtteranceEnd;
     transcriptHandlers := transcriptHandlers d; calls := calls d |}.

Definition addHandler (d : t) : t :=
  {| device := device d; currentTranscript := currentTranscript d;
     onTranscriptCallback := onTranscriptCallback d;
     onUtteranceEndCallback := onUtteranceEndCallback d;
     transcriptHandlers := S (transcriptHandlers d); calls := calls d |}.

Definition emit (c : call) (d : t) : t :=
  {| device := device d; currentTranscript := currentTranscript d;
     onTranscriptCallback := onTranscriptCallback d;
     onUtteranceEndCallback := onUtteranceEndCallback d;
     transcriptHandlers := transcriptHandlers d; calls := calls d ++ [c] |}.

(** The handler of UtteranceEnd. *)
Definition utteranceEnd (d : t) : t :=
  if truthy (currentTranscript d) && truthy (trim (currentTranscript d))
     && onUtteranceEndCallback d
  then
    let finalTranscript := trim (currentTranscript d) in
    emit (OnUtteranceEnd finalTranscript) (setCurrentTranscript [] d)
  else d.

(** [startListening] from the stream on: a recording recorder is kept;
    otherwise a recorder is made and started, and one more handler is
    registered for the Transcript event. *)
Definition startListening_capture (d : t) : t :=
  match DeepgramService.mediaRecorder (device d) with
  | Some recording => d
  | _ => addHandler (setDevice (DeepgramService.startRecorder (device d)) d)
  end.

(** [startListening] up to its [await], which is there only without a
    stream; the hook gives both callbacks. *)
Definition startListening (d : t) : t :=
  let d := setCallbacks true true (setCurrentTranscript [] d) in
  if DeepgramService.stream (device d) then startListening_capture d else d.

(** The answer to [getUserMedia]; a denial leaves the rest undone. *)
Definition startListening_resume (granted : bool) (d : t) : t :=
  if granted
  then startListening_capture
         (setDevice (DeepgramService.withStream true (device d)) d)
  else d.

(** One handler of the Transcript event. *)
Definition transcriptHandler (transcript : jsstring) (is_final : bool)
    (d : t) : t :=
  if truthy transcript && negb (jseq (trim transcript) [])
  then
    if is_final
    then
      let d :=
        setCurrentTranscript
          (currentTranscript d
           ++ (if truthy (currentTranscript d) then lit " " else [])
           ++ transcript) d in
      if onTranscriptCallback d
      then emit (OnTranscript (currentTranscript d)) d
      else d
    else d
  else d.

(** A Transcript event runs every registered handler. *)
Definition transcriptEvent (transcript : jsstring) (is_final : bool)
    (d : t) : t :=
  Nat.iter (transcriptHandlers d) (transcriptHandler transcript is_final) d.

Definition stopListening (d : t) : t :=
  setDevice (DeepgramService.stopRecorder (device d)) d.

(** [stopListening] after its 500 ms: the text returned and the state. *)
Definition stopListening_resume (d : t) : jsstring * t :=
  (currentTranscript d, setCurrentTranscript [] d).

(** The calls of the hook, the answer to [getUserMedia] and the events
    of the connection.  An answer is taken whether or not a request is
    pending, and events in any state: the runs of the code are among
    those of the model. *)
Inductive action :=
| start
| answer (granted : bool)
| transcript (text : jsstring) (is_final : bool)
| utterance_end
| stop
| stopped.

Definition step (d : t) (a : action) : t :=
  match a with
  | start => startListening d
  | answer granted => startListening_resume granted d
  | transcript text is_final => transcriptEvent text is_final d
  | utterance_end => utteranceEnd d
  | stop => stopListening d
  | stopped => snd (stopListening_resume d)
  end.

Definition run (acts : list action) (d : t) : t := fold_left step acts d.

(** [cs.join(' ')] *)
Fixpoint join (cs : list jsstring) : jsstring :=
  match cs with
  | [] => []
  | [c] => c
  | c :: r => c ++ lit " " ++ join r
  end.

(** The text of the Transcript events that count: the final ones that
    are not blank. *)
Definition heard (evs : list (jsstring * bool)) : list jsstring :=
  map fst (filter (fun e => snd e && negb (blank (fst e))) evs).

Definition hear (evs : list (jsstring * bool)) (d : t) : t :=
  fold_left (fun d e => transcriptEvent (fst e) (snd e) d) evs d.

(** The text after one more final transcript. *)
Definition extend (t c : jsstring) : jsstring :=
  t ++ (if truthy t then lit " " else []) ++ c.

(** Stopping and starting again, [n] times. *)
Fixpoint restarts (n : nat) : list action :=
  match n with
  | 0 => []
  | S n => stop :: stopped :: start :: restarts n
  end.

End Transcription.

(** ** The choice of the voice in ElevenLabsService.speak *)

Module ElevenLabsService.

Record SpeechSynthesisVoice := {
  name : jsstring;
  lang : jsstring;
  localService : bool
}.

(** [s.startsWith(searchString)] *)
Fixpoint startsWith (s searchString : jsstring) : bool :=
  match searchString, s with
  | [], _ => true
  | _ :: _, [] => false
  | a :: p, b :: r => (a =? b)%N && startsWith r p
  end.

(** [s.includes(searchString)] *)
Fixpoint includes (s searchString : jsstring) : bool :=
  startsWith s searchString
  || match s with
     | [] => false
     | _ :: r => includes r searchString
     end.

(** The predicate of the first [find]. *)
Definition natural (voice : SpeechSynthesisVoice) : bool :=
  includes (lang voice) (lit "en")
  && (includes (name voice) (lit "Natural")
      || includes (name voice) (lit "Premium")
      || includes (name voice) (lit "Enhanced")
      || negb (localService voice)).

Definition preferredVoice (voices : list SpeechSynthesisVoice)
    : option SpeechSynthesisVoice :=
  match find natural voices with
  | Some voice => Some voice
  | None => find (fun voice => startsWith (lang voice) (lit "en")) voices
  end.

End ElevenLabsService.

(** What the environment does, as opposed to the calls of the hook's
    functions. *)
Definition isEnvironment (a : action) : bool :=
  match a with
  | settle _ _ | speech_end | speech_error => true
  | _ => false
  end.

(** A call of [startListening] suspended in [initializeIfNeeded]. *)
Definition startWaiter (t : task) : bool :=
  match t with
  | await_initialization _ StartListening => true
  | _ => false
  end.

Definition isStartListening (k : caller) : bool :=
  match k with StartListening => true | MountEffect => false end.

(** The histories sent to the Completion Client, in order. *)
Definition requests (tr : list event) : list (list message) :=
  flat_map (fun e => match e with OpenaiGetResponse h => [h] | _ => [] end) tr.

Arguments requests : simpl never.

(** The text of the last [onUserMessage] notification. *)
Definition lastUserMessage (tr : list event) : option jsstring :=
  fold_left
    (fun last e => match e with OnUserMessage text => Some text | _ => last end)
    tr None.

Arguments lastUserMessage : simpl never.

(** The key kept in [lastProcessedMessageRef] is the key of the last
    message notified with [onUserMessage]. *)
Definition key_inv {runtime : Runtime} (s : hook) : Prop :=
  lastProcessedMessageRef s
  = match lastUserMessage (trace s) with
    | Some text => messageKey text
    | None => []
    end.

(** The callback for the end of an utterance that the hook's
    [startListening] gives to [deepgram.startListening]
    (part_001:185-190).  It calls the [processUserMessage] of the render
    whose [startListening] was called, which closes over the [isMuted]
    of that render: [registered] is the hook state at that render.  The
    adapter keeps the callback until the next [deepgram.startListening],
    whatever is rendered in between. *)
Definition onUtteranceEnd (registered : hook) (finalTranscript : jsstring)
    : list action :=
  if truthy finalTranscript && truthy (trim finalTranscript)
  then [call_processUserMessage (isMuted registered) finalTranscript]
  else [].

(** [ElevenlabsSpeak] events of a trace. *)
Definition isSpeak (e : event) : bool :=
  match e with ElevenlabsSpeak _ => true | _ => false end.

Ltac splits := repeat match goal with |- _ /\ _ => split end.

Ltac hook_unfold :=
  repeat progress unfold processUserMessage, processUserMessage_resume, speak, speak_resume,
    afterSpeak, processUserMessage_finally, utterance_handler, onComplete,
    autoStart, muteAudio, unmuteAudio, cleanup, speechSynthesis_cancel,
    sendInitialGreeting, sendInitialGreeting_resume,
    startListening, startListening_resume, stopListening,
    stopListening_resume, awaitInitialization, initializeIfNeeded,
    resumeCaller, startListening_connected, startListening_capture,
    startListening_catch, await, emit in *.

Ltac split_ifs :=
  cbn;
  repeat (match goal with
          | |- context [match ?x with _ => _ end] =>
              lazymatch x with
              | context [match _ with _ => _ end] => fail
              | _ => destruct x eqn:?
              end
          end; cbn).

Ltac frame :=
  constructor; cbn; rewrite ?filter_app; cbn; rewrite ?app_nil_r; reflexivity.


Section Properties.

Context {runtime : Runtime}.
Variable callbacks : ChatServiceCallbacks.


(** *** Lists *)

Lemma count_app {A} (f : A -> bool) l1 l2 :
  count f (l1 ++ l2) = count f l1 + count f l2.
Proof. unfold count. now rewrite filter_app, length_app. Qed.

Lemma count_cons {A} (f : A -> bool) x l :
  count f (x :: l) = (if f x then 1 else 0) + count f l.
Proof. unfold count. cbn. now destruct (f x). Qed.

Lemma count_nil {A} (f : A -> bool) : count f [] = 0.
Proof. reflexivity. Qed.

Lemma count_remove_nth {A} (f : A -> bool) i l t :
  nth_error l i = Some t ->
  count f l = (if f t then 1 else 0) + count f (remove_nth i l).
Proof.
  revert i; induction l as [|x l IH]; intros [|i] H; try discriminate.
  - injection H as ->. now rewrite count_cons.
  - cbn in H. specialize (IH i H). unfold remove_nth in *.
    change (firstn (S i) (x :: l) ++ skipn (S (S i)) (x :: l))
      with (x :: (firstn i l ++ skipn (S i) l)).
    rewrite !count_cons, IH. lia.
Qed.

Lemma count_filter_same {A} (f g : A -> bool) l :
  (forall x, f x = true -> g x = true) ->
  count f (filter g l) = count f l.
Proof.
  intros H; induction l as [|x l IH]; [reflexivity|].
  cbn [filter]. destruct (g x) eqn:G; rewrite !count_cons, ?IH; [reflexivity|].
  destruct (f x) eqn:F; [|reflexivity]. apply H in F. congruence.
Qed.

(** *** Runs *)

Lemma run_app acts1 acts2 s :
  run callbacks (acts1 ++ acts2) s =
  match run callbacks acts1 s with
  | Some s' => run callbacks acts2 s'
  | None => None
  end.
Proof.
  revert s; induction acts1 as [|a r IH]; intros s; [reflexivity|].
  cbn. destruct (step callbacks a s); [apply IH | reflexivity].
Qed.

Lemma reachable_mount : reachable callbacks (mount callbacks).
Proof. now exists []. Qed.

Lemma reachable_step a s s' :
  reachable callbacks s -> step callbacks a s = Some s' ->
  reachable callbacks s'.
Proof.
  intros [acts H] Hs. exists (acts ++ [a]).
  rewrite run_app, H. cbn. now rewrite Hs.
Qed.

Lemma reachable_run acts s s' :
  reachable callbacks s -> run callbacks acts s = Some s' ->
  reachable callbacks s'.
Proof.
  intros [acts0 H] Hs. exists (acts0 ++ acts). now rewrite run_app, H.
Qed.

(** Induction over the reachable states. *)
Lemma reachable_ind (P : hook -> Prop) :
  P (mount callbacks) ->
  (forall a s s',
      reachable callbacks s -> P s -> step callbacks a s = Some s' -> P s') ->
  forall s, reachable callbacks s -> P s.
Proof.
  intros H0 HS s [acts H]. revert s H.
  induction acts as [|a acts IH] using rev_ind; intros s H.
  - injection H as <-. exact H0.
  - rewrite run_app in H.
    destruct (run callbacks acts _) as [s1|] eqn:E; [|discriminate].
    cbn in H. destruct (step callbacks a s1) eqn:Es; [|discriminate].
    injection H as <-.
    eapply HS; [exists acts; exact E | now apply IH | exact Es].
Qed.

(** [P] survives the resumption of the waiting callers. *)
Lemma fold_resumeCaller_inv (P : hook -> Prop) ok ks s :
  (forall s k, P s -> P (resumeCaller ok s k)) ->
  P s -> P (fold_left (resumeCaller ok) ks s).
Proof.
  intros H; revert s; induction ks as [|k ks IH]; intros s Hs; [exact Hs|].
  cbn. apply IH, H, Hs.
Qed.

(** *** The two halves of the hook do not disturb each other *)

Lemma same_conversation_refl s : same_conversation s s.
Proof. now constructor. Qed.

Lemma same_conversation_trans s1 s2 s3 :
  same_conversation s1 s2 -> same_conversation s2 s3 -> same_conversation s1 s3.
Proof. intros [] []; constructor; congruence. Qed.

Lemma same_connection_refl s : same_connection s s.
Proof. now constructor. Qed.

Lemma same_connection_trans s1 s2 s3 :
  same_connection s1 s2 -> same_connection s2 s3 -> same_connection s1 s3.
Proof. intros [] []; constructor; congruence. Qed.

Lemma filter_filter_same {A} (f g : A -> bool) l :
  (forall x, f x = true -> g x = true) ->
  filter f (filter g l) = filter f l.
Proof.
  intros H; induction l as [|x l IH]; [reflexivity|].
  cbn [filter]. destruct (g x) eqn:G; cbn [filter]; rewrite IH; [reflexivity|].
  destruct (f x) eqn:F; [|reflexivity]. apply H in F. congruence.
Qed.

Lemma filter_remove_nth {A} (f : A -> bool) i l t :
  nth_error l i = Some t -> f t = false ->
  filter f (remove_nth i l) = filter f l.
Proof.
  revert i; induction l as [|x l IH]; intros [|i] H F; try discriminate.
  - injection H as ->. unfold remove_nth. cbn. now rewrite F.
  - cbn in H. specialize (IH i H F). unfold remove_nth in *.
    change (firstn (S i) (x :: l) ++ skipn (S (S i)) (x :: l))
      with (x :: (firstn i l ++ skipn (S i) l)).
    cbn [filter]. now rewrite IH.
Qed.

Lemma resumeCaller_conversation ok s k :
  same_conversation s (resumeCaller ok s k).
Proof. hook_unfold; split_ifs; frame. Qed.

Lemma resumeWaiters_conversation p ok s :
  same_conversation s (resumeWaiters p ok s).
Proof.
  unfold resumeWaiters. apply fold_resumeCaller_inv.
  - intros s1 k H. eapply same_conversation_trans;
      [exact H | apply resumeCaller_conversation].
  - constructor; cbn; try reflexivity.
    apply filter_filter_same. now intros [].
Qed.

Lemma initialize_settled_conversation p o s :
  same_conversation s (initialize_settled p o s).
Proof.
  unfold initialize_settled. destruct o;
    (eapply same_conversation_trans; [|apply resumeWaiters_conversation]);
    now constructor.
Qed.

Lemma startListening_conversation s : same_conversation s (startListening s).
Proof. hook_unfold; split_ifs; frame. Qed.

Lemma startListening_resume_conversation o s :
  same_conversation s (startListening_resume o s).
Proof. hook_unfold; split_ifs; frame. Qed.

Lemma stopListening_conversation s : same_conversation s (stopListening s).
Proof. hook_unfold; split_ifs; frame. Qed.

Lemma stopListening_resume_conversation s :
  same_conversation s (stopListening_resume s).
Proof. hook_unfold; split_ifs; frame. Qed.

Lemma processUserMessage_connection muted m s :
  same_connection s (processUserMessage callbacks muted m s).
Proof. hook_unfold; split_ifs; frame. Qed.

Lemma processUserMessage_resume_connection muted o s :
  same_connection s (processUserMessage_resume muted o s).
Proof. hook_unfold; split_ifs; frame. Qed.

Lemma speak_resume_connection text who o s :
  same_connection s (speak_resume text who o s).
Proof. hook_unfold; split_ifs; frame. Qed.

Lemma utterance_handler_connection who s :
  same_connection s (utterance_handler who s).
Proof. hook_unfold; split_ifs; frame. Qed.

Lemma muteAudio_connection s : same_connection s (muteAudio s).
Proof. hook_unfold; split_ifs; frame. Qed.

Lemma sendInitialGreeting_resume_connection muted s :
  same_connection s (sendInitialGreeting_resume callbacks muted s).
Proof. hook_unfold; split_ifs; frame. Qed.

(** *** One turn at a time *)

Lemma count_filter_sub {A} (f g : A -> bool) l l' :
  (forall x, f x = true -> g x = true) ->
  filter g l' = filter g l -> count f l' = count f l.
Proof.
  intros H E. rewrite <- (count_filter_same f g l H),
    <- (count_filter_same f g l' H). now rewrite E.
Qed.

Lemma inFlight_same s s' : same_conversation s s' -> inFlight s' = inFlight s.
Proof.
  intros []. unfold inFlight. rewrite sc_queue0, sc_cancelled0.
  f_equal. f_equal. eapply count_filter_sub; [|eassumption].
  now intros [| | |? []| | | |].
Qed.

Lemma guard_same s s' : same_conversation s s' -> guard_inv s -> guard_inv s'.
Proof.
  intros H G. unfold guard_inv. rewrite (inFlight_same H).
  destruct H. now rewrite sc_processing0.
Qed.

Ltac use_eqns :=
  repeat match goal with
    | H : ?x = _, G : context [?x] |- _ =>
        lazymatch type of G with
        | x = _ => fail
        | _ => rewrite H in G
        end
    end.

Ltac guard_solve :=
  unfold guard_inv, inFlight in *; hook_unfold; split_ifs;
  rewrite ?count_app, ?count_cons, ?count_nil in *; cbn in *; use_eqns;
  try lia; try congruence.

Lemma guard_processUserMessage muted m s :
  guard_inv s -> guard_inv (processUserMessage callbacks muted m s).
Proof. intros G. guard_solve. Qed.

Lemma guard_processUserMessage_resume muted o s :
  inFlight s = 0 -> processingRef s = true ->
  guard_inv (processUserMessage_resume muted o s).
Proof. intros G P. guard_solve. Qed.

Lemma guard_speak_resume_turn text o s :
  inFlight s = 0 -> processingRef s = true ->
  guard_inv (speak_resume text Turn o s).
Proof. intros G P. guard_solve. Qed.

Lemma guard_speak_resume_greeting text o s :
  guard_inv s -> guard_inv (speak_resume text Greeting o s).
Proof. intros G. guard_solve. Qed.

Lemma guard_utterance_handler_turn s :
  inFlight s = 0 -> processingRef s = true ->
  guard_inv (utterance_handler Turn s).
Proof. intros G P. guard_solve. Qed.

Lemma guard_utterance_handler_greeting s :
  guard_inv s -> guard_inv (utterance_handler Greeting s).
Proof. intros G. guard_solve. Qed.

Lemma guard_muteAudio s : guard_inv s -> guard_inv (muteAudio s).
Proof. intros G. guard_solve. Qed.

Lemma guard_sendInitialGreeting_resume muted s :
  guard_inv s -> guard_inv (sendInitialGreeting_resume callbacks muted s).
Proof. intros G. guard_solve. Qed.

Lemma inFlight_remove i s t :
  nth_error (pending s) i = Some t ->
  inFlight s =
  (if turnTask t then 1 else 0)
  + inFlight (setPending (remove_nth i (pending s)) s).
Proof.
  intros E. unfold inFlight. cbn.
  rewrite (count_remove_nth turnTask _ _ E). lia.
Qed.

Lemma guard_step a s s' :
  guard_inv s -> step callbacks a s = Some s' -> guard_inv s'.
Proof.
  intros G H. destruct a; cbn [step] in H.
  - injection H as <-. now apply guard_processUserMessage.
  - injection H as <-. eapply guard_same; [apply startListening_conversation|exact G].
  - injection H as <-. eapply guard_same; [apply stopListening_conversation|exact G].
  - injection H as <-. now apply guard_muteAudio.
  - injection H as <-. exact G.
  - injection H as <-. guard_solve.
  - destruct (nth_error (pending s) i) as [t|] eqn:E; [|discriminate].
    pose proof (inFlight_remove _ _ E) as R.
    set (s1 := setPending (remove_nth i (pending s)) s) in *.
    assert (P : processingRef s1 = processingRef s) by reflexivity.
    unfold guard_inv in G. rewrite R, <- P in G. clearbody s1.
    destruct t as [p|p k|muted|text [|]| | |muted|];
      cbn [resume turnTask] in H, G; try discriminate.
    + injection H as <-.
      eapply guard_same; [apply initialize_settled_conversation|exact G].
    + injection H as <-. destruct (processingRef s1) eqn:Q; [|lia].
      apply guard_processUserMessage_resume; [lia|exact Q].
    + injection H as <-. destruct (processingRef s1) eqn:Q; [|lia].
      apply guard_speak_resume_turn; [lia|exact Q].
    + injection H as <-. now apply guard_speak_resume_greeting.
    + injection H as <-.
      eapply guard_same; [apply startListening_resume_conversation|exact G].
    + destruct o; [|discriminate]. injection H as <-.
      eapply guard_same; [apply stopListening_resume_conversation|exact G].
    + destruct o; [|discriminate]. injection H as <-.
      now apply guard_sendInitialGreeting_resume.
    + destruct o; [|discriminate]. injection H as <-.
      eapply guard_same; [apply startListening_conversation|exact G].
  - destruct (queue s) as [|who q] eqn:E; [discriminate|]. injection H as <-.
    assert (R : inFlight s = (if isTurn who then 1 else 0) + inFlight (setQueue q s)).
    { unfold inFlight; cbn. rewrite E, count_cons. lia. }
    unfold guard_inv in G. rewrite R in G.
    change (processingRef s) with (processingRef (setQueue q s)) in G.
    destruct who; cbn [isTurn] in G.
    + destruct (processingRef (setQueue q s)) eqn:Q; [|lia].
      apply guard_utterance_handler_turn; [lia|exact Q].
    + now apply guard_utterance_handler_greeting.
  - destruct (cancelled s) as [|who c] eqn:E; [discriminate|]. injection H as <-.
    assert (R : inFlight s = (if isTurn who then 1 else 0) + inFlight (setCancelled c s)).
    { unfold inFlight; cbn. rewrite E, count_cons. lia. }
    unfold guard_inv in G. rewrite R in G.
    change (processingRef s) with (processingRef (setCancelled c s)) in G.
    destruct who; cbn [isTurn] in G.
    + destruct (processingRef (setCancelled c s)) eqn:Q; [|lia].
      apply guard_utterance_handler_turn; [lia|exact Q].
    + now apply guard_utterance_handler_greeting.
Qed.

Lemma guard_mount : guard_inv (mount callbacks).
Proof. reflexivity. Qed.

Lemma guard_reachable s : reachable callbacks s -> guard_inv s.
Proof.
  apply reachable_ind; [apply guard_mount|].
  intros a s0 s' _. apply guard_step.
Qed.

(** C1.  In every state the hook can reach, at most one turn is in
    flight (awaiting its completion, or with its reply on the way to or
    in the speech queue); the guard [processingRef] is set exactly then;
    and a [processUserMessage] call that arrives then returns at once:
    the whole state, hence the history, the duplicate key and the trace
    of notifications, is unchanged. *)
Theorem at_most_one_turn_in_flight s muted message :
  reachable callbacks s ->
  inFlight s <= 1 /\
  (processingRef s = true <-> inFlight s = 1) /\
  (inFlight s = 1 ->
   step callbacks (call_processUserMessage muted message) s = Some s).
Proof.
  intros R. pose proof (guard_reachable R) as G. unfold guard_inv in G.
  destruct (processingRef s) eqn:P; rewrite G.
  - repeat split; auto. intros _. cbn [step]. f_equal.
    unfold processUserMessage. rewrite P.
    now destruct (negb (truthy message) || negb (truthy (trim message))).
  - repeat split; auto; discriminate.
Qed.

(** *** The history only grows *)

Lemma extends_refl s : extends s s.
Proof. exists []. now rewrite app_nil_r. Qed.

Lemma extends_trans s1 s2 s3 : extends s1 s2 -> extends s2 s3 -> extends s1 s3.
Proof.
  intros [x H1] [y H2]. exists (x ++ y). now rewrite H2, H1, app_assoc.
Qed.

Lemma extends_same s s' : same_conversation s s' -> extends s s'.
Proof. intros []. exists []. now rewrite app_nil_r. Qed.

Lemma appendResponse_extends r l : exists suffix, appendResponse r l = l ++ suffix.
Proof.
  unfold appendResponse. destruct (nth_error l (List.length l - 1)) as [m|].
  - destruct (Role_eqb (role m) assistant && jseq (content m) r).
    + exists []. now rewrite app_nil_r.
    + now eexists.
  - now eexists.
Qed.

Lemma appendGreeting_extends l :
  exists suffix, appendGreeting callbacks l = l ++ suffix.
Proof. unfold appendGreeting. destruct l; now eexists. Qed.

Ltac extends_solve :=
  unfold extends; hook_unfold; split_ifs;
  first [ now (exists []; rewrite app_nil_r) | now eexists ].

Lemma extends_processUserMessage muted m s :
  extends s (processUserMessage callbacks muted m s).
Proof. extends_solve. Qed.

Lemma extends_processUserMessage_resume muted o s :
  extends s (processUserMessage_resume muted o s).
Proof.
  unfold processUserMessage_resume.
  destruct (OpenAIService.getResponse o) as [r|]; [|extends_solve].
  destruct (truthy r); [|extends_solve].
  destruct (appendResponse_extends r (conversationHistory s)) as [x Hx].
  exists x. rewrite <- Hx. hook_unfold. now split_ifs.
Qed.

Lemma extends_speak_resume text who o s : extends s (speak_resume text who o s).
Proof. extends_solve. Qed.

Lemma extends_utterance_handler who s : extends s (utterance_handler who s).
Proof. extends_solve. Qed.

Lemma extends_muteAudio s : extends s (muteAudio s).
Proof. extends_solve. Qed.

Lemma extends_sendInitialGreeting_resume muted s :
  extends s (sendInitialGreeting_resume callbacks muted s).
Proof.
  destruct (appendGreeting_extends (conversationHistory s)) as [x Hx].
  exists x. rewrite <- Hx. hook_unfold. now split_ifs.
Qed.

Lemma extends_step a s s' : step callbacks a s = Some s' -> extends s s'.
Proof.
  intros H. destruct a; cbn [step] in H.
  - injection H as <-. apply extends_processUserMessage.
  - injection H as <-. apply extends_same, startListening_conversation.
  - injection H as <-. apply extends_same, stopListening_conversation.
  - injection H as <-. apply extends_muteAudio.
  - injection H as <-. extends_solve.
  - injection H as <-. extends_solve.
  - destruct (nth_error (pending s) i) as [t|] eqn:E; [|discriminate].
    apply extends_trans with (setPending (remove_nth i (pending s)) s);
      [exists []; cbn; now rewrite app_nil_r|].
    destruct t; cbn [resume] in H; try discriminate;
      try (destruct o; [|discriminate]); injection H as <-.
    + apply extends_same, initialize_settled_conversation.
    + apply extends_processUserMessage_resume.
    + apply extends_speak_resume.
    + apply extends_same, startListening_resume_conversation.
    + apply extends_same, stopListening_resume_conversation.
    + apply extends_sendInitialGreeting_resume.
    + apply extends_same, startListening_conversation.
  - destruct (queue s) as [|who q]; [discriminate|]. injection H as <-.
    apply (extends_utterance_handler who (setQueue q s)).
  - destruct (cancelled s) as [|who c]; [discriminate|]. injection H as <-.
    apply (extends_utterance_handler who (setCancelled c s)).
Qed.

Lemma extends_run acts s s' : run callbacks acts s = Some s' -> extends s s'.
Proof.
  revert s; induction acts as [|a acts IH]; intros s H; cbn in H.
  - injection H as <-. apply extends_refl.
  - destruct (step callbacks a s) as [s1|] eqn:E; [|discriminate].
    eapply extends_trans; [eapply extends_step; exact E | now apply IH].
Qed.

(** *** The duplicate key *)

Lemma quiet_refl s : quiet s s.
Proof. now split. Qed.

Lemma quiet_trans s1 s2 s3 : quiet s1 s2 -> quiet s2 s3 -> quiet s1 s3.
Proof. intros [] []; split; congruence. Qed.

Lemma quiet_same s s' : same_conversation s s' -> quiet s s'.
Proof. intros []. split; [assumption|]. unfold processed. congruence. Qed.

Ltac quiet_solve :=
  unfold quiet, processed; hook_unfold; split_ifs;
  rewrite ?count_app, ?count_cons, ?count_nil; cbn; split;
  try reflexivity; lia.

Lemma quiet_processUserMessage_resume muted o s :
  quiet s (processUserMessage_resume muted o s).
Proof. quiet_solve. Qed.

Lemma quiet_speak_resume text who o s : quiet s (speak_resume text who o s).
Proof. quiet_solve. Qed.

Lemma quiet_utterance_handler who s : quiet s (utterance_handler who s).
Proof. quiet_solve. Qed.

Lemma quiet_muteAudio s : quiet s (muteAudio s).
Proof. quiet_solve. Qed.

Lemma quiet_sendInitialGreeting_resume muted s :
  quiet s (sendInitialGreeting_resume callbacks muted s).
Proof. quiet_solve. Qed.

Lemma quiet_step a s s' :
  isSubmission a = false -> step callbacks a s = Some s' -> quiet s s'.
Proof.
  intros N H. destruct a; try discriminate; cbn [step] in H.
  - injection H as <-. apply quiet_same, startListening_conversation.
  - injection H as <-. apply quiet_same, stopListening_conversation.
  - injection H as <-. apply quiet_muteAudio.
  - injection H as <-. quiet_solve.
  - injection H as <-. quiet_solve.
  - destruct (nth_error (pending s) i) as [t|] eqn:E; [|discriminate].
    apply quiet_trans with (setPending (remove_nth i (pending s)) s);
      [now split|].
    destruct t; cbn [resume] in H; try discriminate;
      try (destruct o; [|discriminate]); injection H as <-.
    + apply quiet_same, initialize_settled_conversation.
    + apply quiet_processUserMessage_resume.
    + apply quiet_speak_resume.
    + apply quiet_same, startListening_resume_conversation.
    + apply quiet_same, stopListening_resume_conversation.
    + apply quiet_sendInitialGreeting_resume.
    + apply quiet_same, startListening_conversation.
  - destruct (queue s) as [|who q]; [discriminate|]. injection H as <-.
    apply (quiet_utterance_handler who (setQueue q s)).
  - destruct (cancelled s) as [|who c]; [discriminate|]. injection H as <-.
    apply (quiet_utterance_handler who (setCancelled c s)).
Qed.

Lemma jseq_true a b : jseq a b = true <-> a = b.
Proof. unfold jseq. destruct (list_eq_dec N.eq_dec a b); intuition congruence. Qed.

Lemma jseq_false a b : jseq a b = false <-> a <> b.
Proof. unfold jseq. destruct (list_eq_dec N.eq_dec a b); intuition congruence. Qed.

Lemma jseq_refl a : jseq a a = true.
Proof. now apply jseq_true. Qed.

Lemma truthy_trim m : truthy (trim m) = true -> truthy m = true.
Proof. now destruct m. Qed.

(** A submission whose key is the last accepted one changes nothing. *)
Lemma processUserMessage_duplicate muted m s :
  lastProcessedMessageRef s = messageKey m ->
  processUserMessage callbacks muted m s = s.
Proof.
  intros H. unfold processUserMessage. rewrite H, jseq_refl.
  destruct (negb (truthy m) || negb (truthy (trim m))); [reflexivity|].
  now destruct (processingRef s).
Qed.

Lemma processUserMessage_rejected muted m s :
  accepts m s = false -> processUserMessage callbacks muted m s = s.
Proof.
  unfold accepts, processUserMessage. intros H.
  destruct (truthy (trim m)) eqn:T.
  - rewrite (truthy_trim _ T). cbn in *.
    destruct (processingRef s); [reflexivity|]. cbn in H.
    destruct (jseq _ _); [reflexivity|discriminate].
  - cbn. now rewrite orb_true_r.
Qed.

(** What an accepted submission does. *)
Lemma processUserMessage_accepted muted m s :
  accepts m s = true ->
  let s' := processUserMessage callbacks muted m s in
  conversationHistory s' =
    conversationHistory s ++ [{| role := user; content := trim m |}]
  /\ trace s' =
       trace s
       ++ (if onUserMessage callbacks then [OnUserMessage (trim m)] else [])
       ++ [OpenaiGetResponse
             (conversationHistory s ++ [{| role := user; content := trim m |}])]
  /\ pending s' = pending s ++ [openai_getResponse muted]
  /\ processingRef s' = true
  /\ lastProcessedMessageRef s' = messageKey m
  /\ isListeningRef s' = isListeningRef s
  /\ deepgram s' = deepgram s
  /\ queue s' = queue s /\ cancelled s' = cancelled s
  /\ error s' = error s /\ isMuted s' = isMuted s.
Proof.
  unfold accepts. intros H.
  apply andb_prop in H as [H J]. apply andb_prop in H as [T P].
  apply negb_true_iff in P, J.
  unfold processUserMessage. rewrite (truthy_trim _ T), T, P, J. cbn.
  destruct (onUserMessage callbacks); cbn;
    rewrite <- ?app_assoc; repeat split; reflexivity.
Qed.

Lemma processed_accepted muted m s :
  accepts m s = true ->
  processed (processUserMessage callbacks muted m s) = S (processed s).
Proof.
  intros H. destruct (processUserMessage_accepted muted m s H) as (_ & T & _).
  unfold processed. rewrite T, !count_app, count_cons, count_nil. cbn.
  destruct (onUserMessage callbacks); rewrite ?count_cons, ?count_nil; cbn; lia.
Qed.

(** Runs in which every submission carries the key last accepted. *)
Lemma same_key_run k acts s s' :
  same_key_only k acts -> run callbacks acts s = Some s' ->
  lastProcessedMessageRef s = k -> quiet s s'.
Proof.
  intros F; revert s; induction F as [|a acts Ha F IH]; intros s H K; cbn in H.
  - injection H as <-. apply quiet_refl.
  - destruct (step callbacks a s) as [s1|] eqn:E; [|discriminate].
    assert (Q : quiet s s1).
    { destruct (isSubmission a) eqn:S; [|now apply (quiet_step a)].
      destruct a; try discriminate. cbn [step] in E. injection E as <-.
      rewrite processUserMessage_duplicate; [apply quiet_refl|congruence]. }
    eapply quiet_trans; [exact Q|]. apply IH; [exact H|].
    destruct Q as [Q _]. congruence.
Qed.

Lemma no_submission_run acts s s' :
  no_submission acts -> run callbacks acts s = Some s' -> quiet s s'.
Proof.
  intros F; revert s; induction F as [|a acts Ha F IH]; intros s H; cbn in H.
  - injection H as <-. apply quiet_refl.
  - destruct (step callbacks a s) as [s1|] eqn:E; [|discriminate].
    eapply quiet_trans; [eapply quiet_step; eassumption | now apply IH].
Qed.

(** C2.  The duplicate check looks at the last accepted utterance only.
    First part: once [m] is accepted, as long as every further
    submission has the same normalized text, nothing more is processed
    (the Completion Client was called once for it) and a submission of
    that text is a no-op.  Second part: [A], then a different [B], then
    [A] again, each submitted after the turn before it has completed,
    are all three processed, and the three user entries enter the
    history in that order. *)
Theorem duplicate_suppression_last_accepted_only :
  (forall s muted m acts s1 s2,
      accepts m s = true ->
      step callbacks (call_processUserMessage muted m) s = Some s1 ->
      same_key_only (messageKey m) acts ->
      run callbacks acts s1 = Some s2 ->
      processed s2 = S (processed s)
      /\ forall muted' m',
           messageKey m' = messageKey m ->
           step callbacks (call_processUserMessage muted' m') s2 = Some s2)
  /\
  (forall s0 A B mutedA mutedB mutedA' acts1 acts2 s1 s2 s3 s4 s5,
      truthy (trim A) = true -> truthy (trim B) = true ->
      messageKey A <> messageKey B ->
      processingRef s0 = false ->
      lastProcessedMessageRef s0 <> messageKey A ->
      step callbacks (call_processUserMessage mutedA A) s0 = Some s1 ->
      no_submission acts1 -> run callbacks acts1 s1 = Some s2 ->
      processingRef s2 = false ->
      step callbacks (call_processUserMessage mutedB B) s2 = Some s3 ->
      no_submission acts2 -> run callbacks acts2 s3 = Some s4 ->
      processingRef s4 = false ->
      step callbacks (call_processUserMessage mutedA' A) s4 = Some s5 ->
      processed s5 = 3 + processed s0
      /\ exists h1 h2,
           conversationHistory s5 =
           conversationHistory s0
           ++ [{| role := user; content := trim A |}] ++ h1
           ++ [{| role := user; content := trim B |}] ++ h2
           ++ [{| role := user; content := trim A |}]).
Proof.
  split.
  - intros s muted m acts s1 s2 Acc S1 F R. cbn [step] in S1. injection S1 as <-.
    destruct (processUserMessage_accepted muted m s Acc)
      as (_ & _ & _ & _ & K & _).
    destruct (same_key_run _ F R K) as [K2 P2].
    split.
    + rewrite P2. now apply processed_accepted.
    + intros muted' m' E. cbn [step]. f_equal.
      apply processUserMessage_duplicate. congruence.
  - intros s0 A B mutedA mutedB mutedA' acts1 acts2 s1 s2 s3 s4 s5
      TA TB NE P0 L0 S1 F1 R1 P2 S3 F2 R2 P4 S5.
    cbn [step] in S1, S3, S5.
    injection S1 as <-. injection S3 as <-. injection S5 as <-.
    assert (A0 : accepts A s0 = true).
    { unfold accepts. rewrite TA, P0. cbn. now apply negb_true_iff, jseq_false. }
    destruct (processUserMessage_accepted mutedA A s0 A0)
      as (H1 & _ & _ & _ & K1 & _).
    pose proof (processed_accepted mutedA A s0 A0) as N1.
    destruct (no_submission_run _ F1 R1) as [K2 N2].
    destruct (extends_run _ _ R1) as [h1 E1].
    assert (A2 : accepts B s2 = true).
    { unfold accepts. rewrite TB, P2. cbn. apply negb_true_iff, jseq_false.
      congruence. }
    destruct (processUserMessage_accepted mutedB B s2 A2)
      as (H3 & _ & _ & _ & K3 & _).
    pose proof (processed_accepted mutedB B s2 A2) as N3.
    destruct (no_submission_run _ F2 R2) as [K4 N4].
    destruct (extends_run _ _ R2) as [h2 E2].
    assert (A4 : accepts A s4 = true).
    { unfold accepts. rewrite TA, P4. cbn. apply negb_true_iff, jseq_false.
      congruence. }
    destruct (processUserMessage_accepted mutedA' A s4 A4) as (H5 & _).
    pose proof (processed_accepted mutedA' A s4 A4) as N5.
    split; [lia|]. exists h1, h2.
    rewrite H5, E2, H3, E1, H1. now rewrite <- !app_assoc.
Qed.

(** *** One turn from its submission to its end *)

Lemma nth_error_snoc {A} (l : list A) t :
  nth_error (l ++ [t]) (List.length l) = Some t.
Proof. induction l; [reflexivity|assumption]. Qed.

Lemma remove_nth_snoc {A} (l : list A) t :
  remove_nth (List.length l) (l ++ [t]) = l.
Proof.
  unfold remove_nth. rewrite firstn_app, Nat.sub_diag, firstn_all.
  rewrite (skipn_all2 (n := S (List.length l))).
  - cbn. now rewrite !app_nil_r.
  - rewrite length_app. cbn. lia.
Qed.

(** Settling the call suspended last. *)
Lemma step_settle_last t o l s :
  pending s = l ++ [t] ->
  step callbacks (settle (List.length l) o) s = resume callbacks t o (setPending l s).
Proof.
  intros E. cbn [step]. now rewrite E, nth_error_snoc, remove_nth_snoc.
Qed.

Lemma accepts_inv m s :
  accepts m s = true ->
  truthy m = true /\ truthy (trim m) = true /\ processingRef s = false
  /\ jseq (lastProcessedMessageRef s) (messageKey m) = false.
Proof.
  unfold accepts. intros H.
  apply andb_prop in H as [H J]. apply andb_prop in H as [T P].
  apply negb_true_iff in P, J. auto using truthy_trim.
Qed.

(** The submission and the settlement of its completion, in a row. *)
Lemma run_turn muted m o rest s :
  accepts m s = true ->
  run callbacks
    (call_processUserMessage muted m :: settle (List.length (pending s)) o :: rest) s
  = run callbacks rest
      (processUserMessage_resume muted o
         (setPending (pending s) (processUserMessage callbacks muted m s))).
Proof.
  intros Acc.
  destruct (processUserMessage_accepted muted m s Acc) as (_ & _ & E & _).
  cbn [run]. change (step callbacks (call_processUserMessage muted m) s)
    with (Some (processUserMessage callbacks muted m s)). cbn iota.
  now erewrite step_settle_last by exact E.
Qed.

(** The reply is spoken: the voices arrive and the utterance ends. *)
Lemma run_spoken text l s :
  pending s = l ++ [getVoices text Turn] -> queue s = [] ->
  run callbacks [settle (List.length l) (fulfilled None); speech_end] s
  = Some (utterance_handler Turn
            (setQueue []
               (speak_resume text Turn (fulfilled None) (setPending l s)))).
Proof.
  intros E Q. cbn [run]. erewrite step_settle_last by exact E. cbn [resume].
  cbn [step]. unfold speak_resume at 1. unfold afterSpeak at 1.
  unfold processUserMessage_finally at 1.
  destruct (isListeningRef _); cbn; now rewrite Q.
Qed.

Ltac turn_start Acc :=
  let T0 := fresh in let T := fresh in let P := fresh in let J := fresh in
  destruct (accepts_inv _ _ Acc) as (T0 & T & P & J);
  unfold turn; cbn [app]; rewrite run_turn by exact Acc.

Ltac turn_facts Acc :=
  let T0 := fresh in let T := fresh in let P := fresh in let J := fresh in
  destruct (accepts_inv _ _ Acc) as (T0 & T & P & J);
  unfold processUserMessage; rewrite T0, T, P, J.

(** C4.  An accepted utterance whose completion fails: the history has
    grown by the user entry only, the error is set, nothing but the user
    message was notified and nothing was spoken, the guard is released,
    [deepgram.resumeListening()] was called exactly if listening was
    active, and any later utterance with another key is accepted.  And
    whatever happened since the utterance was accepted, the failure
    itself adds nothing to the history, sets the error, releases the
    guard and calls [resumeListening] exactly if listening is active. *)
Theorem completion_failure_is_recoverable s muted m :
  accepts m s = true ->
  (exists s',
      run callbacks (turn s muted m rejected) s = Some s'
      /\ conversationHistory s' =
         conversationHistory s ++ [{| role := user; content := trim m |}]
      /\ error s' = Some (lit "Failed to get AI response")
      /\ trace s' =
         trace s
         ++ (if onUserMessage callbacks then [OnUserMessage (trim m)] else [])
         ++ [OpenaiGetResponse
               (conversationHistory s
                ++ [{| role := user; content := trim m |}])]
         ++ (if isListeningRef s then [DeepgramResumeListening] else [])
      /\ processingRef s' = false
      /\ pending s' = pending s /\ queue s' = queue s
      /\ cancelled s' = cancelled s
      /\ isListeningRef s' = isListeningRef s
      /\ deepgram s' =
         (if isListeningRef s
          then DeepgramService.resumeListening (deepgram s) else deepgram s)
      /\ forall m',
           truthy (trim m') = true -> messageKey m' <> messageKey m ->
           accepts m' s' = true)
  /\ forall s2 i,
       nth_error (pending s2) i = Some (openai_getResponse muted) ->
       exists s3,
         step callbacks (settle i rejected) s2 = Some s3
         /\ conversationHistory s3 = conversationHistory s2
         /\ error s3 = Some (lit "Failed to get AI response")
         /\ trace s3 =
            trace s2
            ++ (if isListeningRef s2 then [DeepgramResumeListening] else [])
         /\ processingRef s3 = false
         /\ deepgram s3 =
            (if isListeningRef s2
             then DeepgramService.resumeListening (deepgram s2)
             else deepgram s2).
Proof.
  intros Acc. split.
  - eexists. split.
    + turn_start Acc. reflexivity.
    + turn_facts Acc. hook_unfold. cbn.
      destruct (isListeningRef s) eqn:L;
        destruct (onUserMessage callbacks); cbn; rewrite ?L; cbn;
        rewrite <- ?app_assoc; splits; try reflexivity; try assumption;
        intros m' T' N; unfold accepts; cbn; rewrite T'; cbn;
        apply negb_true_iff, jseq_false; congruence.
  - intros s2 i E. eexists. split.
    + cbn [step]. rewrite E. cbn [resume]. reflexivity.
    + hook_unfold. cbn. destruct (isListeningRef s2) eqn:L; cbn;
        rewrite ?app_nil_r; splits; reflexivity.
Qed.

(** C9.  An accepted utterance whose completion succeeds with an empty
    reply ends silently: the history has grown by the user entry only,
    the trace shows no response, no completion and no call of [speak],
    the speech queue is untouched, and yet the guard is released and
    [deepgram.resumeListening()] was called exactly if listening was
    active, so that a later utterance with another key is accepted.
    And whatever happened since the utterance was accepted, the empty
    reply itself adds nothing to the history, notifies nothing, leaves
    the speech queue alone and releases the guard. *)
Theorem empty_reply_ends_turn_silently s muted m o :
  accepts m s = true ->
  OpenAIService.getResponse o = Some [] ->
  exists s',
    run callbacks (turn s muted m o) s = Some s'
    /\ conversationHistory s' =
       conversationHistory s ++ [{| role := user; content := trim m |}]
    /\ trace s' =
       trace s
       ++ (if onUserMessage callbacks then [OnUserMessage (trim m)] else [])
       ++ [OpenaiGetResponse
             (conversationHistory s ++ [{| role := user; content := trim m |}])]
       ++ (if isListeningRef s then [DeepgramResumeListening] else [])
    /\ processingRef s' = false
    /\ pending s' = pending s /\ queue s' = queue s
    /\ cancelled s' = cancelled s /\ utterance s' = utterance s
    /\ error s' = error s
    /\ isListeningRef s' = isListeningRef s
    /\ deepgram s' =
       (if isListeningRef s
        then DeepgramService.resumeListening (deepgram s) else deepgram s)
    /\ (forall m',
          truthy (trim m') = true -> messageKey m' <> messageKey m ->
          accepts m' s' = true)
    /\ forall s2 i,
         nth_error (pending s2) i = Some (openai_getResponse muted) ->
         exists s3,
           step callbacks (settle i o) s2 = Some s3
           /\ conversationHistory s3 = conversationHistory s2
           /\ trace s3 =
              trace s2
              ++ (if isListeningRef s2 then [DeepgramResumeListening] else [])
           /\ queue s3 = queue s2 /\ cancelled s3 = cancelled s2
           /\ processingRef s3 = false.
Proof.
  intros Acc G. eexists. split.
  - turn_start Acc. rewrite G. reflexivity.
  - turn_facts Acc. unfold processUserMessage_resume. rewrite G.
    hook_unfold. cbn.
    destruct (isListeningRef s) eqn:L;
      destruct (onUserMessage callbacks); cbn; rewrite ?L; cbn;
      rewrite <- ?app_assoc; splits; try reflexivity; try assumption;
      try (intros m' T' N; unfold accepts; cbn; rewrite T'; cbn;
           apply negb_true_iff, jseq_false; congruence);
      (intros s2 i E; eexists; split;
       [ cbn [step]; rewrite E; cbn [resume]; reflexivity
       | unfold processUserMessage_resume; rewrite G; hook_unfold; cbn;
         destruct (isListeningRef s2) eqn:L2; cbn;
         rewrite ?app_nil_r; splits; reflexivity ]).
Qed.

(** C10.  The duplicate key is written when the utterance is accepted
    and stays when its completion fails: after the failed turn, and
    after anything that follows in which every submission has the same
    normalized text, the key is still that of [m], nothing more was
    processed, and a submission of that text changes nothing.  Once an
    utterance [b] with another key has been accepted and its turn is
    over, [m] is accepted again. *)
Theorem failed_utterance_cannot_be_retried s muted m acts s1 s2 :
  accepts m s = true ->
  run callbacks (turn s muted m rejected) s = Some s1 ->
  same_key_only (messageKey m) acts ->
  run callbacks acts s1 = Some s2 ->
  lastProcessedMessageRef s1 = messageKey m
  /\ processingRef s1 = false
  /\ lastProcessedMessageRef s2 = messageKey m
  /\ processed s2 = S (processed s)
  /\ (forall muted' m',
        messageKey m' = messageKey m ->
        step callbacks (call_processUserMessage muted' m') s2 = Some s2)
  /\ forall mutedb b acts' s3 s4,
       truthy (trim b) = true -> messageKey b <> messageKey m ->
       step callbacks (call_processUserMessage mutedb b) s1 = Some s3 ->
       no_submission acts' -> run callbacks acts' s3 = Some s4 ->
       processingRef s4 = false ->
       processed s3 = S (processed s1) /\ accepts m s4 = true.
Proof.
  intros Acc R1 F R2.
  assert (K : lastProcessedMessageRef s1 = messageKey m
              /\ processingRef s1 = false
              /\ processed s1 = S (processed s)).
  { revert R1. turn_start Acc. intros R1. injection R1 as <-.
    destruct (processUserMessage_accepted muted m s Acc)
      as (_ & _ & _ & _ & K & _).
    pose proof (processed_accepted muted m s Acc) as N.
    destruct (quiet_processUserMessage_resume muted rejected
                (setPending (pending s) (processUserMessage callbacks muted m s)))
      as [Q1 Q2].
    splits.
    - rewrite Q1. exact K.
    - unfold processUserMessage_resume, processUserMessage_finally.
      cbn. now destruct (isListeningRef _).
    - rewrite Q2. exact N. }
  destruct K as (K & P & N).
  destruct (same_key_run _ F R2 K) as [K2 N2].
  destruct (accepts_inv _ _ Acc) as (_ & T & _).
  splits; try assumption; try congruence.
  - intros muted' m' E. cbn [step]. f_equal.
    apply processUserMessage_duplicate. congruence.
  - intros mutedb b acts' s3 s4 Tb Nb S3 F' R' P4.
    cbn [step] in S3. injection S3 as <-.
    assert (Ab : accepts b s1 = true).
    { unfold accepts. rewrite Tb, P. cbn. apply negb_true_iff, jseq_false.
      congruence. }
    destruct (processUserMessage_accepted mutedb b s1 Ab)
      as (_ & _ & _ & _ & Kb & _).
    destruct (no_submission_run _ F' R') as [K4 _].
    split; [now apply processed_accepted|].
    unfold accepts. rewrite T, P4. cbn. apply negb_true_iff, jseq_false.
    congruence.
Qed.

Lemma lastMessage_snoc l x : lastMessage (l ++ [x]) = Some x.
Proof.
  unfold lastMessage. rewrite length_app. cbn.
  replace (List.length l + 1 - 1) with (List.length l) by lia.
  apply nth_error_snoc.
Qed.

Lemma appendResponse_distinct r l :
  lastMessage l <> Some {| role := assistant; content := r |} ->
  appendResponse r l = l ++ [{| role := assistant; content := r |}].
Proof.
  unfold appendResponse, lastMessage.
  destruct (nth_error l (List.length l - 1)) as [[ro c]|]; [|reflexivity].
  intros H. cbn. destruct ro; try reflexivity. cbn.
  destruct (jseq c r) eqn:E; [|reflexivity].
  apply jseq_true in E. now subst.
Qed.

Lemma appendResponse_after_user r l c :
  appendResponse r (l ++ [{| role := user; content := c |}])
  = l ++ [{| role := user; content := c |};
          {| role := assistant; content := r |}].
Proof.
  rewrite appendResponse_distinct, <- app_assoc; [reflexivity|].
  now rewrite lastMessage_snoc.
Qed.

(** C8.  An accepted utterance with a non-empty reply, the turn taken
    to its end: the history has grown by the user entry and then the
    assistant entry, and the notifications of the turn are, in order,
    the user message, the response and the completion; the guard is
    released.  In general, when the reply arrives in any state whose
    last history entry is not this reply as an assistant entry, it is
    appended as one assistant entry and notified. *)
Theorem reply_turn_appends_user_then_assistant s muted m o aiResponse :
  accepts m s = true ->
  OpenAIService.getResponse o = Some aiResponse ->
  truthy aiResponse = true ->
  onUserMessage callbacks = true ->
  (exists s',
      run callbacks (turn s muted m o) s = Some s'
      /\ conversationHistory s' =
         conversationHistory s
         ++ [{| role := user; content := trim m |};
             {| role := assistant; content := aiResponse |}]
      /\ notifications s' =
         notifications s
         ++ [OnUserMessage (trim m); OnResponse aiResponse; OnSpeakingComplete]
      /\ processingRef s' = false
      /\ pending s' = pending s)
  /\ forall s2 i muted2,
       nth_error (pending s2) i = Some (openai_getResponse muted2) ->
       lastMessage (conversationHistory s2)
         <> Some {| role := assistant; content := aiResponse |} ->
       exists s3,
         step callbacks (settle i o) s2 = Some s3
         /\ conversationHistory s3 =
            conversationHistory s2
            ++ [{| role := assistant; content := aiResponse |}]
         /\ exists rest, trace s3 = trace s2 ++ OnResponse aiResponse :: rest.
Proof.
  intros Acc G T U. split.
  - unfold turn. rewrite G, T. cbn [andb].
    destruct muted; cbn [negb andb];
      [|destruct speechSynthesis_in_window eqn:W]; cbn [app].
    + rewrite run_turn by exact Acc. eexists. split; [reflexivity|].
      turn_facts Acc. unfold processUserMessage_resume. rewrite G, T.
      unfold notifications. hook_unfold. rewrite U. cbn.
      destruct (isListeningRef s) eqn:L; cbn; rewrite ?L; cbn;
        rewrite ?appendResponse_after_user, ?filter_app; cbn;
        rewrite <- ?app_assoc; cbn; splits; reflexivity.
    + rewrite run_turn by exact Acc.
      erewrite run_spoken with (text := aiResponse) (l := pending s).
      * eexists. split; [reflexivity|].
        turn_facts Acc. unfold processUserMessage_resume. rewrite G, T.
        unfold notifications. hook_unfold. rewrite U, W. cbn.
        destruct (isListeningRef s) eqn:L; cbn; rewrite ?L; cbn;
          rewrite ?appendResponse_after_user, ?filter_app; cbn;
          rewrite <- ?app_assoc; cbn; splits; reflexivity.
      * unfold processUserMessage_resume. rewrite G, T. cbn.
        unfold speak. now rewrite W.
      * unfold processUserMessage_resume. rewrite G, T. cbn.
        unfold speak. now rewrite W.
    + rewrite run_turn by exact Acc. eexists. split; [reflexivity|].
      turn_facts Acc. unfold processUserMessage_resume. rewrite G, T.
      unfold notifications. hook_unfold. rewrite U, W. cbn.
      destruct (isListeningRef s) eqn:L; cbn; rewrite ?L; cbn;
        rewrite ?appendResponse_after_user, ?filter_app; cbn;
        rewrite <- ?app_assoc; cbn; splits; reflexivity.
  - intros s2 i muted2 E D. eexists. split.
    + cbn [step]. rewrite E. cbn [resume]. reflexivity.
    + unfold processUserMessage_resume. rewrite G, T.
      hook_unfold. split_ifs; rewrite (appendResponse_distinct _ D);
        (split; [reflexivity|]); rewrite <- ?app_assoc; now eexists.
Qed.

(** *** Responses and their completions *)

Lemma outstanding_same s s' :
  same_conversation s s' -> outstanding s' = outstanding s.
Proof.
  intros []. unfold outstanding. rewrite sc_queue0, sc_cancelled0.
  f_equal. f_equal. eapply count_filter_sub; [|eassumption]. now intros [].
Qed.

Lemma completions_same s s' :
  same_conversation s s' -> completions_inv s -> completions_inv s'.
Proof.
  intros H [C W]. unfold completions_inv.
  rewrite (outstanding_same H). destruct H. now rewrite sc_trace0.
Qed.

Ltac completions_solve C W :=
  unfold completions_inv, outstanding in *; split;
  [ clear W; hook_unfold; split_ifs;
    rewrite ?count_app, ?count_cons, ?count_nil, ?length_app in *;
    cbn in *; lia
  | let Hw := fresh in
    intros Hw; specialize (W Hw); clear C; hook_unfold; rewrite ?Hw;
    split_ifs;
    rewrite ?count_app, ?count_cons, ?count_nil, ?length_app in *;
    cbn in *; first [lia | congruence] ].

Lemma completions_processUserMessage muted m s :
  completions_inv s -> completions_inv (processUserMessage callbacks muted m s).
Proof. intros [C W]. completions_solve C W. Qed.

Lemma completions_processUserMessage_resume muted o s :
  completions_inv s -> completions_inv (processUserMessage_resume muted o s).
Proof. intros [C W]. completions_solve C W. Qed.

Lemma completions_sendInitialGreeting_resume muted s :
  completions_inv s ->
  completions_inv (sendInitialGreeting_resume callbacks muted s).
Proof. intros [C W]. completions_solve C W. Qed.

Lemma completions_muteAudio s : completions_inv s -> completions_inv (muteAudio s).
Proof. intros [C W]. completions_solve C W. Qed.

(** A [speak] leaves the wait for the voices. *)
Lemma completions_speak_resume text who o s :
  count isComplete (trace s) + S (outstanding s) = count isResponse (trace s) ->
  speechSynthesis_in_window = true ->
  completions_inv (speak_resume text who o s).
Proof.
  intros C Hw. unfold completions_inv, outstanding in *. split.
  - hook_unfold; split_ifs;
      rewrite ?count_app, ?count_cons, ?count_nil, ?length_app in *;
      cbn in *; lia.
  - congruence.
Qed.

(** An utterance leaves the queue or the cancelled ones. *)
Lemma completions_utterance_handler who s :
  count isComplete (trace s) + S (outstanding s) = count isResponse (trace s) ->
  speechSynthesis_in_window = true ->
  completions_inv (utterance_handler who s).
Proof.
  intros C Hw. unfold completions_inv, outstanding in *. split.
  - hook_unfold; split_ifs;
      rewrite ?count_app, ?count_cons, ?count_nil, ?length_app in *;
      cbn in *; lia.
  - congruence.
Qed.

Lemma completions_step a s s' :
  completions_inv s -> step callbacks a s = Some s' -> completions_inv s'.
Proof.
  intros G H. destruct a; cbn [step] in H.
  - injection H as <-. now apply completions_processUserMessage.
  - injection H as <-.
    eapply completions_same; [apply startListening_conversation|exact G].
  - injection H as <-.
    eapply completions_same; [apply stopListening_conversation|exact G].
  - injection H as <-. now apply completions_muteAudio.
  - injection H as <-. exact G.
  - injection H as <-. destruct G as [C W]. completions_solve C W.
  - destruct (nth_error (pending s) i) as [t|] eqn:E; [|discriminate].
    pose proof (count_remove_nth isVoices _ _ E) as R.
    set (s1 := setPending (remove_nth i (pending s)) s) in *.
    assert (G1 : count isComplete (trace s1)
                 + ((if isVoices t then 1 else 0) + outstanding s1)
                 = count isResponse (trace s1)
                 /\ (speechSynthesis_in_window = false ->
                     (if isVoices t then 1 else 0) + outstanding s1 = 0)).
    { destruct G as [C W]. unfold outstanding in *. unfold s1. cbn. split.
      - lia.
      - intros Hw. specialize (W Hw). lia. }
    clearbody s1. clear G R.
    destruct t as [p|p k|muted|text who| | |muted|];
      cbn [resume isVoices] in H, G1; try discriminate.
    + injection H as <-.
      eapply completions_same; [apply initialize_settled_conversation|exact G1].
    + injection H as <-. now apply completions_processUserMessage_resume.
    + injection H as <-. destruct G1 as [C W].
      destruct speechSynthesis_in_window eqn:Hw; [|specialize (W eq_refl); lia].
      apply completions_speak_resume; [lia|exact Hw].
    + injection H as <-.
      eapply completions_same; [apply startListening_resume_conversation|exact G1].
    + destruct o; [|discriminate]. injection H as <-.
      eapply completions_same; [apply stopListening_resume_conversation|exact G1].
    + destruct o; [|discriminate]. injection H as <-.
      now apply completions_sendInitialGreeting_resume.
    + destruct o; [|discriminate]. injection H as <-.
      eapply completions_same; [apply startListening_conversation|exact G1].
  - destruct (queue s) as [|who q] eqn:E; [discriminate|]. injection H as <-.
    destruct G as [C W]. unfold outstanding in C, W. rewrite E in C, W.
    cbn [List.length] in C, W.
    destruct speechSynthesis_in_window eqn:Hw; [|specialize (W eq_refl); lia].
    apply completions_utterance_handler; [|exact Hw].
    unfold outstanding. cbn. lia.
  - destruct (cancelled s) as [|who c] eqn:E; [discriminate|]. injection H as <-.
    destruct G as [C W]. unfold outstanding in C, W. rewrite E in C, W.
    cbn [List.length] in C, W.
    destruct speechSynthesis_in_window eqn:Hw; [|specialize (W eq_refl); lia].
    apply completions_utterance_handler; [|exact Hw].
    unfold outstanding. cbn. lia.
Qed.

Lemma completions_reachable s : reachable callbacks s -> completions_inv s.
Proof.
  apply reachable_ind.
  - split; [reflexivity|]. intros _. reflexivity.
  - intros a s0 s' _. apply completions_step.
Qed.

Lemma count_In {A} (f : A -> bool) x l : In x l -> f x = true -> 1 <= count f l.
Proof.
  induction l as [|y l IH]; [easy|]. intros [->|H] F; rewrite count_cons.
  - rewrite F. lia.
  - specialize (IH H F). lia.
Qed.

(** X23.  Mute as the running closure sees it.  [muted] is the value
    of [isMuted] that the running closure of [processUserMessage] sees,
    which need not be the mute flag of the hook.
    (1) When a non-empty reply arrives, the response is notified,
    whatever [muted] and the mute state are; if [muted], the completion
    is notified right after it, [speak] is not called and the speech
    queue is left alone.  (2) Muting while the reply of the turn is in
    the speech queue empties the queue; the turn's completion is then
    outstanding once, as the error event of the cancelled utterance.
    (3) The delivery of that event notifies the completion and leaves
    no completion of a turn outstanding.  (4) In every reachable state
    each notified response has exactly one completion, notified or
    outstanding. *)
Theorem mute_as_the_closure_sees_it :
  (forall s i muted o aiResponse,
      nth_error (pending s) i = Some (openai_getResponse muted) ->
      OpenAIService.getResponse o = Some aiResponse ->
      truthy aiResponse = true ->
      exists s',
        step callbacks (settle i o) s = Some s'
        /\ (exists rest, trace s' = trace s ++ OnResponse aiResponse :: rest)
        /\ (muted = true ->
            trace s' =
              trace s ++ [OnResponse aiResponse; OnSpeakingComplete]
              ++ (if isListeningRef s then [DeepgramResumeListening] else [])
            /\ queue s' = queue s /\ cancelled s' = cancelled s
            /\ utterance s' = utterance s
            /\ pending s' = remove_nth i (pending s)
            /\ processingRef s' = false))
  /\ (forall s,
        reachable callbacks s -> In Turn (queue s) ->
        step callbacks call_muteAudio s = Some (muteAudio s)
        /\ isMuted (muteAudio s) = true
        /\ queue (muteAudio s) = []
        /\ trace (muteAudio s) = trace s
        /\ count isTurn (cancelled (muteAudio s)) = 1
        /\ inFlight (muteAudio s) = 1)
  /\ (forall s c,
        reachable callbacks s -> cancelled s = Turn :: c ->
        exists s',
          step callbacks speech_error s = Some s'
          /\ trace s' = trace s ++ [OnSpeakingComplete]
          /\ processingRef s' = false
          /\ inFlight s' = 0)
  /\ (forall s,
        reachable callbacks s ->
        count isComplete (trace s) + outstanding s
        = count isResponse (trace s)).
Proof.
  splits.
  - intros s i muted o r E G T. eexists. split; [|split].
    + cbn [step]. rewrite E. cbn [resume]. reflexivity.
    + unfold processUserMessage_resume. rewrite G, T. hook_unfold.
      split_ifs; rewrite <- ?app_assoc; now eexists.
    + intros ->. unfold processUserMessage_resume. rewrite G, T. hook_unfold.
      cbn. destruct (isListeningRef s) eqn:L; cbn; rewrite ?L; cbn;
        rewrite <- ?app_assoc; splits; reflexivity.
  - intros s R I.
    pose proof (guard_reachable R) as G.
    destruct (completions_reachable R) as [_ W].
    pose proof (count_In isTurn _ _ I eq_refl) as Q.
    assert (Hw : speechSynthesis_in_window = true).
    { destruct speechSynthesis_in_window; [reflexivity|].
      specialize (W eq_refl). unfold outstanding in W.
      destruct (queue s); [easy|cbn in W; lia]. }
    unfold guard_inv, inFlight in G.
    assert (count turnTask (pending s) = 0 /\ count isTurn (queue s) = 1
            /\ count isTurn (cancelled s) = 0 /\ processingRef s = true)
      as (Z1 & Z2 & Z3 & P).
    { revert G; destruct (processingRef s); cbn iota; intros G.
      - splits; try reflexivity; lia.
      - exfalso. lia. }
    split; [reflexivity|].
    unfold inFlight, muteAudio, cleanup, speechSynthesis_cancel. rewrite Hw.
    cbn. rewrite count_app, count_nil. splits; try reflexivity; lia.
  - intros s c R E. exists (utterance_handler Turn (setCancelled c s)).
    split; [cbn [step]; now rewrite E|].
    assert (R' : reachable callbacks (utterance_handler Turn (setCancelled c s))).
    { eapply reachable_step with (a := speech_error); [exact R|].
      cbn [step]. now rewrite E. }
    pose proof (guard_reachable R') as G. unfold guard_inv in G.
    splits; try reflexivity. exact G.
  - intros s R. now destruct (completions_reachable R).
Qed.

(** C7.  In every reachable state the history begins with the system
    entry made at mount from the name and the descriptor of the user,
    and every step leaves the history as it was with entries appended. *)
Theorem history_starts_with_system_and_only_grows s :
  reachable callbacks s ->
  (exists rest,
      conversationHistory s =
      {| role := system; content := systemPrompt callbacks |} :: rest)
  /\ forall a s',
       step callbacks a s = Some s' ->
       exists suffix, conversationHistory s' = conversationHistory s ++ suffix.
Proof.
  intros [acts R]. split.
  - destruct (extends_run _ _ R) as [suffix E]. exists suffix. exact E.
  - intros a s' H. exact (extends_step _ _ H).
Qed.

(** *** The recorder is never paused *)

Ltac capturing_solve :=
  unfold capturing in *; hook_unfold;
  unfold DeepgramService.resumeListening, DeepgramService.startRecorder,
    DeepgramService.stopRecorder, DeepgramService.withRecorder,
    DeepgramService.withStream in *;
  split_ifs; cbn in *; congruence.

Lemma capturing_resumeCaller ok s k :
  capturing s -> capturing (resumeCaller ok s k).
Proof. intros C. capturing_solve. Qed.

Lemma capturing_initialize_settled p o s :
  capturing s -> capturing (initialize_settled p o s).
Proof.
  intros C. unfold initialize_settled, resumeWaiters.
  destruct o; apply fold_resumeCaller_inv;
    auto using capturing_resumeCaller.
Qed.

Lemma capturing_step a s s' :
  capturing s -> step callbacks a s = Some s' -> capturing s'.
Proof.
  intros C H. destruct a; cbn [step] in H.
  1-6: injection H as <-; capturing_solve.
  - destruct (nth_error (pending s) i) as [t|]; [|discriminate].
    assert (C1 : capturing (setPending (remove_nth i (pending s)) s))
      by exact C.
    revert C1 H. generalize (setPending (remove_nth i (pending s)) s).
    intros s1 C1 H.
    destruct t; cbn [resume] in H; try discriminate;
      try (destruct o; [|discriminate]); injection H as <-.
    + now apply capturing_initialize_settled.
    + capturing_solve.
    + capturing_solve.
    + capturing_solve.
    + capturing_solve.
    + capturing_solve.
    + capturing_solve.
  - destruct (queue s) as [|who q]; [discriminate|]. injection H as <-.
    capturing_solve.
  - destruct (cancelled s) as [|who c]; [discriminate|]. injection H as <-.
    capturing_solve.
Qed.

(** No reachable state has the recorder paused: nothing calls
    [pauseListening], and [resumeListening] finds nothing to resume. *)
Lemma recorder_never_paused s : reachable callbacks s -> capturing s.
Proof.
  apply reachable_ind; [discriminate|].
  intros a s0 s' _. apply capturing_step.
Qed.

(** *** One connection attempt *)

Lemma attempts_app l1 l2 : attempts (l1 ++ l2) = attempts l1 ++ attempts l2.
Proof.
  induction l1 as [|[] l1 IH]; cbn; rewrite ?IH; reflexivity.
Qed.

Lemma awaited_app l1 l2 : awaited (l1 ++ l2) = awaited l1 ++ awaited l2.
Proof.
  induction l1 as [|[] l1 IH]; cbn; rewrite ?IH; reflexivity.
Qed.

Lemma attempts_filter l : attempts (filter connectionTask l) = attempts l.
Proof. induction l as [|[] l IH]; cbn; rewrite ?IH; reflexivity. Qed.

Lemma awaited_filter l : awaited (filter connectionTask l) = awaited l.
Proof. induction l as [|[] l IH]; cbn; rewrite ?IH; reflexivity. Qed.

Lemma attempts_resumed p l :
  attempts (filter (fun t => negb (awaits p t)) l) = attempts l.
Proof.
  induction l as [|[] l IH]; cbn; rewrite ?IH; try reflexivity.
  destruct (Nat.eqb p p0); cbn; now rewrite ?IH.
Qed.

Lemma awaited_resumed p l :
  Forall (eq p) (awaited l) ->
  awaited (filter (fun t => negb (awaits p t)) l) = [].
Proof.
  induction l as [|[] l IH]; cbn; intros H; auto.
  inversion H; subst. rewrite Nat.eqb_refl. cbn. auto.
Qed.

Lemma connection_tasks_remove i l t :
  nth_error l i = Some t -> connectionTask t = false ->
  attempts (remove_nth i l) = attempts l
  /\ awaited (remove_nth i l) = awaited l.
Proof.
  intros E F. pose proof (filter_remove_nth connectionTask _ _ E F) as R.
  now rewrite <- attempts_filter, <- awaited_filter, R,
    attempts_filter, awaited_filter.
Qed.

Lemma attempt_remove i l p :
  nth_error l i = Some (deepgram_initialize p) ->
  exists a b,
    attempts l = a ++ p :: b
    /\ attempts (remove_nth i l) = a ++ b
    /\ awaited (remove_nth i l) = awaited l.
Proof.
  revert i; induction l as [|x l IH]; intros [|i] H; try discriminate.
  - injection H as ->. exists [], (attempts l). now cbn.
  - cbn in H. destruct (IH i H) as (a & b & E1 & E2 & E3).
    unfold remove_nth in *.
    change (firstn (S i) (x :: l) ++ skipn (S (S i)) (x :: l))
      with (x :: (firstn i l ++ skipn (S i) l)).
    destruct x; cbn [attempts awaited]; rewrite ?E3;
      try (exists a, b; now rewrite E1, E2).
    exists (p0 :: a), b. now rewrite E1, E2.
Qed.

Lemma connection_same s s' :
  same_connection s s' -> connection_inv s -> connection_inv s'.
Proof.
  intros [] C. unfold connection_inv in *.
  rewrite sn_initialized0, sn_promise0, sn_attempts0, sn_connected0.
  rewrite <- (attempts_filter (pending s')), <- (awaited_filter (pending s')),
    sn_pending0, attempts_filter, awaited_filter. exact C.
Qed.

Lemma resumeCaller_connection ok s k : same_connection s (resumeCaller ok s k).
Proof. hook_unfold; split_ifs; frame. Qed.

Lemma startListening_resume_connection o s :
  same_connection s (startListening_resume o s).
Proof. hook_unfold; split_ifs; frame. Qed.

Lemma stopListening_connection s : same_connection s (stopListening s).
Proof. hook_unfold; split_ifs; frame. Qed.

Lemma stopListening_resume_connection s :
  same_connection s (stopListening_resume s).
Proof. hook_unfold; split_ifs; frame. Qed.

Lemma fold_resumeCaller_connection ok ks s :
  same_connection s (fold_left (resumeCaller ok) ks s).
Proof.
  apply fold_resumeCaller_inv; [|apply same_connection_refl].
  intros s1 k H. eapply same_connection_trans;
    [exact H|apply resumeCaller_connection].
Qed.

Lemma connection_awaitInitialization k s :
  connection_inv s -> connection_inv (awaitInitialization k s).
Proof.
  intros [C0 C]. unfold awaitInitialization, initializeIfNeeded.
  destruct (isInitializedRef s) eqn:I.
  - eapply connection_same; [apply resumeCaller_connection|].
    unfold connection_inv. now rewrite I.
  - destruct (initializationPromiseRef s) as [p|] eqn:P.
    + destruct C as (A & W & N). unfold connection_inv, await. cbn.
      rewrite I, P, attempts_app, awaited_app. cbn. rewrite app_nil_r.
      splits; auto. apply Forall_app. split; auto.
    + destruct C as (A & W). unfold connection_inv, await. cbn.
      rewrite I, !attempts_app, !awaited_app, A, W. cbn. splits; auto.
Qed.

Lemma connection_startListening s :
  connection_inv s -> connection_inv (startListening s).
Proof.
  intros C. apply connection_awaitInitialization.
  revert C. unfold connection_inv. now cbn.
Qed.

Lemma connection_initialize_settled p o s :
  isInitializedRef s = false -> isConnected s = false ->
  attempts (pending s) = [] -> Forall (eq p) (awaited (pending s)) ->
  initializationPromiseRef s = Some p ->
  connection_inv (initialize_settled p o s).
Proof.
  intros I C0 A W P. unfold initialize_settled, resumeWaiters.
  destruct o; (eapply connection_same; [apply fold_resumeCaller_connection|]);
    unfold connection_inv; cbn; rewrite ?I, ?C0, ?P, attempts_resumed, A,
      (awaited_resumed _ W); splits; auto; discriminate.
Qed.

Lemma connection_step a s s' :
  connection_inv s -> step callbacks a s = Some s' -> connection_inv s'.
Proof.
  intros C H. destruct a; cbn [step] in H.
  - injection H as <-.
    eapply connection_same; [apply processUserMessage_connection|exact C].
  - injection H as <-. now apply connection_startListening.
  - injection H as <-.
    eapply connection_same; [apply stopListening_connection|exact C].
  - injection H as <-.
    eapply connection_same; [apply muteAudio_connection|exact C].
  - injection H as <-. exact C.
  - injection H as <-. eapply connection_same; [|exact C]. frame.
  - destruct (nth_error (pending s) i) as [t|] eqn:E; [|discriminate].
    destruct (connectionTask t) eqn:T.
    + destruct t; try discriminate; cbn [resume] in H; try discriminate.
      injection H as <-.
      destruct (attempt_remove _ _ E) as (a & b & E1 & E2 & E3).
      destruct C as [C0 C]. destruct (isInitializedRef s) eqn:I.
      { destruct C as (A & _). rewrite A in E1. now destruct a. }
      destruct (initializationPromiseRef s) as [q|] eqn:P.
      2:{ destruct C as (A & _). rewrite A in E1. now destruct a. }
      destruct C as (A & W & N). rewrite A in E1.
      destruct a as [|x [|y a]]; try discriminate. injection E1 as -> <-.
      apply connection_initialize_settled; cbn; auto; try congruence.
    + destruct (connection_tasks_remove _ _ E T) as [RA RW].
      assert (C1 : connection_inv (setPending (remove_nth i (pending s)) s)).
      { unfold connection_inv in *. cbn. now rewrite RA, RW. }
      revert C1 H. generalize (setPending (remove_nth i (pending s)) s).
      intros s1 C1 H. clear E.
      destruct t; try discriminate; cbn [resume] in H;
        try (destruct o; [|discriminate]); injection H as <-.
      * eapply connection_same;
          [apply processUserMessage_resume_connection|exact C1].
      * eapply connection_same; [apply speak_resume_connection|exact C1].
      * eapply connection_same;
          [apply startListening_resume_connection|exact C1].
      * eapply connection_same;
          [apply stopListening_resume_connection|exact C1].
      * eapply connection_same;
          [apply sendInitialGreeting_resume_connection|exact C1].
      * now apply connection_startListening.
  - destruct (queue s) as [|who q]; [discriminate|]. injection H as <-.
    eapply connection_same; [apply utterance_handler_connection|exact C].
  - destruct (cancelled s) as [|who c]; [discriminate|]. injection H as <-.
    eapply connection_same; [apply utterance_handler_connection|exact C].
Qed.

Lemma connection_reachable s : reachable callbacks s -> connection_inv s.
Proof.
  apply reachable_ind.
  - unfold connection_inv. cbn. splits; auto.
  - intros a s0 s' _. apply connection_step.
Qed.

Lemma initialize_fulfilled p v s :
  let s' := initialize_settled p (fulfilled v) s in
  isInitializedRef s' = true /\ isConnected s' = true
  /\ initializationPromiseRef s' = initializationPromiseRef s
  /\ initAttempts s' = initAttempts s.
Proof.
  unfold initialize_settled, resumeWaiters. cbn.
  destruct (fold_resumeCaller_connection true
              (callers (filter (awaits p)
                 (pending (setIsConnected true (setIsInitializedRef true s)))))
              (setPending
                 (filter (fun t => negb (awaits p t))
                    (pending (setIsConnected true (setIsInitializedRef true s))))
                 (setIsConnected true (setIsInitializedRef true s)))).
  cbn in *. auto.
Qed.

Lemma error_resumeCaller ok s k :
  error s <> None -> error (resumeCaller ok s k) <> None.
Proof. intros E. hook_unfold; split_ifs; congruence. Qed.

Lemma initialize_rejected p s :
  let s' := initialize_settled p rejected s in
  isInitializedRef s' = isInitializedRef s /\ isConnected s' = isConnected s
  /\ initializationPromiseRef s' = None
  /\ initAttempts s' = initAttempts s
  /\ error s' <> None.
Proof.
  unfold initialize_settled, resumeWaiters. cbn.
  match goal with
  | |- context [fold_left _ ?ks ?s0] =>
      destruct (fold_resumeCaller_connection false ks s0);
      assert (error (fold_left (resumeCaller false) ks s0) <> None)
        by (apply fold_resumeCaller_inv;
            [apply error_resumeCaller | discriminate])
  end.
  cbn in *. auto.
Qed.

(** No step taken while an attempt is cached or has succeeded calls
    [deepgram.initialize()]. *)
Lemma initAttempts_step a s s' :
  isInitializedRef s = true \/ initializationPromiseRef s <> None ->
  step callbacks a s = Some s' -> initAttempts s' = initAttempts s.
Proof.
  assert (L : forall s0,
             isInitializedRef s0 = true \/ initializationPromiseRef s0 <> None ->
             initAttempts (startListening s0) = initAttempts s0).
  { intros s0 Hc. unfold startListening, awaitInitialization, initializeIfNeeded.
    cbn. destruct (isInitializedRef s0).
    - apply (sn_attempts (resumeCaller_connection true (setError None s0) StartListening)).
    - destruct (initializationPromiseRef s0); [reflexivity|].
      now destruct Hc. }
  intros Hc H. destruct a; cbn [step] in H.
  - injection H as <-. apply (sn_attempts (processUserMessage_connection _ _ _)).
  - injection H as <-. now apply L.
  - injection H as <-. apply (sn_attempts (stopListening_connection _)).
  - injection H as <-. apply (sn_attempts (muteAudio_connection _)).
  - injection H as <-. reflexivity.
  - injection H as <-. reflexivity.
  - destruct (nth_error (pending s) i) as [t|]; [|discriminate].
    change (initAttempts s)
      with (initAttempts (setPending (remove_nth i (pending s)) s)).
    assert (Hc1 : isInitializedRef (setPending (remove_nth i (pending s)) s) = true
                  \/ initializationPromiseRef
                       (setPending (remove_nth i (pending s)) s) <> None)
      by exact Hc.
    revert Hc1 H. generalize (setPending (remove_nth i (pending s)) s).
    intros s1 Hc1 H.
    destruct t; cbn [resume] in H; try discriminate;
      try (destruct o; [|discriminate]); injection H as <-.
    + destruct o.
      * now destruct (initialize_fulfilled p v s1) as (_ & _ & _ & ?).
      * now destruct (initialize_rejected p s1) as (_ & _ & _ & ? & _).
    + apply (sn_attempts (processUserMessage_resume_connection _ _ _)).
    + apply (sn_attempts (speak_resume_connection _ _ _ _)).
    + apply (sn_attempts (startListening_resume_connection _ _)).
    + apply (sn_attempts (stopListening_resume_connection _)).
    + apply (sn_attempts (sendInitialGreeting_resume_connection _ _)).
    + now apply L.
  - destruct (queue s) as [|who q]; [discriminate|]. injection H as <-.
    apply (sn_attempts (utterance_handler_connection who (setQueue q s))).
  - destruct (cancelled s) as [|who c]; [discriminate|]. injection H as <-.
    apply (sn_attempts (utterance_handler_connection who (setCancelled c s))).
Qed.

(** A call of [startListening] while the attempt is pending joins the
    callers that await it. *)
Lemma startListening_joins p s :
  isInitializedRef s = false -> initializationPromiseRef s = Some p ->
  startListening s
  = await (await_initialization p StartListening) (setError None s).
Proof.
  intros I P. unfold startListening, awaitInitialization, initializeIfNeeded.
  cbn. now rewrite I, P.
Qed.

Lemma callers_join p n : forall s,
  isInitializedRef s = false -> initializationPromiseRef s = Some p ->
  exists s',
    run callbacks (repeat call_startListening n) s = Some s'
    /\ isInitializedRef s' = false /\ initializationPromiseRef s' = Some p
    /\ initAttempts s' = initAttempts s
    /\ attempts (pending s') = attempts (pending s)
    /\ awaited (pending s') = awaited (pending s) ++ repeat p n.
Proof.
  induction n as [|n IH]; intros s I P.
  - exists s. cbn. rewrite app_nil_r. splits; auto.
  - destruct (IH (startListening s)) as (s' & R & I' & P' & N & A & W).
    + now rewrite (startListening_joins _ I P).
    + now rewrite (startListening_joins _ I P).
    + exists s'. cbn [repeat run step]. rewrite R.
      rewrite (startListening_joins _ I P) in N, A, W. cbn in N, A, W.
      rewrite attempts_app in A. rewrite awaited_app in W. cbn in A, W.
      rewrite app_nil_r in A. rewrite <- app_assoc in W. splits; auto.
Qed.

End Properties.

(** ** Blank and padded messages *)

(** ** Trimming *)

Lemma blank_app a b : blank (a ++ b) = blank a && blank b.
Proof. apply forallb_app. Qed.

Lemma blank_rev a : blank (rev a) = blank a.
Proof.
  induction a as [|c a IH]; [reflexivity|].
  cbn [rev]. rewrite blank_app, IH. cbn. rewrite andb_true_r. apply andb_comm.
Qed.

Lemma trimStart_blank s : blank s = true -> trimStart s = [].
Proof.
  induction s as [|c s IH]; [reflexivity|]. cbn. intros H.
  apply andb_prop in H as [-> H]. auto.
Qed.

Lemma trimStart_noLead s : noLead (trimStart s).
Proof.
  induction s as [|c s IH]; [exact I|]. cbn.
  destruct (isWhiteSpace c) eqn:E; [exact IH|exact E].
Qed.

Lemma noLead_trimStart s : noLead s -> trimStart s = s.
Proof. destruct s as [|c s]; [reflexivity|]. cbn. now intros ->. Qed.

Lemma trimStart_pad pre s : blank pre = true -> trimStart (pre ++ s) = trimStart s.
Proof.
  induction pre as [|c pre IH]; [reflexivity|]. cbn. intros H.
  apply andb_prop in H as [-> H]. auto.
Qed.

(** What [trimStart] removes is white space. *)
Lemma trimStart_split s :
  exists pre, s = pre ++ trimStart s /\ blank pre = true.
Proof.
  induction s as [|c s (pre & E & B)]; [now exists []|]. cbn [trimStart].
  destruct (isWhiteSpace c) eqn:W.
  - exists (c :: pre). split; [cbn; now rewrite <- E|].
    unfold blank in *. cbn. now rewrite W, B.
  - now exists [].
Qed.

Lemma trimStart_keeps s post :
  trimStart s <> [] -> trimStart (s ++ post) = trimStart s ++ post.
Proof.
  induction s as [|c s IH]; [easy|]. cbn.
  destruct (isWhiteSpace c); [exact IH|reflexivity].
Qed.

Lemma trimStart_nil s : trimStart s = [] -> blank s = true.
Proof.
  induction s as [|c s IH]; [reflexivity|]. cbn.
  destruct (isWhiteSpace c); [exact IH|discriminate].
Qed.

Lemma trimEnd_pad s post : blank post = true -> trimEnd (s ++ post) = trimEnd s.
Proof.
  intros B. unfold trimEnd. rewrite rev_app_distr, trimStart_pad; [reflexivity|].
  now rewrite blank_rev.
Qed.

Lemma trimEnd_split s : exists post, s = trimEnd s ++ post /\ blank post = true.
Proof.
  destruct (trimStart_split (rev s)) as (pre & E & B). exists (rev pre).
  unfold trimEnd. split; [|now rewrite blank_rev].
  now rewrite <- rev_app_distr, <- E, rev_involutive.
Qed.

Lemma trimEnd_noLead s : noLead s -> noLead (trimEnd s).
Proof.
  intros H. destruct (trimEnd_split s) as (post & E & _).
  destruct (trimEnd s) as [|c r]; [exact I|].
  rewrite E in H. exact H.
Qed.

Lemma trimEnd_stable s : trimEnd (trimEnd s) = trimEnd s.
Proof.
  unfold trimEnd. rewrite rev_involutive.
  now rewrite noLead_trimStart by apply trimStart_noLead.
Qed.

Lemma trim_blank s : blank s = true <-> trim s = [].
Proof.
  unfold trim. split.
  - intros B. now rewrite trimStart_blank by exact B.
  - intros E. destruct (trimStart_split s) as (pre & Es & Bp).
    destruct (trimEnd_split (trimStart s)) as (post & Et & Bq).
    rewrite E in Et. cbn in Et. rewrite Es, Et, blank_app, Bp. exact Bq.
Qed.

Lemma trim_noLead s : noLead (trim s).
Proof. apply trimEnd_noLead, trimStart_noLead. Qed.

(** [trim] is idempotent. *)
Lemma trim_trim s : trim (trim s) = trim s.
Proof.
  unfold trim at 1. rewrite noLead_trimStart by apply trim_noLead.
  unfold trim. apply trimEnd_stable.
Qed.

(** White space around a text does not survive [trim]. *)
Lemma trim_pad pre s post :
  blank pre = true -> blank post = true -> trim (pre ++ s ++ post) = trim s.
Proof.
  intros Bp Bq. unfold trim. rewrite trimStart_pad by exact Bp.
  destruct (trimStart s) as [|c r] eqn:E.
  - rewrite trimStart_blank; [reflexivity|].
    rewrite blank_app, Bq, andb_true_r. now apply trimStart_nil.
  - rewrite trimStart_keeps by congruence. rewrite E. now apply trimEnd_pad.
Qed.

Section Submissions.

Context {runtime : Runtime}.
Variable callbacks : ChatServiceCallbacks.

(** X1.  A message without a single non-white-space code unit (the
    empty one included) is ignored, whatever the state. *)
Theorem blank_message_is_ignored s muted m :
  blank m = true -> processUserMessage callbacks muted m s = s.
Proof.
  intros B. apply trim_blank in B. unfold processUserMessage. rewrite B.
  cbn. now rewrite orb_true_r.
Qed.

(** X2.  White space around a message makes no difference: the padded
    message is treated exactly as the bare one (same key, same stored
    text, same acceptance). *)
Theorem padding_is_ignored s muted pre m post :
  blank pre = true -> blank post = true ->
  messageKey (pre ++ m ++ post) = messageKey m
  /\ processUserMessage callbacks muted (pre ++ m ++ post) s
     = processUserMessage callbacks muted m s.
Proof.
  intros Bp Bq. pose proof (@trim_pad pre m post Bp Bq) as T.
  unfold processUserMessage, messageKey. rewrite T. split; [reflexivity|].
  destruct m as [|c m].
  - cbn [truthy negb orb]. change (trim []) with (@nil N). cbn.
    now rewrite orb_true_r.
  - assert (truthy (pre ++ (c :: m) ++ post) = true) as ->
      by (destruct pre; reflexivity).
    reflexivity.
Qed.

End Submissions.

(** ** What holds of every reachable state *)

Section Invariants.

Context {runtime : Runtime}.
Variable callbacks : ChatServiceCallbacks.

(** A property that does not look at the suspended calls or at the
    speech queue holds after a step when every operation keeps it. *)
Lemma step_preserves (P : hook -> Prop) :
  (forall s l, P s -> P (setPending l s)) ->
  (forall s q, P s -> P (setQueue q s)) ->
  (forall s c, P s -> P (setCancelled c s)) ->
  (forall s muted m, P s -> P (processUserMessage callbacks muted m s)) ->
  (forall s muted o, P s -> P (processUserMessage_resume muted o s)) ->
  (forall s text who o, P s -> P (speak_resume text who o s)) ->
  (forall s who, P s -> P (utterance_handler who s)) ->
  (forall s, P s -> P (muteAudio s)) ->
  (forall s, P s -> P (unmuteAudio s)) ->
  (forall s muted, P s -> P (sendInitialGreeting_resume callbacks muted s)) ->
  (forall s, P s -> P (startListening s)) ->
  (forall s o, P s -> P (startListening_resume o s)) ->
  (forall s, P s -> P (stopListening s)) ->
  (forall s, P s -> P (stopListening_resume s)) ->
  (forall s p o, P s -> P (initialize_settled p o s)) ->
  forall a s s', P s -> step callbacks a s = Some s' -> P s'.
Proof.
  intros Hp Hq Hc H1 H2 H3 H4 H5 H6 H7 H8 H9 H10 H11 H12 a s s' P0 H.
  destruct a; cbn [step] in H.
  - injection H as <-. auto.
  - injection H as <-. auto.
  - injection H as <-. auto.
  - injection H as <-. auto.
  - injection H as <-. auto.
  - injection H as <-. apply Hp, P0.
  - destruct (nth_error (pending s) i) as [t|]; [|discriminate].
    specialize (Hp s (remove_nth i (pending s)) P0).
    destruct t; cbn [resume] in H; try discriminate;
      try (destruct o; [|discriminate]); injection H as <-; auto.
  - destruct (queue s) as [|who q]; [discriminate|]. injection H as <-. auto.
  - destruct (cancelled s) as [|who c]; [discriminate|]. injection H as <-. auto.
Qed.

(** The same for what the listening half of the hook leaves alone. *)
Lemma step_preserves_conversation (P : hook -> Prop) :
  (forall s s', same_conversation s s' -> P s -> P s') ->
  (forall s l, P s -> P (setPending l s)) ->
  (forall s q, P s -> P (setQueue q s)) ->
  (forall s c, P s -> P (setCancelled c s)) ->
  (forall s muted m, P s -> P (processUserMessage callbacks muted m s)) ->
  (forall s muted o, P s -> P (processUserMessage_resume muted o s)) ->
  (forall s text who o, P s -> P (speak_resume text who o s)) ->
  (forall s who, P s -> P (utterance_handler who s)) ->
  (forall s, P s -> P (muteAudio s)) ->
  (forall s muted, P s -> P (sendInitialGreeting_resume callbacks muted s)) ->
  forall a s s', P s -> step callbacks a s = Some s' -> P s'.
Proof.
  intros Hs Hp Hq Hc H1 H2 H3 H4 H5 H7. apply step_preserves; auto.
  - intros s H. apply (Hs s); [|exact H]. now constructor.
  - intros s H. eapply Hs; [apply startListening_conversation|exact H].
  - intros s o H. eapply Hs; [apply startListening_resume_conversation|exact H].
  - intros s H. eapply Hs; [apply stopListening_conversation|exact H].
  - intros s H. eapply Hs; [apply stopListening_resume_conversation|exact H].
  - intros s p o H. eapply Hs; [apply initialize_settled_conversation|exact H].
Qed.

(** *** What the history holds *)

Lemma well_formed_user m :
  truthy (trim m) = true -> well_formed {| role := user; content := trim m |}.
Proof. intros T. split; [exact T|]. intros _. apply trim_trim. Qed.

Lemma well_formed_assistant r :
  truthy r = true -> well_formed {| role := assistant; content := r |}.
Proof. intros T. split; [exact T|]. discriminate. Qed.

Lemma well_formed_appendResponse r l :
  truthy r = true -> Forall well_formed l ->
  Forall well_formed (appendResponse r l).
Proof.
  intros T F. unfold appendResponse.
  destruct (nth_error l (List.length l - 1)) as [x|];
    [destruct (Role_eqb (role x) assistant && jseq (content x) r)|];
    try exact F; apply Forall_app; split; auto;
    constructor; auto using well_formed_assistant.
Qed.

Lemma well_formed_history_step a s s' :
  Forall well_formed (conversationHistory s) ->
  step callbacks a s = Some s' ->
  Forall well_formed (conversationHistory s').
Proof.
  apply (step_preserves_conversation
           (fun s => Forall well_formed (conversationHistory s))); auto.
  - intros s0 s1 []. congruence.
  - intros s0 muted m F. unfold processUserMessage.
    destruct (truthy m); cbn [negb orb]; [|exact F].
    destruct (truthy (trim m)) eqn:T; cbn [negb]; [|exact F].
    destruct (processingRef s0); [exact F|].
    destruct (jseq _ _); [exact F|].
    destruct (onUserMessage callbacks); cbn;
      (apply Forall_app; split; [exact F|]);
      constructor; auto using well_formed_user.
  - intros s0 muted o F. unfold processUserMessage_resume.
    destruct (OpenAIService.getResponse o) as [r|];
      [destruct (truthy r) eqn:T|]; hook_unfold; split_ifs;
      auto using well_formed_appendResponse.
  - intros s0 text who o F. hook_unfold. now split_ifs.
  - intros s0 who F. hook_unfold. now split_ifs.
  - intros s0 F. hook_unfold. now split_ifs.
  - intros s0 muted F.
    assert (G : Forall well_formed (appendGreeting callbacks (conversationHistory s0))).
    { unfold appendGreeting. apply Forall_app. split.
      - destruct (0 <? List.length (conversationHistory s0)); [exact F|].
        constructor; [|constructor]. split; [reflexivity|discriminate].
      - constructor; [|constructor]. split; [reflexivity|discriminate]. }
    unfold sendInitialGreeting_resume, speak.
    destruct (negb muted); [destruct (negb speechSynthesis_in_window)|];
      exact G.
Qed.

(** X3.  Every entry of the history of a reachable state has a
    non-empty content, and the content of a user entry is trimmed: no
    empty message, and no padded user message, is ever sent to the
    Completion Client. *)
Theorem history_entries_are_well_formed s :
  reachable callbacks s -> Forall well_formed (conversationHistory s).
Proof.
  revert s.
  apply (@reachable_ind _ callbacks
           (fun s => Forall well_formed (conversationHistory s))).
  - constructor; [|constructor]. split; [reflexivity|discriminate].
  - intros a s0 s' _. apply well_formed_history_step.
Qed.

(** X5.  Once connected the hook stays connected: no step withdraws the
    connected signal, and no further attempt to connect is ever made. *)
Theorem connected_is_permanent s acts s' :
  reachable callbacks s -> isConnected s = true ->
  run callbacks acts s = Some s' ->
  isConnected s' = true /\ isInitializedRef s' = true
  /\ initAttempts s' = initAttempts s.
Proof.
  intros R C. revert s' . induction acts as [|a acts IH] using rev_ind; intros s' H.
  - cbn in H. injection H as <-.
    destruct (connection_reachable R) as [E _]. splits; congruence.
  - rewrite run_app in H.
    destruct (run callbacks acts s) as [s1|] eqn:E1; [|discriminate].
    cbn in H. destruct (step callbacks a s1) as [s2|] eqn:E2; [|discriminate].
    injection H as <-. destruct (IH s1 eq_refl) as (C1 & I1 & N1).
    assert (R1 : reachable callbacks s1) by (eapply reachable_run; eassumption).
    assert (R2 : reachable callbacks s2) by (eapply reachable_step; eassumption).
    assert (N2 : initAttempts s2 = initAttempts s1)
      by (eapply initAttempts_step; [left; exact I1|exact E2]).
    destruct (connection_reachable R2) as [E C2].
    destruct (isInitializedRef s2) eqn:I2; [splits; congruence|].
    exfalso. destruct (connection_reachable R1) as [_ C1'].
    rewrite I1 in C1'. destruct C1' as (A1 & W1 & P1).
    (* an initialized state has no attempt to settle, and nothing else
       resets the flag *)
    revert I2. clear - E2 I1 A1. intros I2.
    assert (K : forall s0 s3, same_connection s0 s3 ->
                isInitializedRef s0 = true -> isInitializedRef s3 = true)
      by (intros s0 s3 []; congruence).
    enough (isInitializedRef s2 = true) by congruence. clear I2.
    destruct a; cbn [step] in E2.
    + injection E2 as <-. eapply K; [apply processUserMessage_connection|exact I1].
    + injection E2 as <-. unfold startListening, awaitInitialization,
        initializeIfNeeded. cbn. rewrite I1.
      apply (K (setError None s1));
        [exact (resumeCaller_connection true (setError None s1) StartListening)
        |exact I1].
    + injection E2 as <-. eapply K; [apply stopListening_connection|exact I1].
    + injection E2 as <-. eapply K; [apply muteAudio_connection|exact I1].
    + injection E2 as <-. exact I1.
    + injection E2 as <-. exact I1.
    + destruct (nth_error (pending s1) i) as [t|] eqn:En; [|discriminate].
      assert (I1' : isInitializedRef (setPending (remove_nth i (pending s1)) s1)
                    = true) by exact I1.
      revert I1' E2. generalize (setPending (remove_nth i (pending s1)) s1).
      intros s0 I0 E2.
      destruct t; cbn [resume] in E2; try discriminate;
        try (destruct o; [|discriminate]); injection E2 as <-.
      * destruct (attempt_remove _ _ En) as (x & y & Ex & _).
        rewrite A1 in Ex. now destruct x.
      * eapply K; [apply processUserMessage_resume_connection|exact I0].
      * eapply K; [apply speak_resume_connection|exact I0].
      * eapply K; [apply startListening_resume_connection|exact I0].
      * eapply K; [apply stopListening_resume_connection|exact I0].
      * eapply K; [apply sendInitialGreeting_resume_connection|exact I0].
      * unfold startListening, awaitInitialization, initializeIfNeeded.
        cbn. rewrite I0.
        apply (K (setError None s0));
          [exact (resumeCaller_connection true (setError None s0) StartListening)
          |exact I0].
    + destruct (queue s1) as [|who q]; [discriminate|]. injection E2 as <-.
      eapply K; [apply utterance_handler_connection|exact I1].
    + destruct (cancelled s1) as [|who c]; [discriminate|]. injection E2 as <-.
      eapply K; [apply utterance_handler_connection|exact I1].
Qed.

End Invariants.

(** ** The requests and the key *)

Section Requests.

Context {runtime : Runtime}.
Variable callbacks : ChatServiceCallbacks.

Lemma requests_snoc tr e :
  requests (tr ++ [e])
  = requests tr ++ match e with OpenaiGetResponse h => [h] | _ => [] end.
Proof.
  unfold requests. rewrite flat_map_app. cbn. now rewrite app_nil_r.
Qed.

Lemma requests_same s s' :
  same_conversation s s' -> requests (trace s') = requests (trace s).
Proof. intros H. now rewrite (sc_trace H). Qed.

Ltac requests_solve :=
  hook_unfold; split_ifs; rewrite ?requests_snoc; cbn;
  rewrite ?app_nil_r; reflexivity.

Lemma requests_step a s s' :
  step callbacks a s = Some s' ->
  requests (trace s')
  = requests (trace s)
    ++ match a with
       | call_processUserMessage _ m =>
           if accepts m s
           then [conversationHistory s
                 ++ [{| role := user; content := trim m |}]]
           else []
       | _ => []
       end.
Proof.
  intros H. destruct a as [muted m| | | | |muted|i o| |]; cbn [step] in H.
  - injection H as <-. destruct (accepts m s) eqn:Acc.
    + destruct (processUserMessage_accepted callbacks muted m s Acc)
        as (_ & T & _).
      cbn zeta in T. rewrite T. unfold requests. rewrite !flat_map_app.
      now destruct (onUserMessage callbacks).
    + rewrite (processUserMessage_rejected callbacks muted m s Acc).
      now rewrite app_nil_r.
  - injection H as <-. rewrite app_nil_r.
    apply requests_same, startListening_conversation.
  - injection H as <-. rewrite app_nil_r.
    apply requests_same, stopListening_conversation.
  - injection H as <-. rewrite app_nil_r. requests_solve.
  - injection H as <-. now rewrite app_nil_r.
  - injection H as <-. now rewrite app_nil_r.
  - rewrite app_nil_r.
    destruct (nth_error (pending s) i) as [t|]; [|discriminate].
    change (trace s) with (trace (setPending (remove_nth i (pending s)) s)).
    revert H. generalize (setPending (remove_nth i (pending s)) s). intros s0 H.
    destruct t; cbn [resume] in H; try discriminate;
      try (destruct o; [|discriminate]); injection H as <-.
    + apply requests_same, initialize_settled_conversation.
    + unfold processUserMessage_resume.
      destruct (OpenAIService.getResponse o) as [r|];
        [destruct (truthy r)|]; requests_solve.
    + requests_solve.
    + apply requests_same, startListening_resume_conversation.
    + apply requests_same, stopListening_resume_conversation.
    + unfold sendInitialGreeting_resume, speak.
      destruct (negb muted); [destruct (negb speechSynthesis_in_window)|];
        requests_solve.
    + apply requests_same, startListening_conversation.
  - rewrite app_nil_r. destruct (queue s); [discriminate|].
    injection H as <-. requests_solve.
  - rewrite app_nil_r. destruct (cancelled s); [discriminate|].
    injection H as <-. requests_solve.
Qed.

(** X4.  What the Completion Client is asked: every request made up to
    a reachable state carries a history that begins with the system
    prompt and ends with a user entry whose content is not empty and
    is trimmed, and all of whose entries are well formed.  (This is
    about what a request holds, not about when it is made: the hook
    makes it once React has run the updater that appends the user
    entry, and the history it passes is the one that updater returns.) *)
Theorem every_request_is_a_full_history s :
  reachable callbacks s ->
  Forall
    (fun h =>
       (exists rest c,
           h = {| role := system; content := systemPrompt callbacks |}
               :: rest ++ [{| role := user; content := c |}]
           /\ truthy c = true /\ trim c = c)
       /\ Forall well_formed h)
    (requests (trace s)).
Proof.
  intros R.
  enough (Forall well_formed (conversationHistory s)
          /\ Forall
               (fun h =>
                  (exists rest c,
                      h = {| role := system; content := systemPrompt callbacks |}
                          :: rest ++ [{| role := user; content := c |}]
                      /\ truthy c = true /\ trim c = c)
                  /\ Forall well_formed h)
               (requests (trace s))) by tauto.
  revert s R. apply (@reachable_ind _ callbacks).
  - split; [|constructor].
    constructor; [|constructor]. split; [reflexivity|discriminate].
  - intros a s s' [acts R] [W F] H. split.
    + exact (well_formed_history_step callbacks _ _ W H).
    + rewrite (requests_step _ _ H). apply Forall_app. split; [exact F|].
      destruct a as [muted m| | | | |muted|i o| |]; try constructor.
      destruct (accepts m s) eqn:Acc; constructor; [|constructor].
      destruct (accepts_inv _ _ Acc) as (_ & T & _).
      destruct (extends_run callbacks _ _ R) as [rest E]. cbn in E.
      split.
      * exists rest, (trim m). rewrite E. splits; auto.
        apply trim_trim.
      * apply Forall_app. split; [exact W|]. constructor; [|constructor].
        now apply well_formed_user.
Qed.

(** *** The key and the last message notified *)

Lemma lastUserMessage_snoc tr e :
  lastUserMessage (tr ++ [e])
  = match e with
    | OnUserMessage text => Some text
    | _ => lastUserMessage tr
    end.
Proof. unfold lastUserMessage. now rewrite fold_left_app. Qed.

Lemma key_same s s' :
  lastProcessedMessageRef s' = lastProcessedMessageRef s ->
  lastUserMessage (trace s') = lastUserMessage (trace s) ->
  key_inv s -> key_inv s'.
Proof. unfold key_inv. now intros -> ->. Qed.

Ltac key_solve :=
  match goal with
  | K : key_inv ?s |- _ =>
      apply (@key_same s); [| |exact K]; clear K;
      hook_unfold; split_ifs; rewrite ?lastUserMessage_snoc; reflexivity
  end.

Lemma key_step a s s' :
  onUserMessage callbacks = true ->
  key_inv s -> step callbacks a s = Some s' -> key_inv s'.
Proof.
  intros U.
  apply (step_preserves_conversation callbacks key_inv); auto.
  - intros s0 s1 H K. unfold key_inv.
    now rewrite (sc_last H), (sc_trace H).
  - intros s0 muted m K. destruct (accepts m s0) eqn:Acc.
    + destruct (processUserMessage_accepted callbacks muted m s0 Acc)
        as (_ & T & _ & _ & L & _).
      cbn zeta in *. unfold key_inv. rewrite T, L, U.
      unfold lastUserMessage. rewrite !fold_left_app. cbn.
      unfold messageKey. now rewrite trim_trim.
    + now rewrite (processUserMessage_rejected callbacks muted m s0 Acc).
  - intros s0 muted o K. unfold processUserMessage_resume.
    destruct (OpenAIService.getResponse o) as [r|];
      [destruct (truthy r)|]; key_solve.
  - intros s0 text who o K. key_solve.
  - intros s0 who K. key_solve.
  - intros s0 K. key_solve.
  - intros s0 muted K. unfold sendInitialGreeting_resume, speak.
    destruct (negb muted); [destruct (negb speechSynthesis_in_window)|];
      key_solve.
Qed.

(** X21.  The key kept for the duplicate check is the key of the last
    message notified with [onUserMessage] (and empty while there is
    none), when that callback is registered: the key is written and the
    message is notified in the same synchronous block, at acceptance,
    and nowhere else. *)
Theorem last_key_is_the_key_of_the_last_user_message s :
  onUserMessage callbacks = true -> reachable callbacks s ->
  lastProcessedMessageRef s
  = match lastUserMessage (trace s) with
    | Some text => messageKey text
    | None => []
    end.
Proof.
  intros U. revert s. apply (@reachable_ind _ callbacks key_inv).
  - reflexivity.
  - intros a s0 s' _. now apply key_step.
Qed.

End Requests.

(** ** The capture *)

Section Listening.

Context {runtime : Runtime}.
Variable callbacks : ChatServiceCallbacks.

(** *** The flag of the connection is never reset *)

Lemma initialized_step a s s' :
  attempts (pending s) = [] -> isInitializedRef s = true ->
  step callbacks a s = Some s' -> isInitializedRef s' = true.
Proof.
  intros A1 I1 E2.
  assert (K : forall s0 s3, same_connection s0 s3 ->
              isInitializedRef s0 = true -> isInitializedRef s3 = true)
    by (intros s0 s3 []; congruence).
  assert (L : forall s0, isInitializedRef s0 = true ->
              isInitializedRef (startListening s0) = true).
  { intros s0 I0. unfold startListening, awaitInitialization,
      initializeIfNeeded. cbn. rewrite I0.
    apply (K (setError None s0));
      [exact (resumeCaller_connection true (setError None s0) StartListening)
      |exact I0]. }
  destruct a; cbn [step] in E2.
  - injection E2 as <-. eapply K; [apply processUserMessage_connection|exact I1].
  - injection E2 as <-. now apply L.
  - injection E2 as <-. eapply K; [apply stopListening_connection|exact I1].
  - injection E2 as <-. eapply K; [apply muteAudio_connection|exact I1].
  - injection E2 as <-. exact I1.
  - injection E2 as <-. exact I1.
  - destruct (nth_error (pending s) i) as [t|] eqn:En; [|discriminate].
    assert (I1' : isInitializedRef (setPending (remove_nth i (pending s)) s)
                  = true) by exact I1.
    revert I1' E2. generalize (setPending (remove_nth i (pending s)) s).
    intros s0 I0 E2.
    destruct t; cbn [resume] in E2; try discriminate;
      try (destruct o; [|discriminate]); injection E2 as <-.
    + destruct (attempt_remove _ _ En) as (x & y & Ex & _).
      rewrite A1 in Ex. now destruct x.
    + eapply K; [apply processUserMessage_resume_connection|exact I0].
    + eapply K; [apply speak_resume_connection|exact I0].
    + eapply K; [apply startListening_resume_connection|exact I0].
    + eapply K; [apply stopListening_resume_connection|exact I0].
    + eapply K; [apply sendInitialGreeting_resume_connection|exact I0].
    + now apply L.
  - destruct (queue s) as [|who q]; [discriminate|]. injection E2 as <-.
    eapply K; [apply utterance_handler_connection|exact I1].
  - destruct (cancelled s) as [|who c]; [discriminate|]. injection E2 as <-.
    eapply K; [apply utterance_handler_connection|exact I1].
Qed.

Lemma initialized_reachable_step a s s' :
  reachable callbacks s -> isInitializedRef s = true ->
  step callbacks a s = Some s' -> isInitializedRef s' = true.
Proof.
  intros R I. apply initialized_step; [|exact I].
  destruct (connection_reachable R) as [_ C]. rewrite I in C. tauto.
Qed.

(** *** The capture follows the connection *)

Lemma resumeListening_stream d :
  DeepgramService.stream (DeepgramService.resumeListening d)
  = DeepgramService.stream d.
Proof.
  unfold DeepgramService.resumeListening.
  now destruct (DeepgramService.mediaRecorder d) as [[]|].
Qed.

Lemma resumeListening_recorder d :
  DeepgramService.mediaRecorder (DeepgramService.resumeListening d)
  = DeepgramService.mediaRecorder d
  \/ (DeepgramService.mediaRecorder d = Some paused
      /\ DeepgramService.mediaRecorder (DeepgramService.resumeListening d)
         = Some recording).
Proof.
  unfold DeepgramService.resumeListening.
  destruct (DeepgramService.mediaRecorder d) as [[]|] eqn:E; cbn;
    rewrite ?E; auto.
Qed.

Lemma startRecorder_recorder d :
  DeepgramService.mediaRecorder (DeepgramService.startRecorder d)
  = Some recording.
Proof.
  unfold DeepgramService.startRecorder.
  now destruct (DeepgramService.mediaRecorder d) as [[]|] eqn:E.
Qed.

Lemma startRecorder_stream d :
  DeepgramService.stream (DeepgramService.startRecorder d)
  = DeepgramService.stream d.
Proof.
  unfold DeepgramService.startRecorder.
  now destruct (DeepgramService.mediaRecorder d) as [[]|].
Qed.

Lemma stopRecorder_stream d :
  DeepgramService.stream (DeepgramService.stopRecorder d)
  = DeepgramService.stream d.
Proof.
  unfold DeepgramService.stopRecorder.
  now destruct (DeepgramService.mediaRecorder d) as [[]|].
Qed.

Lemma stopRecorder_recorder d :
  DeepgramService.mediaRecorder d <> None ->
  DeepgramService.mediaRecorder (DeepgramService.stopRecorder d)
  = Some inactive.
Proof.
  unfold DeepgramService.stopRecorder.
  now destruct (DeepgramService.mediaRecorder d) as [[]|] eqn:E.
Qed.

Ltac capture_frame :=
  hook_unfold; split_ifs; constructor; cbn; rewrite ?filter_app; cbn;
  rewrite ?app_nil_r; try reflexivity;
  first [ apply resumeListening_stream | apply resumeListening_recorder
        | left; reflexivity ].

Lemma same_capture_refl s : same_capture s s.
Proof. constructor; auto. Qed.

Lemma processUserMessage_capture muted m s :
  same_capture s (processUserMessage callbacks muted m s).
Proof. capture_frame. Qed.

Lemma processUserMessage_resume_capture muted o s :
  same_capture s (processUserMessage_resume muted o s).
Proof. capture_frame. Qed.

Lemma speak_resume_capture text who o s :
  same_capture s (speak_resume text who o s).
Proof. capture_frame. Qed.

Lemma utterance_handler_capture who s :
  same_capture s (utterance_handler who s).
Proof. capture_frame. Qed.

Lemma muteAudio_capture s : same_capture s (muteAudio s).
Proof. capture_frame. Qed.

Lemma sendInitialGreeting_resume_capture muted s :
  same_capture s (sendInitialGreeting_resume callbacks muted s).
Proof. capture_frame. Qed.

Lemma capture_same s s' : same_capture s s' -> capture_inv s -> capture_inv s'.
Proof.
  intros [E1 E2 E3 E4 E5] (C1 & C2 & C3). unfold capture_inv, count.
  rewrite E1, E2, E3, E5.
  assert (N : DeepgramService.mediaRecorder (deepgram s') <> None ->
              DeepgramService.mediaRecorder (deepgram s) <> None)
    by (destruct E4 as [->|[-> _]]; [auto|discriminate]).
  splits.
  - destruct C1 as [C1|(C1 & C1' & C1'')]; [now left|right]. splits; auto.
    rewrite C1'' in E3, E4. destruct (deepgram s') as [r st]. cbn in *.
    destruct E4 as [->|[? _]]; [now rewrite E3|discriminate].
  - intros L. specialize (C2 L).
    destruct E4 as [->|[_ ->]]; [exact C2|discriminate].
  - auto.
Qed.

Lemma capture_resumeCaller_true s k :
  isInitializedRef s = true -> capture_inv s ->
  isInitializedRef (resumeCaller true s k) = true
  /\ capture_inv (resumeCaller true s k).
Proof.
  intros I C. split.
  - now rewrite (sn_initialized (resumeCaller_connection true s k)).
  - destruct k; cbn [resumeCaller]; [exact C|].
    destruct C as (_ & C2 & C3).
    unfold startListening_connected.
    destruct (isListeningRef s) eqn:L; [unfold capture_inv; splits; auto|].
    destruct (DeepgramService.stream (deepgram s)) eqn:St.
    + unfold capture_inv, startListening_capture,
        DeepgramService.startRecorder.
      destruct (DeepgramService.mediaRecorder (deepgram s)) as [[]|] eqn:M;
        cbn; rewrite ?M, ?St; splits; auto; intros; congruence.
    + unfold capture_inv, await. cbn. rewrite L. splits; auto. intros H. apply C3 in H. discriminate.
Qed.

Lemma capture_resumeCaller_false s k :
  capture_inv s -> capture_inv (resumeCaller false s k).
Proof. intros C. destruct k; exact C. Qed.

Lemma capture_initialize_settled p o s :
  capture_inv s -> capture_inv (initialize_settled p o s).
Proof.
  intros C. unfold initialize_settled, resumeWaiters. destruct o.
  - match goal with
    | |- capture_inv (fold_left _ ?ks ?s0) =>
        enough (isInitializedRef (fold_left (resumeCaller true) ks s0) = true
                /\ capture_inv (fold_left (resumeCaller true) ks s0)) by tauto;
        apply (fold_resumeCaller_inv
                 (fun x => isInitializedRef x = true /\ capture_inv x))
    end.
    + intros s1 k [I1 C1]. now apply capture_resumeCaller_true.
    + split; [reflexivity|]. destruct C as (_ & C2 & C3).
      unfold capture_inv. cbn. splits; auto.
  - apply fold_resumeCaller_inv; [intros; now apply capture_resumeCaller_false|].
    destruct C as (C1 & C2 & C3). unfold capture_inv. cbn. splits; auto.
    destruct C1 as [C1|(C1 & C1' & C1'')]; [now left|right].
    splits; auto. unfold count in *.
    rewrite <- C1. clear. induction (pending s) as [|t l IH]; [reflexivity|].
    cbn. destruct t; cbn; rewrite ?IH; try reflexivity.
    destruct (p =? p0); cbn; now rewrite ?IH.
Qed.

Lemma capture_startListening s : capture_inv s -> capture_inv (startListening s).
Proof.
  intros C. unfold startListening, awaitInitialization, initializeIfNeeded.
  cbn. destruct (isInitializedRef s) eqn:I.
  - exact (proj2 (@capture_resumeCaller_true (setError None s) StartListening
                    I C)).
  - destruct C as ([C1|(C1 & C1' & C1'')] & C2 & C3); [congruence|].
    destruct (initializationPromiseRef s);
      unfold capture_inv, await; cbn; rewrite ?count_app, ?count_cons, ?count_nil;
      cbn; rewrite C1, C1', C1''; cbn; splits; auto; try discriminate;
      right; auto.
Qed.

Lemma capture_stopListening s : capture_inv s -> capture_inv (stopListening s).
Proof.
  intros C. unfold stopListening.
  destruct (isListeningRef s) eqn:L; cbn [negb]; [|exact C].
  destruct C as (C1 & C2 & C3).
  specialize (C2 L).
  assert (I : isInitializedRef s = true)
    by (destruct C1 as [|(_ & ? & _)]; congruence).
  unfold capture_inv, await, DeepgramService.stopRecorder. cbn.
  destruct (DeepgramService.mediaRecorder (deepgram s)) as [[]|] eqn:M;
    cbn; rewrite ?M; splits; auto; congruence.
Qed.

Lemma capture_step a s s' :
  capture_inv s -> step callbacks a s = Some s' -> capture_inv s'.
Proof.
  intros C H. destruct a; cbn [step] in H.
  - injection H as <-.
    eapply capture_same; [apply processUserMessage_capture|exact C].
  - injection H as <-. now apply capture_startListening.
  - injection H as <-. now apply capture_stopListening.
  - injection H as <-. eapply capture_same; [apply muteAudio_capture|exact C].
  - injection H as <-. exact C.
  - injection H as <-. unfold capture_inv, sendInitialGreeting, await. cbn.
    rewrite count_app, count_cons, count_nil. cbn. now rewrite Nat.add_0_r.
  - destruct (nth_error (pending s) i) as [t|] eqn:E; [|discriminate].
    pose proof (count_remove_nth isMedia _ _ E) as R.
    assert (C1 : (isInitializedRef s = true
                  \/ (count isMedia (remove_nth i (pending s)) = 0
                      /\ isMedia t = false /\ isListeningRef s = false
                      /\ deepgram s = DeepgramService.new))
                 /\ (isListeningRef s = true ->
                     DeepgramService.mediaRecorder (deepgram s) <> None)
                 /\ (DeepgramService.mediaRecorder (deepgram s) <> None ->
                     DeepgramService.stream (deepgram s) = true)).
    { destruct C as (C1 & C2 & C3). split; [|now split].
      destruct C1 as [C1|(C1 & C1' & C1'')]; [now left|right].
      rewrite C1 in R. destruct (isMedia t); [discriminate|].
      splits; auto; lia. }
    clear C R E.
    assert (C0 : isMedia t = false ->
                 capture_inv (setPending (remove_nth i (pending s)) s)).
    { intros M. unfold capture_inv. cbn. destruct C1 as ([|] & ? & ?);
        splits; auto. right. tauto. }
    destruct t; cbn [resume] in H; try discriminate;
      try (destruct o; [|discriminate]); try injection H as <-;
      try specialize (C0 eq_refl).
    + now apply capture_initialize_settled.
    + eapply capture_same; [apply processUserMessage_resume_capture|exact C0].
    + eapply capture_same; [apply speak_resume_capture|exact C0].
    + destruct C1 as ([I|(_ & M & _)] & C2 & C3); [|discriminate].
      destruct o.
      * unfold capture_inv, startListening_resume, startListening_capture,
          DeepgramService.startRecorder, DeepgramService.withStream.
        cbn. destruct (DeepgramService.mediaRecorder (deepgram s)) as [[]|];
          cbn; splits; auto; intros; congruence.
      * unfold capture_inv. cbn. splits; auto.
    + destruct C0 as (C1' & C2 & C3). unfold capture_inv, stopListening_resume.
      cbn. splits; [|discriminate|exact C3].
      destruct C1' as [|(? & ? & ?)]; [left|right]; auto.
    + eapply capture_same; [apply sendInitialGreeting_resume_capture|exact C0].
    + now apply capture_startListening.
  - destruct (queue s) as [|who q]; [discriminate|]. injection H as <-.
    eapply capture_same; [apply utterance_handler_capture|exact C].
  - destruct (cancelled s) as [|who c]; [discriminate|]. injection H as <-.
    eapply capture_same; [apply utterance_handler_capture|exact C].
Qed.

Lemma capture_reachable s : reachable callbacks s -> capture_inv s.
Proof.
  revert s. apply (@reachable_ind _ callbacks capture_inv).
  - unfold capture_inv. cbn. splits; auto; try discriminate.
  - intros a s0 s' _. apply capture_step.
Qed.

End Listening.

Section Capture.

Context {runtime : Runtime}.
Variable callbacks : ChatServiceCallbacks.

Lemma In_count {A} (f : A -> bool) x l :
  In x l -> f x = true -> count f l <> 0.
Proof. intros H F. pose proof (count_In f x l H F). lia. Qed.

(** X6.  The microphone follows the connection: in every reachable
    state, a pending request for the microphone, a stream, a recorder or
    the listening flag imply that the transcription connection was
    established; and while the hook is listening the stream is there
    and the recorder is recording or stopped, never paused. *)
Theorem capture_follows_connection s :
  reachable callbacks s ->
  (In getUserMedia (pending s) \/ isListeningRef s = true
   \/ DeepgramService.stream (deepgram s) = true
   \/ DeepgramService.mediaRecorder (deepgram s) <> None ->
   isConnected s = true)
  /\ (isListeningRef s = true ->
      DeepgramService.stream (deepgram s) = true
      /\ (DeepgramService.mediaRecorder (deepgram s) = Some recording
          \/ DeepgramService.mediaRecorder (deepgram s) = Some inactive)).
Proof.
  intros R. destruct (capture_reachable R) as (C1 & C2 & C3).
  destruct (connection_reachable R) as [E _].
  pose proof (recorder_never_paused R) as P. unfold capturing in P. split.
  - intros H. rewrite E. destruct C1 as [C1|(C1 & C1' & C1'')]; [exact C1|].
    exfalso. rewrite C1'' in H. cbn in H.
    destruct H as [H|[H|[H|H]]]; try congruence.
    now apply (In_count isMedia _ _ H).
  - intros L. specialize (C2 L). split; [auto|].
    destruct (DeepgramService.mediaRecorder (deepgram s)) as [[]|];
      auto; congruence.
Qed.

(** X7.  The microphone denied.  With the connection made, the hook not
    listening and no stream yet, [startListening] clears the error and
    suspends on the request for the microphone; if the request is
    denied the error is 'Failed to start listening', the hook is not
    listening, nothing is left suspended and the recorder and the
    stream are as before.  The adapter is not as before: it has lost
    its text and holds the callbacks of this call, whatever the answer,
    and has made no recorder and registered no handler. *)
Theorem denied_microphone_is_reported s :
  isInitializedRef s = true -> isListeningRef s = false ->
  DeepgramService.stream (deepgram s) = false ->
  step callbacks call_startListening s
  = Some (await getUserMedia (setError None s))
  /\ (exists s2,
        run callbacks
          [call_startListening; settle (List.length (pending s)) rejected] s
        = Some s2
        /\ isListeningRef s2 = false
        /\ DeepgramService.mediaRecorder (deepgram s2)
           = DeepgramService.mediaRecorder (deepgram s)
        /\ DeepgramService.stream (deepgram s2) = false
        /\ error s2 = Some (lit "Failed to start listening")
        /\ pending s2 = pending s)
  /\ (forall d,
        DeepgramService.stream (Transcription.device d) = false ->
        let d' :=
          Transcription.run [Transcription.start; Transcription.answer false] d
        in
        Transcription.device d' = Transcription.device d
        /\ Transcription.currentTranscript d' = []
        /\ Transcription.onTranscriptCallback d' = true
        /\ Transcription.onUtteranceEndCallback d' = true
        /\ Transcription.transcriptHandlers d'
           = Transcription.transcriptHandlers d).
Proof.
  intros I L St.
  assert (E : step callbacks call_startListening s
              = Some (await getUserMedia (setError None s))).
  { cbn [step]. unfold startListening, awaitInitialization,
      initializeIfNeeded. cbn. rewrite I. cbn. unfold startListening_connected.
    cbn. now rewrite L, St. }
  split; [exact E|]. split.
  - cbn [run]. rewrite E. cbn iota beta.
    rewrite (@step_settle_last _ callbacks getUserMedia _ (pending s))
      by reflexivity.
    cbn [resume]. eexists. split; [reflexivity|]. cbn. now splits.
  - intros d Sd. cbn. unfold Transcription.startListening. cbn.
    rewrite Sd. cbn. now splits.
Qed.

(** X8.  Stopping keeps the microphone stream: in a reachable state in
    which the hook is listening, a stop (with its 500 ms) followed by a
    start makes no request for the microphone and leaves nothing
    suspended; the hook is listening again at once, with a recording
    recorder. *)
Theorem restart_needs_no_permission s v :
  reachable callbacks s -> isListeningRef s = true ->
  exists s',
    run callbacks
      [call_stopListening; settle (List.length (pending s)) (fulfilled v);
       call_startListening] s = Some s'
    /\ isListeningRef s' = true
    /\ DeepgramService.mediaRecorder (deepgram s') = Some recording
    /\ DeepgramService.stream (deepgram s') = true
    /\ pending s' = pending s.
Proof.
  intros R L. destruct (capture_reachable R) as (C1 & C2 & C3).
  assert (I : isInitializedRef s = true)
    by (destruct C1 as [|(_ & ? & _)]; congruence).
  pose proof (C3 (C2 L)) as St.
  cbn [run step]. unfold stopListening. rewrite L. cbn [negb].
  unfold await. cbn. rewrite nth_error_snoc, remove_nth_snoc. cbn.
  eexists. split; [reflexivity|].
  unfold startListening, awaitInitialization, initializeIfNeeded. cbn.
  rewrite I. cbn. unfold startListening_connected. cbn.
  rewrite stopRecorder_stream, St. unfold startListening_capture. cbn.
  now rewrite startRecorder_recorder, startRecorder_stream,
    stopRecorder_stream.
Qed.

(** X9.  A start during the 500 ms of a stop is lost: [isListeningRef]
    is still set, so [startListening] returns without starting the
    recorder, and when the delay is over the hook is not listening and
    the recorder is stopped. *)
Theorem start_while_stopping_is_lost s v :
  reachable callbacks s -> isListeningRef s = true ->
  exists s',
    run callbacks
      [call_stopListening; call_startListening;
       settle (List.length (pending s)) (fulfilled v)] s = Some s'
    /\ isListeningRef s' = false
    /\ DeepgramService.mediaRecorder (deepgram s') = Some inactive
    /\ pending s' = pending s.
Proof.
  intros R L. destruct (capture_reachable R) as (C1 & C2 & C3).
  assert (I : isInitializedRef s = true)
    by (destruct C1 as [|(_ & ? & _)]; congruence).
  pose proof (recorder_never_paused R) as P. unfold capturing in P.
  specialize (C2 L).
  cbn [run step]. unfold stopListening. rewrite L. cbn [negb].
  unfold startListening, awaitInitialization, initializeIfNeeded. cbn.
  rewrite I. cbn. unfold startListening_connected. cbn. rewrite L.
  unfold await. cbn. rewrite nth_error_snoc, remove_nth_snoc. cbn.
  eexists. split; [reflexivity|]. cbn. splits; auto.
  now apply stopRecorder_recorder.
Qed.

(** X10.  No reachable state has anything for [resumeListening] to
    resume: the call at the end of a turn leaves the adapter as it is,
    and pausing then resuming is the identity on such an adapter. *)
Theorem resumeListening_finds_nothing_to_resume s :
  reachable callbacks s ->
  DeepgramService.resumeListening (deepgram s) = deepgram s
  /\ DeepgramService.resumeListening
       (DeepgramService.pauseListening (deepgram s)) = deepgram s.
Proof.
  intros R. pose proof (recorder_never_paused R) as P. unfold capturing in P.
  unfold DeepgramService.resumeListening, DeepgramService.pauseListening,
    DeepgramService.withRecorder.
  destruct (deepgram s) as [[[]|] st]; cbn in *; auto; congruence.
Qed.

(** *** The error *)

Lemma error_kept s s' :
  error s' = error s \/ error s' <> None -> error s <> None ->
  error s' <> None.
Proof. intros [->|H] E; auto. Qed.

Lemma error_fold_resumeCaller ks s :
  error (fold_left (resumeCaller true) ks s) = error s.
Proof.
  revert s. induction ks as [|k ks IH]; intros s; [reflexivity|].
  cbn [fold_left]. rewrite IH. destruct k; cbn; [reflexivity|].
  unfold startListening_connected, startListening_capture, await.
  now split_ifs.
Qed.

Ltac error_solve :=
  hook_unfold; split_ifs; first [ left; reflexivity | right; discriminate ].

(** X11.  An error is cleared by [startListening] only (called by the
    presentation layer or by the timer after the greeting): after every
    other step an error that was set is still set, so a later turn that
    succeeds does not remove it. *)
Theorem error_is_cleared_by_startListening_only a s s' :
  step callbacks a s = Some s' -> startsListening a s = false ->
  error s <> None -> error s' <> None.
Proof.
  intros H N E. apply (@error_kept s s'); [|exact E]. clear E.
  destruct a; cbn [step] in H; cbn [startsListening] in N; try discriminate.
  - injection H as <-. error_solve.
  - injection H as <-. error_solve.
  - injection H as <-. error_solve.
  - injection H as <-. now left.
  - injection H as <-. now left.
  - destruct (nth_error (pending s) i) as [t|]; [|discriminate].
    destruct t; cbn [resume] in H; try discriminate;
      try (destruct o; [|discriminate]); cbn in N; try discriminate;
      try injection H as <-.
    + destruct o.
      * left. unfold initialize_settled, resumeWaiters.
        now rewrite error_fold_resumeCaller.
      * right. apply initialize_rejected.
    + error_solve.
    + error_solve.
    + error_solve.
    + now left.
    + error_solve.
  - destruct (queue s); [discriminate|]. injection H as <-. error_solve.
  - destruct (cancelled s); [discriminate|]. injection H as <-. error_solve.
Qed.

End Capture.

(** ** One attempt, one outcome for all *)

Section SharedOutcome.

Context {runtime : Runtime}.
Variable callbacks : ChatServiceCallbacks.

(** *** Every waiting caller goes on with the outcome *)

Lemma callers_startWaiter p l :
  Forall (eq p) (awaited l) ->
  count isStartListening (callers (filter (awaits p) l)) = count startWaiter l.
Proof.
  induction l as [|t l IH]; intros F; [reflexivity|].
  destruct t; cbn in *; rewrite ?count_cons; cbn; auto.
  inversion F; subst. rewrite Nat.eqb_refl. cbn.
  rewrite !count_cons, IH by assumption. now destruct k.
Qed.

Lemma startWaiter_remove i l p :
  nth_error l i = Some (deepgram_initialize p) ->
  count startWaiter (remove_nth i l) = count startWaiter l.
Proof. intros E. now rewrite (count_remove_nth startWaiter _ _ E). Qed.

(** After a success every waiting [startListening] finds the hook not
    listening and the adapter without a stream, and asks for the
    microphone. *)
Lemma fold_resumeCaller_true ks : forall s,
  isListeningRef s = false -> DeepgramService.stream (deepgram s) = false ->
  let s' := fold_left (resumeCaller true) ks s in
  pending s' = pending s ++ repeat getUserMedia (count isStartListening ks)
  /\ isListeningRef s' = false /\ error s' = error s
  /\ deepgram s' = deepgram s.
Proof.
  induction ks as [|k ks IH]; intros s L St; cbn zeta.
  - cbn. rewrite app_nil_r. now splits.
  - cbn [fold_left]. rewrite count_cons. destruct k; cbn [resumeCaller isStartListening].
    + now apply IH.
    + unfold startListening_connected. rewrite L, St.
      destruct (IH (await getUserMedia s) L St) as (P & L' & E & D).
      cbn zeta in *. rewrite P, L', E, D. cbn. rewrite <- app_assoc.
      now splits.
Qed.

(** After a failure every waiting [startListening] reports it; the
    mount effect swallows it. *)
Lemma fold_resumeCaller_false ks : forall s,
  let s' := fold_left (resumeCaller false) ks s in
  pending s' = pending s /\ isListeningRef s' = isListeningRef s
  /\ deepgram s' = deepgram s
  /\ error s'
     = if 0 <? count isStartListening ks
       then Some (lit "Failed to start listening")
       else error s.
Proof.
  induction ks as [|k ks IH]; intros s; cbn zeta.
  - cbn. now splits.
  - cbn [fold_left]. rewrite count_cons. destruct k; cbn [resumeCaller isStartListening].
    + apply IH.
    + destruct (IH (startListening_catch s)) as (P & L & D & E).
      cbn zeta in *. rewrite P, L, D, E. splits; auto.
      change (0 <? 1 + count isStartListening ks) with true.
      now destruct (0 <? count isStartListening ks).
Qed.

(** C3.  In every reachable state: (1) at most one attempt of
    [deepgram.initialize()] is pending; (2) every caller suspended in
    [initializeIfNeeded] awaits the promise of that one attempt, which
    is the cached one; (3) no step taken while an attempt is cached or
    has succeeded makes another attempt; (4) when the attempt fails,
    the cache is cleared, no caller is left waiting and every waiting
    caller goes on with the failure: no request for the microphone is
    made, the hook is not listening, and the error is the one of
    [startListening] if a call of it was waiting and the one of the
    connection otherwise (the mount effect swallows the failure); the
    next [initializeIfNeeded] makes a fresh attempt; (5) when it
    succeeds, the connected signal is set, no caller is left waiting
    and every waiting call of [startListening] goes on with the
    success: each asks for the microphone, so as many requests are
    pending as calls were waiting, and the error is as before;
    [initializeIfNeeded] returns at once from then on; (6) any
    number [n] of calls of [startListening] made while the attempt is
    pending make no attempt and leave [n] more callers awaiting it. *)
Theorem initialization_is_shared s :
  reachable callbacks s ->
  List.length (attempts (pending s)) <= 1
  /\ (forall q,
        In q (awaited (pending s)) ->
        attempts (pending s) = [q] /\ initializationPromiseRef s = Some q)
  /\ (forall a s',
        isInitializedRef s = true \/ initializationPromiseRef s <> None ->
        step callbacks a s = Some s' -> initAttempts s' = initAttempts s)
  /\ (forall i p,
        nth_error (pending s) i = Some (deepgram_initialize p) ->
        exists s',
          step callbacks (settle i rejected) s = Some s'
          /\ initializationPromiseRef s' = None
          /\ isInitializedRef s' = false /\ isConnected s' = false
          /\ error s' <> None
          /\ attempts (pending s') = [] /\ awaited (pending s') = []
          /\ fst (initializeIfNeeded s') = Some (initAttempts s')
          /\ initAttempts (snd (initializeIfNeeded s')) = S (initAttempts s')
          /\ attempts (pending (snd (initializeIfNeeded s')))
             = [initAttempts s']
          /\ error s'
             = Some (if 0 <? count startWaiter (pending s)
                     then lit "Failed to start listening"
                     else lit "Failed to connect to speech services")
          /\ count isMedia (pending s') = 0
          /\ isListeningRef s' = false
          /\ deepgram s' = deepgram s)
  /\ (forall i p v,
        nth_error (pending s) i = Some (deepgram_initialize p) ->
        exists s',
          step callbacks (settle i (fulfilled v)) s = Some s'
          /\ isConnected s' = true /\ isInitializedRef s' = true
          /\ attempts (pending s') = [] /\ awaited (pending s') = []
          /\ initializeIfNeeded s' = (None, s')
          /\ count isMedia (pending s') = count startWaiter (pending s)
          /\ pending s'
             = filter (fun t => negb (awaits p t)) (remove_nth i (pending s))
               ++ repeat getUserMedia (count startWaiter (pending s))
          /\ error s' = error s
          /\ isListeningRef s' = false
          /\ deepgram s' = deepgram s)
  /\ (forall n p,
        attempts (pending s) = [p] ->
        exists s',
          run callbacks (repeat call_startListening n) s = Some s'
          /\ initAttempts s' = initAttempts s
          /\ attempts (pending s') = [p]
          /\ awaited (pending s') = awaited (pending s) ++ repeat p n).
Proof.
  intros R. pose proof (connection_reachable R) as C.
  pose proof (capture_reachable R) as K.
  assert (S : forall i p o,
             nth_error (pending s) i = Some (deepgram_initialize p) ->
             isInitializedRef s = false /\ isConnected s = false
             /\ Forall (eq p) (awaited (remove_nth i (pending s)))
             /\ count isMedia (remove_nth i (pending s)) = 0
             /\ isListeningRef s = false
             /\ deepgram s = DeepgramService.new
             /\ exists s',
                  step callbacks (settle i o) s = Some s'
                  /\ s' = initialize_settled p o
                            (setPending (remove_nth i (pending s)) s)
                  /\ connection_inv s').
  { intros i p o E.
    assert (St : step callbacks (settle i o) s
                 = Some (initialize_settled p o
                           (setPending (remove_nth i (pending s)) s)))
      by (cbn [step]; now rewrite E).
    destruct (attempt_remove _ _ E) as (a & b & E1 & _ & E3).
    destruct C as [C0 C']. destruct (isInitializedRef s) eqn:I.
    { destruct C' as (A & _). rewrite A in E1. now destruct a. }
    destruct K as ([K1|(K1 & K2 & K3)] & _); [congruence|].
    assert (F : Forall (eq p) (awaited (remove_nth i (pending s)))).
    { rewrite E3. destruct (initializationPromiseRef s) as [q|].
      - destruct C' as (A & W & _). rewrite A in E1.
        destruct a as [|x [|y a]]; try discriminate.
        now injection E1 as ->.
      - destruct C' as (A & _). rewrite A in E1. now destruct a. }
    assert (M : count isMedia (remove_nth i (pending s)) = 0).
    { rewrite (count_remove_nth isMedia _ _ E) in K1. cbn in K1. exact K1. }
    splits; auto. eexists. splits; [exact St|reflexivity|].
    apply (@connection_reachable _ callbacks). eapply reachable_step; eassumption. }
  splits.
  - destruct C as [_ C]. destruct (isInitializedRef s).
    + destruct C as (-> & _). cbn; lia.
    + destruct (initializationPromiseRef s); destruct C as (-> & _); cbn; lia.
  - intros q I. destruct C as [_ C]. destruct (isInitializedRef s).
    + destruct C as (_ & W & _). now rewrite W in I.
    + destruct (initializationPromiseRef s).
      * destruct C as (A & W & _). rewrite Forall_forall in W.
        now rewrite <- (W _ I).
      * destruct C as (_ & W). now rewrite W in I.
  - intros a s' Hc H. exact (initAttempts_step _ _ _ Hc H).
  - intros i p E.
    destruct (S i p rejected E)
      as (I0 & C0 & F & M & L & D & s' & St & -> & C').
    eexists. split; [exact St|].
    destruct (initialize_rejected p (setPending (remove_nth i (pending s)) s))
      as (I & Cn & P & _ & Er).
    cbn in I, Cn. rewrite I0 in I. rewrite C0 in Cn.
    destruct C' as [_ C']. rewrite I, P in C'. destruct C' as [A W].
    unfold initializeIfNeeded. rewrite I, P. cbn.
    rewrite attempts_app, A.
    assert (X : error (initialize_settled p rejected
                         (setPending (remove_nth i (pending s)) s))
                = Some (if 0 <? count startWaiter (pending s)
                        then lit "Failed to start listening"
                        else lit "Failed to connect to speech services")
                /\ count isMedia
                     (pending (initialize_settled p rejected
                                 (setPending (remove_nth i (pending s)) s))) = 0
                /\ isListeningRef (initialize_settled p rejected
                                     (setPending (remove_nth i (pending s)) s))
                   = false
                /\ deepgram (initialize_settled p rejected
                               (setPending (remove_nth i (pending s)) s))
                   = deepgram s).
    { unfold initialize_settled, resumeWaiters.
      match goal with
      | |- context [fold_left _ ?ks ?s0] =>
          destruct (@fold_resumeCaller_false ks s0) as (X1 & X2 & X3 & X4)
      end.
      cbn zeta in *. rewrite X1, X2, X3, X4. cbn.
      rewrite (@callers_startWaiter p _ F), (@startWaiter_remove i _ p E).
      splits; auto.
      - now destruct (count startWaiter (pending s)).
      - rewrite <- M. unfold count. f_equal.
        generalize (remove_nth i (pending s)). intros l.
        induction l as [|t l IH]; [reflexivity|]. cbn.
        destruct t; cbn; rewrite ?IH; try reflexivity.
        destruct (p =? p0); cbn; now rewrite ?IH. }
    destruct X as (X1 & X2 & X3 & X4). splits; auto.
  - intros i p v E.
    destruct (S i p (fulfilled v) E)
      as (I0 & C0 & F & M & L & D & s' & St & -> & C').
    eexists. split; [exact St|].
    destruct (initialize_fulfilled p v (setPending (remove_nth i (pending s)) s))
      as (I & Cn & _).
    destruct C' as [_ C']. rewrite I in C'. destruct C' as (A & W & _).
    unfold initializeIfNeeded. rewrite I.
    assert (X : pending (initialize_settled p (fulfilled v)
                           (setPending (remove_nth i (pending s)) s))
                = filter (fun t => negb (awaits p t)) (remove_nth i (pending s))
                  ++ repeat getUserMedia (count startWaiter (pending s))
                /\ isListeningRef (initialize_settled p (fulfilled v)
                                     (setPending (remove_nth i (pending s)) s))
                   = false
                /\ error (initialize_settled p (fulfilled v)
                            (setPending (remove_nth i (pending s)) s))
                   = error s
                /\ deepgram (initialize_settled p (fulfilled v)
                               (setPending (remove_nth i (pending s)) s))
                   = deepgram s).
    { unfold initialize_settled, resumeWaiters.
      match goal with
      | |- context [fold_left _ ?ks ?s0] =>
          destruct (@fold_resumeCaller_true ks s0) as (X1 & X2 & X3 & X4);
            [exact L|cbn; now rewrite D|]
      end.
      cbn zeta in *. rewrite X1, X2, X3, X4. cbn.
      rewrite (@callers_startWaiter p _ F), (@startWaiter_remove i _ p E).
      now splits. }
    destruct X as (X1 & X2 & X3 & X4). splits; auto.
    rewrite X1, count_app.
    assert (Z : count isMedia
                  (filter (fun t => negb (awaits p t))
                     (remove_nth i (pending s))) = 0).
    { rewrite <- M. unfold count. f_equal.
      generalize (remove_nth i (pending s)). intros l.
      induction l as [|t l IH]; [reflexivity|]. cbn.
      destruct t; cbn; rewrite ?IH; try reflexivity.
      destruct (p =? p0); cbn; now rewrite ?IH. }
    rewrite Z. cbn. generalize (count startWaiter (pending s)). intros n.
    induction n as [|n IH]; [reflexivity|].
    cbn [repeat]. rewrite count_cons. cbn. now rewrite IH.
  - intros n p A. destruct C as [_ C].
    destruct (isInitializedRef s) eqn:I.
    { destruct C as (A0 & _). congruence. }
    destruct (initializationPromiseRef s) as [q|] eqn:P.
    2:{ destruct C as (A0 & _). congruence. }
    destruct C as (A0 & _). assert (q = p) as -> by congruence.
    destruct (callers_join callbacks n _ I P) as (s' & Rn & _ & _ & N & A' & W).
    exists s'. splits; auto. congruence.
Qed.

End SharedOutcome.

(** ** The greeting *)

Section Greeting.

Context {runtime : Runtime}.
Variable callbacks : ChatServiceCallbacks.

Lemma history_nonempty s :
  reachable callbacks s -> conversationHistory s <> [].
Proof.
  intros [acts R]. destruct (extends_run callbacks _ _ R) as [rest E].
  cbn in E. now rewrite E.
Qed.

(** X12.  The greeting, in any reachable state and whatever the guard:
    after the 100 ms the history has one more entry, the greeting as the
    assistant (the fallback system prompt is never used: the history is
    never empty); the presentation layer gets [onResponse] with the
    greeting and then [onSpeakingComplete]; the in-flight guard and the
    last key are as before; what is left suspended is the 500 ms timer,
    and when it fires the hook calls [startListening]. *)
Theorem greeting_then_auto_start s muted v :
  reachable callbacks s ->
  exists s',
    run callbacks (greeting s muted) s = Some s'
    /\ conversationHistory s'
       = conversationHistory s
         ++ [{| role := assistant; content := greetingMessage callbacks |}]
    /\ notifications s'
       = notifications s
         ++ [OnResponse (greetingMessage callbacks); OnSpeakingComplete]
    /\ processingRef s' = processingRef s
    /\ lastProcessedMessageRef s' = lastProcessedMessageRef s
    /\ pending s' = pending s ++ [autoStart_delay]
    /\ step callbacks (settle (List.length (pending s)) (fulfilled v)) s'
       = Some (startListening (setPending (pending s) s')).
Proof.
  intros R. pose proof (history_nonempty R) as N.
  unfold greeting. cbn [app run].
  change (step callbacks (call_sendInitialGreeting muted) s)
    with (Some (sendInitialGreeting muted s)). cbn iota beta.
  rewrite (@step_settle_last _ callbacks (greeting_delay muted) _ (pending s))
    by reflexivity.
  cbn [resume]. unfold sendInitialGreeting_resume.
  destruct muted; cbn [negb andb].
  - cbn [run]. eexists. split; [reflexivity|].
    unfold onComplete, autoStart, await, sendInitialGreeting.
    unfold notifications. cbn. rewrite !filter_app. cbn.
    revert N; destruct (conversationHistory s); [congruence|intros _]; cbn;
      rewrite <- ?app_assoc. splits; auto.
    now rewrite nth_error_snoc, remove_nth_snoc.
  - unfold speak. destruct speechSynthesis_in_window; cbn [negb].
    + cbn [run].
      rewrite (@step_settle_last _ callbacks
                 (getVoices (greetingMessage callbacks) Greeting) _ (pending s))
        by reflexivity.
      cbn [resume]. cbn. eexists. split; [reflexivity|].
      unfold notifications. cbn. rewrite !filter_app. cbn.
      revert N; destruct (conversationHistory s); [congruence|intros _]; cbn;
      rewrite <- ?app_assoc.
      splits; auto. now rewrite nth_error_snoc, remove_nth_snoc.
    + cbn [run]. eexists. split; [reflexivity|].
      unfold afterSpeak, onComplete, autoStart, await, sendInitialGreeting.
      unfold notifications. cbn. rewrite !filter_app. cbn.
      revert N; destruct (conversationHistory s); [congruence|intros _]; cbn;
      rewrite <- ?app_assoc.
      splits; auto. now rewrite nth_error_snoc, remove_nth_snoc.
Qed.

End Greeting.

(** ** The view and the hook *)

Section View.

Context {runtime : Runtime}.
Variable callbacks : ChatServiceCallbacks.

Lemma render_snoc tr e :
  VoiceChat.render (tr ++ [e]) = VoiceChat.notify (VoiceChat.render tr) e.
Proof. unfold VoiceChat.render. now rewrite fold_left_app. Qed.

Lemma noRepeat_snoc l x :
  VoiceChat.noRepeat (l ++ [x])
  = VoiceChat.noRepeat l
    && match nth_error l (List.length l - 1) with
       | Some y => negb (VoiceChat.entry_eqb y x)
       | None => true
       end.
Proof.
  induction l as [|a [|b l] IH]; [reflexivity| |].
  - cbn. now rewrite !andb_true_r.
  - change ((a :: b :: l) ++ [x]) with (a :: (b :: l) ++ [x]).
    change (VoiceChat.noRepeat (a :: (b :: l) ++ [x]))
      with (negb (VoiceChat.entry_eqb a b)
            && VoiceChat.noRepeat ((b :: l) ++ [x])).
    rewrite IH. cbn [VoiceChat.noRepeat List.length].
    rewrite <- andb_assoc. do 2 f_equal.
    now rewrite !Nat.sub_succ, !Nat.sub_0_r.
Qed.

Lemma noRepeat_addMessage r text l :
  VoiceChat.noRepeat l = true ->
  VoiceChat.noRepeat (VoiceChat.addMessage r text l) = true.
Proof.
  intros H. unfold VoiceChat.addMessage.
  destruct (nth_error l (List.length l - 1)) as [y|] eqn:E.
  - destruct (VoiceChat.author_eqb (VoiceChat.role y) r
              && jseq (VoiceChat.content y) text) eqn:D; [exact H|].
    rewrite noRepeat_snoc, H, E. unfold VoiceChat.entry_eqb. cbn.
    now rewrite D.
  - now rewrite noRepeat_snoc, H, E.
Qed.

(** X13.  The messages shown never hold the same entry twice in a row,
    whatever the hook notifies and in whatever order. *)
Theorem messages_never_repeat tr :
  VoiceChat.noRepeat (VoiceChat.messages (VoiceChat.render tr)) = true.
Proof.
  induction tr as [|e tr IH] using rev_ind; [reflexivity|].
  rewrite render_snoc.
  destruct e; cbn [VoiceChat.notify VoiceChat.onUserMessage
    VoiceChat.onResponse VoiceChat.onSpeakingComplete VoiceChat.messages];
    auto using noRepeat_addMessage.
Qed.

(** *** The speaking indicator *)

Lemma isSpeaking_snoc tr e :
  VoiceChat.isSpeaking (VoiceChat.render (tr ++ [e]))
  = match e with
    | OnResponse _ => true
    | OnSpeakingComplete => false
    | _ => VoiceChat.isSpeaking (VoiceChat.render tr)
    end.
Proof. rewrite render_snoc. now destruct e. Qed.

Lemma speaking_same s s' :
  same_conversation s s' -> speaking_inv s -> speaking_inv s'.
Proof.
  intros H G. unfold speaking_inv.
  now rewrite (outstanding_same H), (sc_trace H).
Qed.

Ltac speaking_solve :=
  unfold speaking_inv, outstanding in *; hook_unfold; split_ifs;
  rewrite ?isSpeaking_snoc, ?count_app, ?count_cons, ?count_nil,
    ?length_app in *;
  cbn in *; intros;
  first [ discriminate | lia
        | match goal with
          | H : ?a -> _, A : ?a |- _ => specialize (H A); lia
          end ].

Lemma speaking_processUserMessage muted m s :
  speaking_inv s -> speaking_inv (processUserMessage callbacks muted m s).
Proof. intros G. speaking_solve. Qed.

Lemma speaking_processUserMessage_resume muted o s :
  speaking_inv s -> speaking_inv (processUserMessage_resume muted o s).
Proof. intros G. speaking_solve. Qed.

Lemma speaking_sendInitialGreeting_resume muted s :
  speaking_inv s ->
  speaking_inv (sendInitialGreeting_resume callbacks muted s).
Proof. intros G. speaking_solve. Qed.

Lemma speaking_muteAudio s : speaking_inv s -> speaking_inv (muteAudio s).
Proof. intros G. speaking_solve. Qed.

Lemma speaking_speak_resume text who o s :
  (VoiceChat.isSpeaking (VoiceChat.render (trace s)) = true ->
   1 <= S (outstanding s)) ->
  speaking_inv (speak_resume text who o s).
Proof. intros G. speaking_solve. Qed.

Lemma speaking_utterance_handler who s :
  speaking_inv (utterance_handler who s).
Proof. speaking_solve. Qed.

Lemma speaking_step a s s' :
  speaking_inv s -> step callbacks a s = Some s' -> speaking_inv s'.
Proof.
  intros G H. destruct a; cbn [step] in H.
  - injection H as <-. now apply speaking_processUserMessage.
  - injection H as <-.
    eapply speaking_same; [apply startListening_conversation|exact G].
  - injection H as <-.
    eapply speaking_same; [apply stopListening_conversation|exact G].
  - injection H as <-. now apply speaking_muteAudio.
  - injection H as <-. exact G.
  - injection H as <-. speaking_solve.
  - destruct (nth_error (pending s) i) as [t|] eqn:E; [|discriminate].
    pose proof (count_remove_nth isVoices _ _ E) as R.
    set (s1 := setPending (remove_nth i (pending s)) s) in *.
    assert (G1 : VoiceChat.isSpeaking (VoiceChat.render (trace s1)) = true ->
                 1 <= (if isVoices t then 1 else 0) + outstanding s1).
    { intros A. specialize (G A). unfold outstanding in *. unfold s1. cbn.
      lia. }
    clearbody s1. clear G R.
    destruct t as [p|p k|muted|text who| | |muted|];
      cbn [resume isVoices] in H, G1; try discriminate.
    + injection H as <-.
      eapply speaking_same; [apply initialize_settled_conversation|exact G1].
    + injection H as <-. now apply speaking_processUserMessage_resume.
    + injection H as <-. now apply speaking_speak_resume.
    + injection H as <-.
      eapply speaking_same; [apply startListening_resume_conversation|exact G1].
    + destruct o; [|discriminate]. injection H as <-.
      eapply speaking_same; [apply stopListening_resume_conversation|exact G1].
    + destruct o; [|discriminate]. injection H as <-.
      now apply speaking_sendInitialGreeting_resume.
    + destruct o; [|discriminate]. injection H as <-.
      eapply speaking_same; [apply startListening_conversation|exact G1].
  - destruct (queue s) as [|who q]; [discriminate|]. injection H as <-.
    apply speaking_utterance_handler.
  - destruct (cancelled s) as [|who c]; [discriminate|]. injection H as <-.
    apply speaking_utterance_handler.
Qed.

(** X14.  The speaking indicator of the view is on only while a
    completion is outstanding in the hook (a [speak] waiting for the
    voices, or an utterance queued or cancelled whose event is still to
    come): it cannot stay on with nothing left to turn it off. *)
Theorem speaking_indicator_has_a_completion_to_come s :
  reachable callbacks s ->
  VoiceChat.isSpeaking (VoiceChat.render (trace s)) = true ->
  1 <= outstanding s.
Proof.
  revert s. apply (@reachable_ind _ callbacks speaking_inv).
  - unfold speaking_inv. cbn. discriminate.
  - intros a s0 s' _. apply speaking_step.
Qed.

End View.

(** ** The application shell *)

Section Shell.

Lemma App_inv_step a st st' :
  App.inv st -> App.step a st = Some st' -> App.inv st'.
Proof.
  intros I H. unfold App.step, App.render in H.
  destruct st as [c f ui]. cbn in H.
  destruct a, c, f; cbn in H; try discriminate;
    try (destruct ui as [u|]; cbn in H); try discriminate;
    injection H as <-;
    try (destruct I as [C U]; split; [discriminate|exact U]).
  all: unfold App.handleFormSubmit;
    (destruct (truthy name && truthy gender) eqn:T; [|exact I]);
    apply andb_prop in T as [_ T]; split; cbn;
    [ intros _; split; [reflexivity|discriminate]
    | intros u' E; injection E as <-; cbn; now rewrite trim_trim ].
Qed.

Lemma App_inv_run acts st st' :
  App.inv st -> App.run acts st = Some st' -> App.inv st'.
Proof.
  revert st. induction acts as [|a acts IH]; intros st I H; cbn in H.
  - now injection H as <-.
  - destruct (App.step a st) as [st1|] eqn:E; [|discriminate].
    eapply IH; [eapply App_inv_step; eassumption|exact H].
Qed.

(** X15.  Whatever the user does from the landing page, the chat is
    shown only with an identity: [VoiceChat] is rendered with the name
    as submitted, trimmed, and a gender that is not empty; the form is
    closed whenever the chat is shown, and never is nothing rendered. *)
Theorem chat_is_shown_with_an_identity acts st :
  App.run acts App.initial = Some st ->
  App.render st <> App.Nothing
  /\ (App.showChat st = true -> App.showForm st = false)
  /\ forall userName userGender,
       App.render st = App.Chat userName userGender ->
       trim userName = userName /\ truthy userGender = true.
Proof.
  intros H.
  assert (I : App.inv App.initial)
    by (split; cbn; [discriminate|discriminate]).
  destruct (App_inv_run _ I H) as [C U]. unfold App.render.
  destruct st as [[] f [u|]]; cbn in *; splits; try discriminate;
    try (intros; now apply C); try (now destruct f).
  - intros n g E. injection E as <- <-. now apply U.
  - now destruct (C eq_refl) as [_ N].
Qed.

(** X16.  A name of blanks only passes the form (the check is on the
    untrimmed value): the chat is shown with the empty name, and the
    hook then greets with 'Hi , how are you?'. *)
Theorem blank_name_is_accepted name gender st :
  truthy name = true -> blank name = true -> truthy gender = true ->
  App.render (App.handleFormSubmit name gender st) = App.Chat [] gender
  /\ greetingMessage (App.callbacksOf [] gender) = lit "Hi , how are you?".
Proof.
  intros N B G. unfold App.handleFormSubmit, App.render. rewrite N, G. cbn.
  apply trim_blank in B. rewrite B. split; reflexivity.
Qed.

End Shell.

(** ** What the transcription adapter hears *)

Section Transcripts.

Import Transcription.

Lemma blank_false_truthy c : blank c = false -> truthy c = true.
Proof. now destruct c. Qed.

Lemma counts_iff c :
  truthy c && negb (jseq (trim c) []) = negb (blank c).
Proof.
  destruct (blank c) eqn:B.
  - apply trim_blank in B. rewrite B. cbn. now rewrite andb_false_r.
  - rewrite (blank_false_truthy _ B). cbn.
    destruct (jseq (trim c) []) eqn:J; [|reflexivity].
    apply jseq_true, trim_blank in J. congruence.
Qed.

Lemma transcriptHandler_skip c f d :
  f && negb (blank c) = false -> transcriptHandler c f d = d.
Proof.
  intros H. unfold transcriptHandler. rewrite counts_iff.
  destruct (negb (blank c)); [|reflexivity].
  rewrite andb_true_r in H. now rewrite H.
Qed.

Lemma iter_id {A} (g : A -> A) n x : g x = x -> Nat.iter n g x = x.
Proof.
  intros H. induction n; [reflexivity|].
  change (Nat.iter (S n) g x) with (g (Nat.iter n g x)). now rewrite IHn.
Qed.

Lemma iter_fields c k d :
  blank c = false ->
  let d' := Nat.iter k (transcriptHandler c true) d in
  currentTranscript d' = fold_left extend (repeat c k) (currentTranscript d)
  /\ transcriptHandlers d' = transcriptHandlers d
  /\ device d' = device d
  /\ onTranscriptCallback d' = onTranscriptCallback d
  /\ onUtteranceEndCallback d' = onUtteranceEndCallback d
  /\ List.length (calls d')
     = List.length (calls d) + (if onTranscriptCallback d then k else 0).
Proof.
  intros B. induction k as [|k IH]; cbn zeta.
  - cbn. splits; auto. destruct (onTranscriptCallback d); lia.
  - change (Nat.iter (S k) (transcriptHandler c true) d)
      with (transcriptHandler c true (Nat.iter k (transcriptHandler c true) d)).
    cbn zeta in IH. destruct IH as (I1 & I2 & I3 & I4 & I5 & I6).
    change (repeat c (S k)) with (c :: repeat c k).
    rewrite repeat_cons, fold_left_app. cbn [fold_left]. rewrite <- I1.
    generalize dependent (Nat.iter k (transcriptHandler c true) d).
    intros d1 I1 I2 I3 I4 I5 I6.
    unfold transcriptHandler. rewrite counts_iff, B. cbn -[lit].
    rewrite I4. destruct (onTranscriptCallback d); cbn -[lit];
      rewrite ?length_app; cbn; splits; auto; lia.
Qed.

Lemma transcriptEvent_skip c f d :
  f && negb (blank c) = false -> transcriptEvent c f d = d.
Proof. intros H. apply iter_id. now apply transcriptHandler_skip. Qed.

Lemma transcriptEvent_fields c f d :
  let d' := transcriptEvent c f d in
  currentTranscript d'
  = fold_left extend
      (if f && negb (blank c) then repeat c (transcriptHandlers d) else [])
      (currentTranscript d)
  /\ transcriptHandlers d' = transcriptHandlers d
  /\ device d' = device d
  /\ onTranscriptCallback d' = onTranscriptCallback d
  /\ onUtteranceEndCallback d' = onUtteranceEndCallback d.
Proof.
  cbn zeta. destruct (f && negb (blank c)) eqn:E.
  - apply andb_prop in E as [-> B]. apply negb_true_iff in B.
    destruct (@iter_fields c (transcriptHandlers d) d B) as (? & ? & ? & ? & ? & _).
    unfold transcriptEvent. now splits.
  - rewrite (@transcriptEvent_skip c f d E). now splits.
Qed.

Lemma hear_fields evs d :
  let d' := hear evs d in
  currentTranscript d'
  = fold_left extend
      (flat_map (fun c => repeat c (transcriptHandlers d)) (heard evs))
      (currentTranscript d)
  /\ transcriptHandlers d' = transcriptHandlers d
  /\ device d' = device d
  /\ onTranscriptCallback d' = onTranscriptCallback d
  /\ onUtteranceEndCallback d' = onUtteranceEndCallback d.
Proof.
  revert d. induction evs as [|[c f] evs IH]; intros d; cbn zeta.
  - cbn. now splits.
  - cbn [hear fold_left fst snd].
    destruct (transcriptEvent_fields c f d) as (E1 & E2 & E3 & E4 & E5).
    destruct (IH (transcriptEvent c f d)) as (I1 & I2 & I3 & I4 & I5).
    cbn zeta in *. unfold hear in *. rewrite I1, I2, I3, I4, I5, E1, E2.
    splits; auto. unfold heard. cbn [filter fst snd].
    destruct (f && negb (blank c)); cbn [map flat_map fst].
    + now rewrite fold_left_app.
    + reflexivity.
Qed.

Lemma truthy_app a b : truthy a = true -> truthy (a ++ b) = true.
Proof. now destruct a. Qed.

Lemma truthy_join c cs : truthy c = true -> truthy (join (c :: cs)) = true.
Proof. intros T. destruct cs; [exact T|]. now apply truthy_app. Qed.

Lemma join_cons c cs :
  cs <> [] -> join (c :: cs) = c ++ lit " " ++ join cs.
Proof. now destruct cs. Qed.

Lemma extend_join ys c :
  Forall (fun y => truthy y = true) ys ->
  extend (join ys) c = join (ys ++ [c]).
Proof.
  induction ys as [|a r IH]; intros F; [reflexivity|].
  inversion F as [|? ? Ta Fr]; subst. specialize (IH Fr).
  destruct r as [|b r'].
  - unfold extend. cbn [join app]. now rewrite Ta.
  - inversion Fr as [|? ? Tb Fr']; subst.
    change ((a :: b :: r') ++ [c]) with (a :: (b :: r') ++ [c]).
    rewrite (@join_cons a (b :: r')) by discriminate.
    rewrite (@join_cons a ((b :: r') ++ [c])) by discriminate.
    rewrite <- IH. unfold extend.
    rewrite (@truthy_app a (lit " " ++ join (b :: r')) Ta).
    rewrite (@truthy_join b r' Tb). now rewrite <- !app_assoc.
Qed.

Lemma fold_extend_join xs ys :
  Forall (fun y => truthy y = true) ys ->
  Forall (fun y => truthy y = true) xs ->
  fold_left extend xs (join ys) = join (ys ++ xs).
Proof.
  revert ys. induction xs as [|x xs IH]; intros ys Fy Fx.
  - now rewrite app_nil_r.
  - inversion Fx; subst. cbn [fold_left]. rewrite extend_join by assumption.
    rewrite IH; [now rewrite <- app_assoc| |assumption].
    apply Forall_app. split; [assumption|]. now constructor.
Qed.

Lemma heard_truthy evs : Forall (fun y => blank y = false) (heard evs).
Proof.
  unfold heard. induction evs as [|[c f] evs IH]; [constructor|].
  cbn [filter fst snd]. destruct f; cbn [andb]; [|exact IH].
  destruct (blank c) eqn:B; cbn [negb]; [exact IH|]. now constructor.
Qed.

(** X17.  What the adapter has heard: starting from no text, after any
    Transcript events the text is the final, non-blank transcripts
    joined by single spaces, each taken once for every handler
    registered; interim and blank transcripts leave no mark. *)
Theorem final_transcripts_are_joined evs d :
  currentTranscript d = [] ->
  currentTranscript (hear evs d)
  = join (flat_map (fun c => repeat c (transcriptHandlers d)) (heard evs)).
Proof.
  intros E. destruct (hear_fields evs d) as [H _]. cbn zeta in H.
  rewrite H, E. apply (@fold_extend_join _ []); [constructor|].
  apply Forall_flat_map. eapply Forall_impl; [|apply heard_truthy].
  intros c B. cbn beta in B. apply Forall_forall. intros x Hx.
  apply repeat_spec in Hx. subst. now apply blank_false_truthy.
Qed.

(** *** Handlers add up *)

Lemma restart_fields d :
  DeepgramService.stream (device d) = true ->
  DeepgramService.mediaRecorder (device d) = Some recording ->
  let d' := run [stop; stopped; start] d in
  DeepgramService.stream (device d') = true
  /\ DeepgramService.mediaRecorder (device d') = Some recording
  /\ transcriptHandlers d' = S (transcriptHandlers d)
  /\ currentTranscript d' = []
  /\ onTranscriptCallback d' = true
  /\ calls d' = calls d.
Proof.
  intros St M. destruct d as [[r st] ct c1 c2 k cs]. cbn in St, M. subst.
  cbn. now splits.
Qed.

Lemma restarts_fields n d :
  DeepgramService.stream (device d) = true ->
  DeepgramService.mediaRecorder (device d) = Some recording ->
  currentTranscript d = [] -> onTranscriptCallback d = true ->
  let d' := run (restarts n) d in
  transcriptHandlers d' = n + transcriptHandlers d
  /\ currentTranscript d' = []
  /\ onTranscriptCallback d' = true
  /\ calls d' = calls d.
Proof.
  revert d. induction n as [|n IH]; intros d St M C T; cbn zeta.
  - cbn. now splits.
  - destruct (@restart_fields d St M) as (R1 & R2 & R3 & R4 & R5 & R6).
    cbn zeta in *.
    change (run (restarts (S n)) d)
      with (run (restarts n) (run [stop; stopped; start] d)).
    destruct (IH _ R1 R2 R4 R5) as (I1 & I2 & I3 & I4). cbn zeta in *.
    rewrite I1, I2, I3, I4, R3, R6. splits; auto. lia.
Qed.

(** X18.  Every start after a stop makes a new recorder and registers
    one more handler for the Transcript event on the same connection:
    after [n] restarts there are [n + 1], and one final transcript is
    appended [n + 1] times and reported [n + 1] times. *)
Theorem handlers_add_up n c :
  blank c = false ->
  let d := run (start :: answer true :: restarts n) new in
  let d' := transcriptEvent c true d in
  transcriptHandlers d = S n
  /\ currentTranscript d' = join (repeat c (S n))
  /\ List.length (calls d') = S n.
Proof.
  intros B d d'.
  assert (F : transcriptHandlers d = n + 1 /\ currentTranscript d = []
              /\ onTranscriptCallback d = true /\ calls d = []).
  { subst d.
    change (run (start :: answer true :: restarts n) new)
      with (run (restarts n) (run [start; answer true] new)).
    apply (@restarts_fields n (run [start; answer true] new)); reflexivity. }
  destruct F as (F1 & F2 & F3 & F4).
  destruct (@iter_fields c (transcriptHandlers d) d B) as (I1 & _ & _ & _ & _ & I6).
  cbn zeta in *. subst d'. unfold transcriptEvent.
  rewrite I1, I6, F1, F2, F3, F4, Nat.add_1_r. splits; auto.
  apply (@fold_extend_join _ []); [constructor|].
  apply Forall_forall. intros x Hx. apply repeat_spec in Hx. subst.
  now apply blank_false_truthy.
Qed.

(** *** The end of an utterance *)

Lemma blank_extend t c : blank c = false -> blank (extend t c) = false.
Proof.
  intros B. unfold extend. rewrite !blank_app, B. now rewrite !andb_false_r.
Qed.

Lemma heard_step d a :
  (currentTranscript d = [] \/ blank (currentTranscript d) = false) ->
  currentTranscript (step d a) = []
  \/ blank (currentTranscript (step d a)) = false.
Proof.
  intros H. destruct a; cbn [step].
  - left. unfold startListening, startListening_capture. cbn.
    destruct (DeepgramService.stream (device d)); [|reflexivity].
    now destruct (DeepgramService.mediaRecorder (device d)) as [[]|].
  - unfold startListening_resume, startListening_capture.
    destruct granted; [|exact H]. cbn.
    now destruct (DeepgramService.mediaRecorder (device d)) as [[]|].
  - destruct (transcriptEvent_fields text is_final d) as [E _].
    cbn zeta in E. rewrite E.
    destruct (is_final && negb (blank text)) eqn:C; [|exact H].
    apply andb_prop in C as [_ C]. apply negb_true_iff in C.
    destruct (transcriptHandlers d) as [|k]; [exact H|]. right.
    change (repeat text (S k)) with (text :: repeat text k).
    rewrite repeat_cons, fold_left_app. cbn [fold_left].
    now apply blank_extend.
  - unfold utteranceEnd.
    destruct (truthy (currentTranscript d)
              && truthy (trim (currentTranscript d))
              && onUtteranceEndCallback d); [now left|exact H].
  - exact H.
  - now left.
Qed.

Lemma heard_run acts d :
  (currentTranscript d = [] \/ blank (currentTranscript d) = false) ->
  currentTranscript (run acts d) = []
  \/ blank (currentTranscript (run acts d)) = false.
Proof.
  revert d. induction acts as [|a acts IH]; intros d H; [exact H|].
  apply (IH (step d a)). now apply heard_step.
Qed.

(** X19.  The end of an utterance: in every state the adapter can be
    in, if some text was heard and the callback is set, the callback
    gets that text trimmed and the text is cleared; what it gets is not
    empty and is its own trim, so the check of the hook's callback lets
    it through and its key is the text in lower case. *)
Theorem utterance_end_delivers_trimmed_text {runtime : Runtime} acts :
  let d := run acts new in
  currentTranscript d <> [] -> onUtteranceEndCallback d = true ->
  let finalTranscript := trim (currentTranscript d) in
  utteranceEnd d
  = emit (OnUtteranceEnd finalTranscript) (setCurrentTranscript [] d)
  /\ truthy finalTranscript && truthy (trim finalTranscript) = true
  /\ trim finalTranscript = finalTranscript
  /\ messageKey finalTranscript = toLowerCase finalTranscript.
Proof.
  intros d N C f.
  assert (B : blank (currentTranscript d) = false).
  { destruct (@heard_run acts new (or_introl eq_refl)) as [E|E];
      [now elim N|exact E]. }
  assert (T : truthy f = true).
  { subst f. destruct (trim (currentTranscript d)) eqn:E; [|reflexivity].
    apply trim_blank in E. congruence. }
  assert (TT : trim f = f) by apply trim_trim.
  splits.
  - unfold utteranceEnd. fold f. rewrite T, C, (@blank_false_truthy _ B).
    reflexivity.
  - now rewrite TT, T.
  - exact TT.
  - unfold messageKey. now rewrite TT.
Qed.

End Transcripts.

(** ** The voice *)

Section Voices.

Import ElevenLabsService.

Lemma startsWith_includes s p : startsWith s p = true -> includes s p = true.
Proof. intros H. destruct s; cbn [includes]; now rewrite H. Qed.

(** X20.  The voice: if some voice has a language tag that starts with
    'en', a voice is chosen; it is one of the voices, its tag contains
    'en', and it is one that passes the first test (natural by name, or
    not local) whenever there is one; otherwise its tag starts with
    'en'. *)
Theorem an_english_voice_is_chosen voices u :
  In u voices -> startsWith (lang u) (lit "en") = true ->
  exists v,
    preferredVoice voices = Some v /\ In v voices
    /\ includes (lang v) (lit "en") = true
    /\ (natural v = true
        \/ (startsWith (lang v) (lit "en") = true
            /\ forall w, In w voices -> natural w = false)).
Proof.
  intros I S. unfold preferredVoice.
  destruct (find natural voices) as [v|] eqn:F.
  - destruct (find_some _ _ F) as [Iv Nv]. exists v. splits; auto.
    unfold natural in Nv. now apply andb_prop in Nv as [-> _].
  - destruct (find (fun voice => startsWith (lang voice) (lit "en")) voices)
      as [v|] eqn:G.
    + destruct (find_some _ _ G) as [Iv Sv]. exists v. splits; auto.
      * now apply startsWith_includes.
      * right. split; [exact Sv|]. intros w Iw.
        exact (find_none _ _ F w Iw).
    + pose proof (find_none _ _ G u I) as N. cbn beta in N. congruence.
Qed.

End Voices.

(** ** The guard is released *)

Section Guard.

Context {runtime : Runtime}.
Variable callbacks : ChatServiceCallbacks.

Lemma count_pos_nth {A} (f : A -> bool) l :
  1 <= count f l -> exists i t, nth_error l i = Some t /\ f t = true.
Proof.
  induction l as [|x l IH]; rewrite ?count_nil, ?count_cons; [lia|].
  destruct (f x) eqn:F.
  - intros _. now exists 0, x.
  - intros H. destruct IH as (i & t & E & T); [lia|]. now exists (S i), t.
Qed.

Lemma processingRef_finally s :
  processingRef (processUserMessage_finally s) = processingRef s.
Proof. unfold processUserMessage_finally. now destruct (isListeningRef s). Qed.

Lemma release_queue q : forall s,
  queue s = q -> 1 <= count isTurn q ->
  exists acts s',
    run callbacks acts s = Some s' /\ processingRef s' = false
    /\ forallb isEnvironment acts = true.
Proof.
  induction q as [|who q IH]; intros s Q C; [rewrite count_nil in C; lia|].
  rewrite count_cons in C. destruct who.
  - exists [speech_end]. eexists. cbn [run step]. rewrite Q. now splits.
  - cbn in C.
    destruct (IH (utterance_handler Greeting (setQueue q s)) eq_refl C)
      as (acts & s' & R & P & E).
    exists (speech_end :: acts), s'. cbn [run step]. rewrite Q. now splits.
Qed.

Lemma release_cancelled c : forall s,
  cancelled s = c -> 1 <= count isTurn c ->
  exists acts s',
    run callbacks acts s = Some s' /\ processingRef s' = false
    /\ forallb isEnvironment acts = true.
Proof.
  induction c as [|who c IH]; intros s Q C; [rewrite count_nil in C; lia|].
  rewrite count_cons in C. destruct who.
  - exists [speech_error]. eexists. cbn [run step]. rewrite Q. now splits.
  - cbn in C.
    destruct (IH (utterance_handler Greeting (setCancelled c s)) eq_refl C)
      as (acts & s' & R & P & E).
    exists (speech_error :: acts), s'. cbn [run step]. rewrite Q. now splits.
Qed.

(** X22.  The guard does not stay set for ever: from every reachable
    state in which it is set, the environment alone (the answer of the
    Completion Client, the voices, the events of the utterances) can
    bring the hook to a state in which it is clear, without any call of
    the hook's functions. *)
Theorem the_guard_can_be_released s :
  reachable callbacks s -> processingRef s = true ->
  exists acts s',
    run callbacks acts s = Some s' /\ processingRef s' = false
    /\ forallb isEnvironment acts = true.
Proof.
  intros R P. pose proof (guard_reachable R) as G.
  unfold guard_inv in G. rewrite P in G. unfold inFlight in G.
  destruct (count turnTask (pending s)) as [|n] eqn:Cp.
  - destruct (count isTurn (queue s)) as [|m] eqn:Cq.
    + apply (@release_cancelled (cancelled s) s eq_refl). lia.
    + apply (@release_queue (queue s) s eq_refl). lia.
  - destruct (@count_pos_nth _ turnTask (pending s)) as (i & t & E & T); [lia|].
    destruct t as [| |muted|text []| | | |]; try discriminate.
    + exists [settle i rejected]. eexists. cbn [run step]. rewrite E.
      cbn [resume]. splits; [reflexivity| |reflexivity].
      unfold processUserMessage_resume. cbn [OpenAIService.getResponse].
      now rewrite processingRef_finally.
    + exists [settle i rejected]. eexists. cbn [run step]. rewrite E.
      cbn [resume]. splits; [reflexivity| |reflexivity].
      unfold speak_resume, afterSpeak, onComplete.
      now rewrite processingRef_finally.
Qed.

End Guard.

(** ** Concrete runs *)

#[local] Existing Instance asciiRuntime.

Lemma at_most_one_turn_in_flight_witness :
  let s := after [call_processUserMessage false (lit "hello")] in
  inFlight s <= 1 /\
  (processingRef s = true <-> inFlight s = 1) /\
  (inFlight s = 1 ->
   step (runtime := asciiRuntime) alex
     (call_processUserMessage true (lit "and another thing")) s = Some s).
Proof.
  intros s.
  apply (@at_most_one_turn_in_flight asciiRuntime alex).
  exists [call_processUserMessage false (lit "hello")].
  vm_compute. reflexivity.
Defined.

(** C6.  What the code does where capture should be suspended: the
    session is listening and an utterance is accepted; the turn is in
    flight and the recorder is still recording.  The turn then runs to
    its end: [deepgram.resumeListening()] is called once, as soon as the
    utterance is queued and before the completion, and finds a recorder
    that was never paused. *)
Theorem capture_is_not_suspended_during_a_turn :
  let s1 := after (listening ++ [call_processUserMessage false (lit "hello")]) in
  let s2 :=
    after (listening
           ++ turn (runtime := asciiRuntime) (after listening) false
                (lit "hello") (fulfilled (Some (lit "Hi!")))) in
  isListeningRef (after listening) = true
  /\ DeepgramService.mediaRecorder (deepgram (after listening)) = Some recording
  /\ processingRef s1 = true /\ inFlight s1 = 1
  /\ DeepgramService.mediaRecorder (deepgram s1) = Some recording
  /\ processingRef s2 = false
  /\ DeepgramService.mediaRecorder (deepgram s2) = Some recording
  /\ skipn 2 (trace s2)
     = [OnResponse (lit "Hi!"); ElevenlabsSpeak (lit "Hi!");
        DeepgramResumeListening; OnSpeakingComplete].
Proof. vm_compute. repeat split; reflexivity. Qed.

(** C5.  The mute flag is not what a turn reads.  The session is
    listening: [startListening] was called, and gave its callback to
    the adapter, in a render with [isMuted] false.  The user mutes; the
    flag is set.  An utterance ends, the adapter calls the callback it
    holds, [processUserMessage] of that earlier render runs with its
    [isMuted], false, and the reply 'Hi!' arrives: the response is
    notified, and [speak] is called and the utterance is queued although
    the flag is set; the completion is not notified and the guard stays
    set until the utterance ends.  With the closure of the current
    render the turn does what a muted turn should: no [speak], the
    completion at once. *)
Theorem muted_turn_is_still_spoken :
  let registered := after [settle 0 (fulfilled None)] in
  let muted := listening ++ [call_muteAudio] in
  let reply := [settle 0 (fulfilled (Some (lit "Hi!")));
                settle 0 (fulfilled None)] in
  let s := after (muted ++ onUtteranceEnd registered (lit "hello") ++ reply) in
  let fresh :=
    after (muted ++ onUtteranceEnd (after muted) (lit "hello")
           ++ [settle 0 (fulfilled (Some (lit "Hi!")))]) in
  isMuted registered = false
  /\ isListeningRef (after muted) = true /\ isMuted (after muted) = true
  /\ processingRef (after muted) = false
  /\ isMuted s = true
  /\ notifications s = [OnUserMessage (lit "hello"); OnResponse (lit "Hi!")]
  /\ filter isSpeak (trace s) = [ElevenlabsSpeak (lit "Hi!")]
  /\ queue s = [Turn] /\ utterance s = Some (lit "Hi!")
  /\ processingRef s = true
  /\ notifications fresh
     = [OnUserMessage (lit "hello"); OnResponse (lit "Hi!");
        OnSpeakingComplete]
  /\ filter isSpeak (trace fresh) = []
  /\ queue fresh = [] /\ processingRef fresh = false.
Proof. vm_compute. repeat split; reflexivity. Qed.

(** Muting after the utterance was submitted does not silence its
    reply: the turn speaks according to the [isMuted] of the closure
    that runs it. *)
Example mute_during_processing_still_speaks :
  let s :=
    after [call_processUserMessage false (lit "hello"); call_muteAudio;
           settle 2 (fulfilled (Some (lit "Hi!")))] in
  isMuted s = true
  /\ skipn 2 (trace s) = [OnResponse (lit "Hi!"); ElevenlabsSpeak (lit "Hi!")].
Proof. vm_compute. split; reflexivity. Qed.

Lemma duplicate_suppression_last_accepted_only_witness :
  (processed
     (after [call_processUserMessage false (lit "Hello");
             settle 2 rejected;
             call_processUserMessage false (lit " hello ")]) = 1)
  /\ (processed
       (after [call_processUserMessage false (lit "Hello");
               settle 2 rejected;
               call_processUserMessage false (lit "Bye");
               settle 2 rejected;
               call_processUserMessage true (lit "Hello")]) = 3).
Proof.
  split.
  - apply (proj1 (@duplicate_suppression_last_accepted_only
                    asciiRuntime alex)
             (mount alex) false (lit "Hello")
             [settle 2 rejected; call_processUserMessage false (lit " hello ")]
             (after [call_processUserMessage false (lit "Hello")])).
    + vm_compute. reflexivity.
    + vm_compute. reflexivity.
    + repeat constructor.
    + vm_compute. reflexivity.
  - apply (proj2 (@duplicate_suppression_last_accepted_only
                    asciiRuntime alex)
             (mount alex) (lit "Hello") (lit "Bye") false false true
             [settle 2 rejected] [settle 2 rejected]
             (after [call_processUserMessage false (lit "Hello")])
             (after [call_processUserMessage false (lit "Hello");
                     settle 2 rejected])
             (after [call_processUserMessage false (lit "Hello");
                     settle 2 rejected;
                     call_processUserMessage false (lit "Bye")])
             (after [call_processUserMessage false (lit "Hello");
                     settle 2 rejected;
                     call_processUserMessage false (lit "Bye");
                     settle 2 rejected])).
    all: try (vm_compute; reflexivity).
    + vm_compute. discriminate.
    + vm_compute. discriminate.
    + repeat constructor.
    + repeat constructor.
Defined.

Lemma initialization_is_shared_witness :
  let s := after [call_startListening; call_startListening] in
  awaited (pending s) = [0; 0; 0]
  /\ List.length (attempts (pending s)) <= 1
  /\ initAttempts s = 1
  /\ (exists s',
        step (runtime := asciiRuntime) alex (settle 0 (fulfilled None)) s = Some s'
        /\ isConnected s' = true /\ awaited (pending s') = []
        /\ pending s' = [getUserMedia; getUserMedia])
  /\ (exists s',
        step (runtime := asciiRuntime) alex (settle 0 rejected) s = Some s'
        /\ error s' = Some (lit "Failed to start listening")
        /\ pending s' = [] /\ isListeningRef s' = false).
Proof.
  intros s.
  assert (R : reachable (runtime := asciiRuntime) alex s).
  { exists [call_startListening; call_startListening]. vm_compute. reflexivity. }
  destruct (@initialization_is_shared asciiRuntime alex s R)
    as (A & _ & _ & J & F & _).
  destruct (F 0 0 None) as (s1 & St1 & C1 & _ & _ & W1 & _ & _ & P1 & _);
    [vm_compute; reflexivity|].
  destruct (J 0 0)
    as (s2 & St2 & _ & _ & _ & _ & A2 & W2 & _ & _ & _ & E2 & M2 & L2 & _);
    [vm_compute; reflexivity|].
  splits; [vm_compute; reflexivity | exact A | vm_compute; reflexivity | |].
  - exists s1. splits; auto.
  - exists s2. splits; auto.
    injection St2 as <-. vm_compute. reflexivity.
Defined.

Lemma completion_failure_is_recoverable_witness :
  accepts (runtime := asciiRuntime) (lit "hello") (after listening) = true
  /\ exists s',
       run (runtime := asciiRuntime) alex
         (turn (after listening) false (lit "hello") rejected) (after listening)
       = Some s'
       /\ error s' = Some (lit "Failed to get AI response")
       /\ processingRef s' = false
       /\ List.length (conversationHistory s') = 2.
Proof.
  assert (Acc : accepts (runtime := asciiRuntime) (lit "hello") (after listening)
                = true) by (vm_compute; reflexivity).
  split; [exact Acc|].
  destruct (proj1 (@completion_failure_is_recoverable asciiRuntime alex
                     (after listening) false (lit "hello") Acc))
    as (s' & R & H & E & _ & P & _).
  exists s'. splits; auto. rewrite H. vm_compute. reflexivity.
Defined.

Lemma mute_as_the_closure_sees_it_witness :
  let s :=
    after [call_processUserMessage false (lit "hello");
           settle 2 (fulfilled (Some (lit "Hi!")));
           settle 2 (fulfilled None)] in
  queue s = [Turn]
  /\ queue (muteAudio s) = []
  /\ count isTurn (cancelled (muteAudio s)) = 1
  /\ trace (muteAudio s) = trace s.
Proof.
  intros s.
  assert (R : reachable (runtime := asciiRuntime) alex s).
  { exists [call_processUserMessage false (lit "hello");
            settle 2 (fulfilled (Some (lit "Hi!")));
            settle 2 (fulfilled None)]. vm_compute. reflexivity. }
  destruct (proj1 (proj2 (@mute_as_the_closure_sees_it
                            asciiRuntime alex)) s R)
    as (_ & _ & Q & T & C & _).
  - vm_compute. auto.
  - splits; auto.
Defined.

Lemma history_starts_with_system_and_only_grows_witness :
  exists rest,
    conversationHistory
      (after [call_sendInitialGreeting false;
              call_processUserMessage false (lit "hello")])
    = {| role := system; content := systemPrompt alex |} :: rest.
Proof.
  apply (@history_starts_with_system_and_only_grows asciiRuntime alex).
  exists [call_sendInitialGreeting false;
          call_processUserMessage false (lit "hello")].
  vm_compute. reflexivity.
Defined.

Lemma reply_turn_appends_user_then_assistant_witness :
  exists s',
    run (runtime := asciiRuntime) alex
      (turn (mount alex) false (lit "hello there")
         (fulfilled (Some (lit "Hi! How's your day going?"))))
      (mount alex) = Some s'
    /\ conversationHistory s' =
       [{| role := system; content := systemPrompt alex |};
        {| role := user; content := lit "hello there" |};
        {| role := assistant; content := lit "Hi! How's your day going?" |}]
    /\ notifications s' =
       [OnUserMessage (lit "hello there");
        OnResponse (lit "Hi! How's your day going?"); OnSpeakingComplete].
Proof.
  destruct (proj1 (@reply_turn_appends_user_then_assistant
                     asciiRuntime alex (mount alex) false
                     (lit "hello there")
                     (fulfilled (Some (lit "Hi! How's your day going?")))
                     (lit "Hi! How's your day going?")
                     ltac:(vm_compute; reflexivity)
                     ltac:(vm_compute; reflexivity)
                     ltac:(vm_compute; reflexivity)
                     ltac:(vm_compute; reflexivity)))
    as (s' & R & H & N & _).
  exists s'. splits; [exact R | rewrite H | rewrite N]; vm_compute; reflexivity.
Defined.

Lemma empty_reply_ends_turn_silently_witness :
  exists s',
    run (runtime := asciiRuntime) alex
      (turn (after listening) false (lit "hello") (fulfilled None))
      (after listening) = Some s'
    /\ skipn 2 (conversationHistory s')
       = []
    /\ processingRef s' = false
    /\ notifications s' = [OnUserMessage (lit "hello")].
Proof.
  destruct (@empty_reply_ends_turn_silently asciiRuntime alex
              (after listening) false (lit "hello") (fulfilled None)
              ltac:(vm_compute; reflexivity) ltac:(vm_compute; reflexivity))
    as (s' & R & H & T & P & _).
  exists s'. unfold notifications.
  splits; [exact R | rewrite H | exact P | rewrite T]; vm_compute; reflexivity.
Defined.

Lemma failed_utterance_cannot_be_retried_witness :
  let s1 := after [call_processUserMessage false (lit "Hello"); settle 2 rejected] in
  processingRef s1 = false
  /\ step (runtime := asciiRuntime) alex
       (call_processUserMessage false (lit " hello")) s1 = Some s1.
Proof.
  intros s1.
  destruct (@failed_utterance_cannot_be_retried asciiRuntime alex
              (mount alex) false (lit "Hello") [] s1 s1)
    as (_ & P & _ & _ & D & _).
  - vm_compute. reflexivity.
  - vm_compute. reflexivity.
  - constructor.
  - reflexivity.
  - split; [exact P|]. apply D. vm_compute. reflexivity.
Defined.

Lemma blank_message_is_ignored_witness :
  processUserMessage alex false (lit "   ") (after listening) = after listening.
Proof.
  apply (@blank_message_is_ignored asciiRuntime alex).
  vm_compute. reflexivity.
Defined.

Lemma padding_is_ignored_witness :
  messageKey (lit "  " ++ lit "Hello" ++ lit " ") = messageKey (lit "Hello")
  /\ processUserMessage alex false (lit "  " ++ lit "Hello" ++ lit " ")
       (after listening)
     = processUserMessage alex false (lit "Hello") (after listening).
Proof.
  apply (@padding_is_ignored asciiRuntime alex); vm_compute; reflexivity.
Defined.

Lemma history_entries_are_well_formed_witness :
  Forall well_formed
    (conversationHistory
       (after [call_sendInitialGreeting false; settle 2 (fulfilled None);
               call_processUserMessage false (lit " hello ")])).
Proof.
  apply (@history_entries_are_well_formed asciiRuntime alex).
  exists [call_sendInitialGreeting false; settle 2 (fulfilled None);
          call_processUserMessage false (lit " hello ")].
  vm_compute. reflexivity.
Defined.

Lemma every_request_is_a_full_history_witness :
  Forall
    (fun h =>
       (exists rest c,
           h = {| role := system; content := systemPrompt alex |}
               :: rest ++ [{| role := user; content := c |}]
           /\ truthy c = true /\ trim c = c)
       /\ Forall well_formed h)
    (requests
       (trace
          (after [call_processUserMessage false (lit " hello ");
                  settle 2 (fulfilled (Some (lit "Hi!")));
                  settle 2 (fulfilled None); speech_end;
                  call_processUserMessage false (lit "bye")]))).
Proof.
  apply (@every_request_is_a_full_history asciiRuntime alex).
  exists [call_processUserMessage false (lit " hello ");
          settle 2 (fulfilled (Some (lit "Hi!")));
          settle 2 (fulfilled None); speech_end;
          call_processUserMessage false (lit "bye")].
  vm_compute. reflexivity.
Defined.

Lemma connected_is_permanent_witness :
  let s' :=
    after [settle 0 (fulfilled None); call_startListening; settle 0 rejected;
           call_stopListening] in
  isConnected s' = true /\ isInitializedRef s' = true
  /\ initAttempts s' = initAttempts (after [settle 0 (fulfilled None)]).
Proof.
  apply (@connected_is_permanent asciiRuntime alex
           (after [settle 0 (fulfilled None)])
           [call_startListening; settle 0 rejected; call_stopListening]).
  - exists [settle 0 (fulfilled None)]. vm_compute. reflexivity.
  - vm_compute. reflexivity.
  - vm_compute. reflexivity.
Defined.

Lemma capture_follows_connection_witness :
  let s := after [settle 0 (fulfilled None); call_startListening] in
  (In getUserMedia (pending s) \/ isListeningRef s = true
   \/ DeepgramService.stream (deepgram s) = true
   \/ DeepgramService.mediaRecorder (deepgram s) <> None ->
   isConnected s = true)
  /\ (isListeningRef s = true ->
      DeepgramService.stream (deepgram s) = true
      /\ (DeepgramService.mediaRecorder (deepgram s) = Some recording
          \/ DeepgramService.mediaRecorder (deepgram s) = Some inactive)).
Proof.
  apply (@capture_follows_connection asciiRuntime alex).
  exists [settle 0 (fulfilled None); call_startListening].
  vm_compute. reflexivity.
Defined.

Lemma denied_microphone_is_reported_witness :
  let s := after [settle 0 (fulfilled None)] in
  step alex call_startListening s
  = Some (await getUserMedia (setError None s))
  /\ (exists s2,
        run alex [call_startListening; settle 0 rejected] s = Some s2
        /\ isListeningRef s2 = false
        /\ DeepgramService.mediaRecorder (deepgram s2)
           = DeepgramService.mediaRecorder (deepgram s)
        /\ DeepgramService.stream (deepgram s2) = false
        /\ error s2 = Some (lit "Failed to start listening")
        /\ pending s2 = pending s)
  /\ (forall d,
        DeepgramService.stream (Transcription.device d) = false ->
        let d' :=
          Transcription.run [Transcription.start; Transcription.answer false] d
        in
        Transcription.device d' = Transcription.device d
        /\ Transcription.currentTranscript d' = []
        /\ Transcription.onTranscriptCallback d' = true
        /\ Transcription.onUtteranceEndCallback d' = true
        /\ Transcription.transcriptHandlers d'
           = Transcription.transcriptHandlers d).
Proof.
  apply (@denied_microphone_is_reported asciiRuntime alex
           (after [settle 0 (fulfilled None)]));
    vm_compute; reflexivity.
Defined.

Lemma restart_needs_no_permission_witness :
  exists s',
    run alex
      [call_stopListening; settle 0 (fulfilled None); call_startListening]
      (after listening) = Some s'
    /\ isListeningRef s' = true
    /\ DeepgramService.mediaRecorder (deepgram s') = Some recording
    /\ DeepgramService.stream (deepgram s') = true
    /\ pending s' = pending (after listening).
Proof.
  apply (@restart_needs_no_permission asciiRuntime alex (after listening) None).
  - exists listening. vm_compute. reflexivity.
  - vm_compute. reflexivity.
Defined.

Lemma start_while_stopping_is_lost_witness :
  exists s',
    run alex
      [call_stopListening; call_startListening; settle 0 (fulfilled None)]
      (after listening) = Some s'
    /\ isListeningRef s' = false
    /\ DeepgramService.mediaRecorder (deepgram s') = Some inactive
    /\ pending s' = pending (after listening).
Proof.
  apply (@start_while_stopping_is_lost asciiRuntime alex (after listening) None).
  - exists listening. vm_compute. reflexivity.
  - vm_compute. reflexivity.
Defined.

Lemma resumeListening_finds_nothing_to_resume_witness :
  let s :=
    after (listening ++ [call_stopListening; settle 0 (fulfilled None)]) in
  DeepgramService.resumeListening (deepgram s) = deepgram s
  /\ DeepgramService.resumeListening
       (DeepgramService.pauseListening (deepgram s)) = deepgram s.
Proof.
  apply (@resumeListening_finds_nothing_to_resume asciiRuntime alex).
  exists (listening ++ [call_stopListening; settle 0 (fulfilled None)]).
  vm_compute. reflexivity.
Defined.

Lemma error_is_cleared_by_startListening_only_witness :
  error
    (after [call_processUserMessage false (lit "hello"); settle 2 rejected;
            call_processUserMessage false (lit "again");
            settle 2 (fulfilled (Some (lit "Hi!")))]) <> None.
Proof.
  apply (@error_is_cleared_by_startListening_only asciiRuntime alex
           (settle 2 (fulfilled (Some (lit "Hi!"))))
           (after [call_processUserMessage false (lit "hello");
                   settle 2 rejected;
                   call_processUserMessage false (lit "again")])).
  - vm_compute. reflexivity.
  - vm_compute. reflexivity.
  - vm_compute. discriminate.
Defined.

Lemma greeting_then_auto_start_witness :
  let s := after [settle 0 (fulfilled None)] in
  exists s',
    run alex (greeting s false) s = Some s'
    /\ conversationHistory s'
       = conversationHistory s
         ++ [{| role := assistant; content := greetingMessage alex |}]
    /\ notifications s'
       = notifications s
         ++ [OnResponse (greetingMessage alex); OnSpeakingComplete]
    /\ processingRef s' = processingRef s
    /\ lastProcessedMessageRef s' = lastProcessedMessageRef s
    /\ pending s' = pending s ++ [autoStart_delay]
    /\ step alex (settle (List.length (pending s)) (fulfilled None)) s'
       = Some (startListening (setPending (pending s) s')).
Proof.
  apply (@greeting_then_auto_start asciiRuntime alex
           (after [settle 0 (fulfilled None)]) false None).
  exists [settle 0 (fulfilled None)]. vm_compute. reflexivity.
Defined.

Lemma speaking_indicator_has_a_completion_to_come_witness :
  1 <= outstanding
         (after [call_processUserMessage false (lit "hello");
                 settle 2 (fulfilled (Some (lit "Hi!")))]).
Proof.
  apply (@speaking_indicator_has_a_completion_to_come asciiRuntime alex).
  - exists [call_processUserMessage false (lit "hello");
            settle 2 (fulfilled (Some (lit "Hi!")))].
    vm_compute. reflexivity.
  - vm_compute. reflexivity.
Defined.

Lemma chat_is_shown_with_an_identity_witness :
  let st :=
    App.handleFormSubmit (lit " Alex ") (lit "male")
      (App.handleStartChat App.initial) in
  App.render st <> App.Nothing
  /\ (App.showChat st = true -> App.showForm st = false)
  /\ forall userName userGender,
       App.render st = App.Chat userName userGender ->
       trim userName = userName /\ truthy userGender = true.
Proof.
  apply (@chat_is_shown_with_an_identity
           [App.click_start; App.submit (lit " Alex ") (lit "male")]).
  vm_compute. reflexivity.
Defined.

Lemma blank_name_is_accepted_witness :
  App.render (App.handleFormSubmit (lit "  ") (lit "other") App.initial)
  = App.Chat [] (lit "other")
  /\ greetingMessage (App.callbacksOf [] (lit "other"))
     = lit "Hi , how are you?".
Proof.
  apply (@blank_name_is_accepted (lit "  ") (lit "other") App.initial);
    vm_compute; reflexivity.
Defined.

Lemma final_transcripts_are_joined_witness :
  let d := Transcription.run [Transcription.start; Transcription.answer true]
             Transcription.new in
  let evs := [(lit "hello", true); (lit "hello wor", false); (lit " ", true);
              (lit "world", true)] in
  Transcription.currentTranscript (Transcription.hear evs d)
  = Transcription.join
      (flat_map (fun c => repeat c (Transcription.transcriptHandlers d))
         (Transcription.heard evs)).
Proof.
  apply (@final_transcripts_are_joined
           [(lit "hello", true); (lit "hello wor", false); (lit " ", true);
            (lit "world", true)]
           (Transcription.run [Transcription.start; Transcription.answer true]
              Transcription.new)).
  vm_compute. reflexivity.
Defined.

Lemma handlers_add_up_witness :
  let d :=
    Transcription.run
      (Transcription.start :: Transcription.answer true
       :: Transcription.restarts 2) Transcription.new in
  let d' := Transcription.transcriptEvent (lit "hello") true d in
  Transcription.transcriptHandlers d = 3
  /\ Transcription.currentTranscript d'
     = Transcription.join (repeat (lit "hello") 3)
  /\ List.length (Transcription.calls d') = 3.
Proof.
  apply (@handlers_add_up 2 (lit "hello")). vm_compute. reflexivity.
Defined.

Lemma utterance_end_delivers_trimmed_text_witness :
  let d :=
    Transcription.run
      [Transcription.start; Transcription.answer true;
       Transcription.transcript (lit " hello") true] Transcription.new in
  let finalTranscript := trim (Transcription.currentTranscript d) in
  Transcription.utteranceEnd d
  = Transcription.emit (Transcription.OnUtteranceEnd finalTranscript)
      (Transcription.setCurrentTranscript [] d)
  /\ truthy finalTranscript && truthy (trim finalTranscript) = true
  /\ trim finalTranscript = finalTranscript
  /\ messageKey finalTranscript = toLowerCase finalTranscript.
Proof.
  apply (@utterance_end_delivers_trimmed_text asciiRuntime
           [Transcription.start; Transcription.answer true;
            Transcription.transcript (lit " hello") true]).
  - vm_compute. discriminate.
  - vm_compute. reflexivity.
Defined.

Lemma an_english_voice_is_chosen_witness :
  let voices :=
    [ {| ElevenLabsService.name := lit "Alice"; ElevenLabsService.lang := lit "it-IT";
         ElevenLabsService.localService := true |};
      {| ElevenLabsService.name := lit "Daniel"; ElevenLabsService.lang := lit "en-GB";
         ElevenLabsService.localService := true |};
      {| ElevenLabsService.name := lit "Google US English";
         ElevenLabsService.lang := lit "en-US";
         ElevenLabsService.localService := false |} ] in
  exists v,
    ElevenLabsService.preferredVoice voices = Some v /\ In v voices
    /\ ElevenLabsService.includes (ElevenLabsService.lang v) (lit "en") = true
    /\ (ElevenLabsService.natural v = true
        \/ (ElevenLabsService.startsWith (ElevenLabsService.lang v) (lit "en")
            = true
            /\ forall w, In w voices -> ElevenLabsService.natural w = false)).
Proof.
  intros voices.
  apply (@an_english_voice_is_chosen voices
           {| ElevenLabsService.name := lit "Daniel";
              ElevenLabsService.lang := lit "en-GB";
              ElevenLabsService.localService := true |}).
  - right. left. reflexivity.
  - vm_compute. reflexivity.
Defined.

Lemma last_key_is_the_key_of_the_last_user_message_witness :
  let s :=
    after [call_processUserMessage false (lit " Hello ");
           settle 2 (fulfilled (Some (lit "Hi!")))] in
  lastProcessedMessageRef s
  = match lastUserMessage (trace s) with
    | Some text => messageKey text
    | None => []
    end.
Proof.
  apply (@last_key_is_the_key_of_the_last_user_message asciiRuntime alex).
  - reflexivity.
  - exists [call_processUserMessage false (lit " Hello ");
            settle 2 (fulfilled (Some (lit "Hi!")))].
    vm_compute. reflexivity.
Defined.

Lemma the_guard_can_be_released_witness :
  exists acts s',
    run alex acts
      (after [call_processUserMessage false (lit "hello");
              settle 2 (fulfilled (Some (lit "Hi!")))]) = Some s'
    /\ processingRef s' = false
    /\ forallb isEnvironment acts = true.
Proof.
  apply (@the_guard_can_be_released asciiRuntime alex).
  - exists [call_processUserMessage false (lit "hello");
            settle 2 (fulfilled (Some (lit "Hi!")))].
    vm_compute. reflexivity.
  - vm_compute. reflexivity.
Defined.
